(** * ironclad-network-baseline: scoring engine and remediation resolver

  A shallow embedding of [scoring.py] and [policy_intent.py] and the
  properties of the scoring and remediation contract that hold of them,
  followed by the wizard helpers of [app.py] and the HTML fragments of
  [report_builder.py].

  Modelling conventions:
  - a Python [Dict[str, str]] is a [gmap string string]; [d.get(k)] is the
    lookup [d !! k] (Python [None] is Rocq [None]); an answer, when
    present, is a string, as the annotation of [score_assessment] has it;
  - Python [int] is [Z];
  - Python [float] is IEEE-754 binary64, taken from the Standard Library's
    executable specification [SpecFloat] ([prec = 53], [emax = 1024]);
  - code that can raise (indexing a dict, [round] of a non-finite float)
    lives in the [option] monad; [None] is a raised exception. *)

From Stdlib Require Import ZArith String List SpecFloat Ascii Lia.
From stdpp Require Import gmap strings list sorting.

Local Open Scope string_scope.
Local Open Scope list_scope.
Local Open Scope Z_scope.

(** ** Python floats *)

Module F64.

Definition prec : Z := 53.
Definition emax : Z := 1024.

(** [float(n)] for a Python int [n]: correctly rounded conversion. *)
Definition of_int (n : Z) : spec_float := binary_normalize prec emax n 0 false.

Definition mul : spec_float -> spec_float -> spec_float := SFmul prec emax.
Definition div : spec_float -> spec_float -> spec_float := SFdiv prec emax.

(** A decimal literal [num / den] denotes the binary64 number nearest to
    it; a correctly rounded division of two exactly representable
    integers computes just that. *)
Definition literal (num den : Z) : spec_float := div (of_int num) (of_int den).

(** The integer nearest to [m * 2^e] (with [0 <= m]), ties going to the
    even integer. *)
Definition round_half_even (m e : Z) : Z :=
  if 0 <=? e then m * 2 ^ e
  else
    let d := 2 ^ (- e) in
    let q := m / d in
    let r := m mod d in
    match 2 * r ?= d with
    | Lt => q
    | Gt => q + 1
    | Eq => if Z.even q then q else q + 1
    end.

(** [round(x)] with one argument: [float.__round__] rounds half to even
    and returns an int; it raises on an infinity or a NaN. *)
Definition py_round (x : spec_float) : option Z :=
  match x with
  | S754_zero _ => Some 0
  | S754_finite s m e => Some (cond_Zopp s (round_half_even (Zpos m) e))
  | S754_infinity _ => None
  | S754_nan => None
  end.

#[export] Instance spec_float_eq_dec : EqDecision spec_float.
Proof. solve_decision. Defined.

End F64.

(** ** scoring.py *)

Module Scoring.

(** Grading bands (LOCKED) *)
Definition grade_from_score (score : Z) : string :=
  if 85 <=? score then "A"
  else if 70 <=? score then "B"
  else if 55 <=? score then "C"
  else if 40 <=? score then "D"
  else "F".

(** Device multiplier (LOCKED buckets) *)
Definition f_1_0 : spec_float := Eval vm_compute in F64.literal 10 10.
Definition f_1_1 : spec_float := Eval vm_compute in F64.literal 11 10.
Definition f_1_25 : spec_float := Eval vm_compute in F64.literal 125 100.
Definition f_1_5 : spec_float := Eval vm_compute in F64.literal 15 10.

Definition DEVICE_MULTIPLIER : gmap string spec_float :=
  <["LT_50" := f_1_0]> (<["R_50_200" := f_1_1]> (<["R_200_500" := f_1_25]>
    (<["R_500_1000" := f_1_5]> ∅))).

(** Gate caps (LOCKED) *)
Definition GATE_CAPS : gmap string Z :=
  <["G1" := 40]> (<["G2" := 50]> (<["G3" := 55]> (<["G4" := 65]>
    (<["G5" := 70]> ∅)))).

Definition REQUIRED_SCORED_QIDS : list string :=
  [ "C1_WAN_ADMIN_EXPOSURE";
    "C2_REMOTE_ACCESS_METHOD";
    "C3_ADMIN_MFA";
    "D1_GUEST_INTERNAL_ACCESS";
    "D2_VLAN_SEPARATION";
    "D3_IOT_WITH_FINANCE";
    "E1_CORP_WIFI_SECURITY";
    "E2_GUEST_CLIENT_ISOLATION";
    "F1_UNUSED_PORTS_RESTRICTED";
    "F2_CONFIG_BACKUPS";
    "F3_LOGGING_EXISTS";
    "F4_FIRMWARE_UPDATES" ].

Record GateResult := mkGateResult {
  gate_id : string;
  failed : bool;
  cap : Z;
  reasons : list string
}.

Record ScoreBreakdown := mkScoreBreakdown {
  raw_score : Z;
  cap_applied : Z;
  final_score : Z;
  grade : string;
  device_multiplier : spec_float;
  gates : list GateResult;
  deductions : gmap string Z;
  failed_controls : list string;
  notes : list string
}.

#[export] Instance GateResult_eq_dec : EqDecision GateResult.
Proof. solve_decision. Defined.

Definition _is_not_sure (value : option string) : bool :=
  bool_decide (value = Some "NOT_SURE") || bool_decide (value = None).

(** [value == lit] for the result of [answers.get(...)]. *)
Definition eqs (value : option string) (lit : string) : bool :=
  bool_decide (value = Some lit).

(** [qid not in answers or answers.get(qid) is None]: both say that the
    lookup finds nothing. *)
Definition _missing_required_scored_answers (answers : gmap string string)
  : list string :=
  filter (fun qid => answers !! qid = None) REQUIRED_SCORED_QIDS.

(** The loop that removes duplicates and keeps the order of first
    occurrences: [seen] is the set, [out] the list being appended to. *)
Definition dedup_step (st : gset string * list string) (cid : string)
  : gset string * list string :=
  let '(seen, out) := st in
  if decide (cid ∈ seen) then (seen, out)
  else ({[ cid ]} ∪ seen, out ++ [cid]).

Definition dedup_loop (l : list string) : list string :=
  snd (fold_left dedup_step l (∅, [])).

(** *** The sections of [score_assessment], in source order *)

Section Body.
Variable answers : gmap string string.

(** Missing answer handling, then the device multiplier. *)
Definition missing_note : list string :=
  let missing := _missing_required_scored_answers answers in
  match missing with
  | [] => []
  | _ :: _ =>
      [ String.append
          "Some scored questions were not answered; missing/unknown responses are treated as failing controls: "
          (String.concat ", " missing) ]
  end.

Definition device_bucket : string :=
  default "R_50_200" (answers !! "A1_DEVICE_COUNT").

Definition multiplier : spec_float :=
  default f_1_1 (DEVICE_MULTIPLIER !! device_bucket).

Definition bucket_note : list string :=
  if decide (is_Some (DEVICE_MULTIPLIER !! device_bucket)) then []
  else [ "Unknown device bucket; default multiplier applied (1.1x)." ].

(** Answers read by the rules. *)
Definition c1 := answers !! "C1_WAN_ADMIN_EXPOSURE".
Definition c2 := answers !! "C2_REMOTE_ACCESS_METHOD".
Definition c3 := answers !! "C3_ADMIN_MFA".
Definition d1 := answers !! "D1_GUEST_INTERNAL_ACCESS".
Definition d2 := answers !! "D2_VLAN_SEPARATION".
Definition d3 := answers !! "D3_IOT_WITH_FINANCE".
Definition e1 := answers !! "E1_CORP_WIFI_SECURITY".
Definition e2 := answers !! "E2_GUEST_CLIENT_ISOLATION".
Definition f1 := answers !! "F1_UNUSED_PORTS_RESTRICTED".
Definition f2 := answers !! "F2_CONFIG_BACKUPS".
Definition f3 := answers !! "F3_LOGGING_EXISTS".
Definition f4 := answers !! "F4_FIRMWARE_UPDATES".

(** Gate evaluation (LOCKED logic) *)
Definition g1_reasons : list string :=
  (if eqs c1 "YES" || _is_not_sure c1
   then [ "Admin interface reachable from internet (or unknown)." ] else [])
  ++ (if eqs c2 "PORT_FORWARDING"
      then [ "Remote access uses port forwarding/exposed services." ] else []).

Definition g2_reasons : list string :=
  if eqs d1 "YES" || _is_not_sure d1
  then [ "Guest devices can access internal systems (or unknown)." ] else [].

Definition g3_reasons : list string :=
  if eqs d2 "FLAT" || _is_not_sure d2
  then [ "Network is flat / not segmented (or unknown)." ] else [].

Definition g4_reasons : list string :=
  if eqs f2 "NONE" || _is_not_sure f2
  then [ "No configuration backups (or unknown)." ] else [].

Definition g5_reasons : list string :=
  if eqs f3 "NO" || _is_not_sure f3
  then [ "No network/firewall logging (or unknown)." ] else [].

(** [GateResult(gid, len(reasons) > 0, GATE_CAPS[gid], reasons)] *)
Definition mk_gate (gid : string) (rs : list string) : option GateResult :=
  c ← GATE_CAPS !! gid;
  Some (mkGateResult gid (0 <? Z.of_nat (length rs)) c rs).

Definition eval_gates : option (list GateResult) :=
  g1 ← mk_gate "G1" g1_reasons;
  g2 ← mk_gate "G2" g2_reasons;
  g3 ← mk_gate "G3" g3_reasons;
  g4 ← mk_gate "G4" g4_reasons;
  g5 ← mk_gate "G5" g5_reasons;
  Some [g1; g2; g3; g4; g5].

(** Determine cap *)
Definition determine_cap (gs : list GateResult) : Z :=
  fold_left (fun cap0 g => if failed g then Z.min cap0 (cap g) else cap0) gs 100.

(** Deductions (LOCKED weights).  Each category threads its accumulator
    and the shared [failed_controls] list. *)
Definition perimeter_pass (failed_controls0 : list string) : Z * list string :=
  let perimeter_ded := 0 in
  let '(perimeter_ded, fc) :=
    if eqs c1 "YES" || _is_not_sure c1
    then (perimeter_ded + 25, failed_controls0 ++ ["CTRL_PERIMETER_WAN_ADMIN_EXPOSURE"])
    else (perimeter_ded, failed_controls0) in
  let '(perimeter_ded, fc) :=
    if eqs c2 "PORT_FORWARDING"
    then (perimeter_ded + 25, fc ++ ["CTRL_PERIMETER_PORT_FORWARDING"])
    else (perimeter_ded, fc) in
  if eqs c3 "NO" || _is_not_sure c3
  then (perimeter_ded + 10, fc ++ ["CTRL_IDENTITY_ADMIN_MFA"])
  else (perimeter_ded, fc).

Definition segmentation_pass (failed_controls0 : list string) : Z * list string :=
  let segmentation_ded := 0 in
  let '(segmentation_ded, fc) :=
    if eqs d2 "FLAT" || _is_not_sure d2
    then (segmentation_ded + 25, failed_controls0 ++ ["CTRL_SEGMENTATION_FLAT_NETWORK"])
    else if eqs d2 "PARTIAL"
    then (segmentation_ded + 10, failed_controls0 ++ ["CTRL_SEGMENTATION_PARTIAL"])
    else (segmentation_ded, failed_controls0) in
  let fc :=
    if eqs d1 "YES" || _is_not_sure d1
    then fc ++ ["CTRL_SEGMENTATION_GUEST_NOT_ISOLATED"]
    else fc in
  if eqs d3 "YES"
  then (segmentation_ded + 10, fc ++ ["CTRL_SEGMENTATION_IOT_WITH_CRITICAL"])
  else (segmentation_ded, fc).

Definition wireless_pass (failed_controls0 : list string) : Z * list string :=
  let wireless_ded := 0 in
  let '(wireless_ded, fc) :=
    if eqs e1 "OPEN_OR_UNKNOWN" || _is_not_sure e1
    then (wireless_ded + 15, failed_controls0 ++ ["CTRL_WIRELESS_OPEN_OR_UNKNOWN"])
    else if eqs e1 "PSK"
    then (wireless_ded + 7, failed_controls0 ++ ["CTRL_WIRELESS_PSK_ONLY"])
    else (wireless_ded, failed_controls0) in
  if eqs e2 "NO" || _is_not_sure e2
  then (wireless_ded + 8, fc ++ ["CTRL_WIRELESS_GUEST_CLIENT_ISOLATION"])
  else (wireless_ded, fc).

Definition hygiene_pass (failed_controls0 : list string) : Z * list string :=
  let hygiene_ded := 0 in
  let '(hygiene_ded, fc) :=
    if eqs f1 "NO" || _is_not_sure f1
    then (hygiene_ded + 7, failed_controls0 ++ ["CTRL_HYGIENE_UNUSED_PORTS"])
    else (hygiene_ded, failed_controls0) in
  let '(hygiene_ded, fc) :=
    if eqs f2 "NONE" || _is_not_sure f2
    then (hygiene_ded + 15, fc ++ ["CTRL_OPERATIONS_NO_BACKUPS"])
    else (hygiene_ded, fc) in
  let '(hygiene_ded, fc) :=
    if eqs f3 "NO" || _is_not_sure f3
    then (hygiene_ded + 15, fc ++ ["CTRL_OPERATIONS_NO_LOGGING"])
    else (hygiene_ded, fc) in
  if eqs f4 "RARE" || _is_not_sure f4
  then (hygiene_ded + 7, fc ++ ["CTRL_OPERATIONS_FIRMWARE_RARE"])
  else (hygiene_ded, fc).

(** [raw_score = 100 - total; if raw_score < 0: 0; if raw_score > 100: 100] *)
Definition clamp_score (total_deductions : Z) : Z :=
  let raw := 100 - total_deductions in
  let raw := if raw <? 0 then 0 else raw in
  if 100 <? raw then 100 else raw.

Definition score_assessment : option ScoreBreakdown :=
  let notes0 := missing_note ++ bucket_note in
  gs ← eval_gates;
  let cap0 := determine_cap gs in
  let '(perimeter_ded, fc) := perimeter_pass [] in
  let '(segmentation_ded, fc) := segmentation_pass fc in
  let '(wireless_ded, fc) := wireless_pass fc in
  let '(hygiene_ded, fc) := hygiene_pass fc in
  segmentation_scaled ←
    F64.py_round (F64.mul (F64.of_int segmentation_ded) multiplier);
  let multiplied_total := segmentation_scaled + wireless_ded + hygiene_ded in
  let total_deductions := perimeter_ded + multiplied_total in
  let raw := clamp_score total_deductions in
  let final := Z.min raw cap0 in
  Some {|
    raw_score := raw;
    cap_applied := cap0;
    final_score := final;
    grade := grade_from_score final;
    device_multiplier := multiplier;
    gates := gs;
    deductions :=
      <["perimeter" := perimeter_ded]> (
      <["segmentation" := segmentation_ded]> (
      <["segmentation_scaled" := segmentation_scaled]> (
      <["wireless" := wireless_ded]> (
      <["hygiene" := hygiene_ded]> (
      <["multiplied_total" := multiplied_total]> (
      <["total" := total_deductions]> ∅))))));
    failed_controls := dedup_loop fc;
    notes := notes0
  |}.
End Body.

End Scoring.

(** ** policy_intent.py *)

Module PolicyIntent.
Import Scoring.

Record FixBlock := mkFixBlock {
  severity : string;
  gate : option string;
  control_id : string;
  title : string;
  finding : string;
  policy_intent : string;
  technical_rationale : string;
  references : list string
}.

#[export] Instance FixBlock_eq_dec : EqDecision FixBlock.
Proof. solve_decision. Defined.

(** Reference tags *)
Definition REF_CIS_IG1 : string := "CIS Controls (IG1)".
Definition REF_NIST_SMB : string := "NIST SMB Baseline".
Definition REF_VENDOR : string := "Vendor Best Practice".

(** Canonical fix blocks (control_id -> FixBlock template) *)
Definition CONTROL_FIX_LIBRARY_items : list (string * FixBlock) :=
  [
    ("CTRL_PERIMETER_WAN_ADMIN_EXPOSURE",
     {| severity := "critical";
        gate := Some "G1";
        control_id := "CTRL_PERIMETER_WAN_ADMIN_EXPOSURE";
        title := "Restrict public access to management interfaces";
        finding := "Administrative login interfaces for network equipment are reachable from the public internet (or this is unknown).";
        policy_intent := "Administrative access to network infrastructure should be reachable only from trusted internal networks or through a secure VPN. Public (WAN) management access should be disabled.";
        technical_rationale := "Publicly exposed management interfaces significantly increase the likelihood of unauthorized access through credential attacks or software vulnerabilities.";
        references := [REF_CIS_IG1; REF_NIST_SMB; REF_VENDOR] |});
    ("CTRL_PERIMETER_PORT_FORWARDING",
     {| severity := "critical";
        gate := Some "G1";
        control_id := "CTRL_PERIMETER_PORT_FORWARDING";
        title := "Remove direct internet exposure of internal services";
        finding := "Remote access to internal systems is provided via port forwarding / exposed services.";
        policy_intent := "Remove direct internet exposure of internal services. Provide remote access using a client-to-site VPN with strong authentication. Prefer cloud/SaaS access where possible.";
        technical_rationale := "Direct exposure of internal services removes a key security boundary and is a common entry point for compromise in SMB environments.";
        references := [REF_CIS_IG1; REF_NIST_SMB; REF_VENDOR] |});
    ("CTRL_IDENTITY_ADMIN_MFA",
     {| severity := "high";
        gate := Some "G1";
        control_id := "CTRL_IDENTITY_ADMIN_MFA";
        title := "Enforce MFA for administrative access";
        finding := "Multi-factor authentication (MFA) is not enforced for network administrative access (or this is unknown).";
        policy_intent := "Require MFA for all administrative access to firewalls, switches, Wi-Fi controllers, and management portals. Use app-based TOTP or hardware-backed methods where supported.";
        technical_rationale := "MFA reduces the impact of password compromise and significantly improves the security of privileged access.";
        references := [REF_CIS_IG1; REF_NIST_SMB; REF_VENDOR] |});
    ("CTRL_SEGMENTATION_GUEST_NOT_ISOLATED",
     {| severity := "critical";
        gate := Some "G2";
        control_id := "CTRL_SEGMENTATION_GUEST_NOT_ISOLATED";
        title := "Isolate guest access from internal systems";
        finding := "Guest/untrusted devices can access internal systems (or this is unknown).";
        policy_intent := "Place guest access on a dedicated network segment and enforce default-deny rules from guest to internal networks. Allow only necessary services (e.g., DHCP/DNS) and internet-bound traffic.";
        technical_rationale := "Guest devices should be treated as untrusted. Isolation reduces risk and limits visibility of internal assets.";
        references := [REF_CIS_IG1; REF_NIST_SMB; REF_VENDOR] |});
    ("CTRL_SEGMENTATION_FLAT_NETWORK",
     {| severity := "critical";
        gate := Some "G3";
        control_id := "CTRL_SEGMENTATION_FLAT_NETWORK";
        title := "Implement basic network segmentation";
        finding := "The network is flat (no meaningful segmentation), or segmentation status is unknown.";
        policy_intent := "Implement at least basic segmentation suitable for SMBs (e.g., Staff, Guest, IoT, and optionally Management). Enforce inter-segment access rules via firewall/L3 controls using least privilege.";
        technical_rationale := "Segmentation limits lateral movement and reduces blast radius when endpoints are compromised.";
        references := [REF_CIS_IG1; REF_NIST_SMB; REF_VENDOR] |});
    ("CTRL_SEGMENTATION_PARTIAL",
     {| severity := "high";
        gate := Some "G3";
        control_id := "CTRL_SEGMENTATION_PARTIAL";
        title := "Strengthen segmentation boundaries";
        finding := "Segmentation exists but is partial (not all groups are separated).";
        policy_intent := "Complete separation for at least Staff, Guest, and IoT. Ensure inter-segment policies are explicit and follow least privilege.";
        technical_rationale := "Partial segmentation can still allow unnecessary lateral movement. Clear boundaries reduce risk and simplify policy control.";
        references := [REF_CIS_IG1; REF_NIST_SMB; REF_VENDOR] |});
    ("CTRL_SEGMENTATION_IOT_WITH_CRITICAL",
     {| severity := "high";
        gate := None;
        control_id := "CTRL_SEGMENTATION_IOT_WITH_CRITICAL";
        title := "Contain IoT/unmanaged devices";
        finding := "IoT/unmanaged devices share the same network as business-critical systems.";
        policy_intent := "Move IoT/unmanaged devices to a restricted segment and allow only explicitly required communication to necessary internal services.";
        technical_rationale := "IoT devices often have weaker security controls and may not be patched regularly; containment reduces exposure to critical systems.";
        references := [REF_CIS_IG1; REF_NIST_SMB; REF_VENDOR] |});
    ("CTRL_WIRELESS_OPEN_OR_UNKNOWN",
     {| severity := "high";
        gate := None;
        control_id := "CTRL_WIRELESS_OPEN_OR_UNKNOWN";
        title := "Use modern Wi-Fi security";
        finding := "Corporate Wi-Fi security is open/unknown.";
        policy_intent := "Use WPA2/WPA3 with a strong configuration. For business devices, consider WPA2/WPA3-Enterprise (802.1X) where feasible. Ensure guest access is separate from corporate access.";
        technical_rationale := "Open or unknown Wi-Fi security materially increases the risk of unauthorized network access.";
        references := [REF_CIS_IG1; REF_NIST_SMB; REF_VENDOR] |});
    ("CTRL_WIRELESS_PSK_ONLY",
     {| severity := "medium";
        gate := None;
        control_id := "CTRL_WIRELESS_PSK_ONLY";
        title := "Harden Wi-Fi authentication and separation";
        finding := "Corporate Wi-Fi uses a shared password (PSK).";
        policy_intent := "Maintain strong PSK hygiene (rotation, unique per-site) and ensure separation between corporate and guest access. Where feasible, adopt 802.1X (Enterprise) for managed corporate devices.";
        technical_rationale := "Shared passwords are harder to manage and revoke. Strong separation and tighter identity controls reduce risk.";
        references := [REF_CIS_IG1; REF_NIST_SMB; REF_VENDOR] |});
    ("CTRL_WIRELESS_GUEST_CLIENT_ISOLATION",
     {| severity := "medium";
        gate := None;
        control_id := "CTRL_WIRELESS_GUEST_CLIENT_ISOLATION";
        title := "Enable guest client isolation";
        finding := "Guest Wi-Fi client isolation is disabled or unknown.";
        policy_intent := "Enable guest client isolation to prevent guest devices from communicating directly with each other. Combine this with network-level guest isolation from internal systems.";
        technical_rationale := "Client isolation reduces opportunistic peer-to-peer attacks and limits lateral spread on guest networks.";
        references := [REF_CIS_IG1; REF_NIST_SMB; REF_VENDOR] |});
    ("CTRL_HYGIENE_UNUSED_PORTS",
     {| severity := "medium";
        gate := None;
        control_id := "CTRL_HYGIENE_UNUSED_PORTS";
        title := "Restrict unused network ports";
        finding := "Unused switch ports or wall jacks are not disabled/restricted (or this is unknown).";
        policy_intent := "Disable unused switch ports or restrict them to a safe, non-production configuration. Document and review active ports periodically.";
        technical_rationale := "Open unused ports increase risk of unauthorized physical access and rogue devices joining the network.";
        references := [REF_CIS_IG1; REF_NIST_SMB; REF_VENDOR] |});
    ("CTRL_OPERATIONS_NO_BACKUPS",
     {| severity := "high";
        gate := Some "G4";
        control_id := "CTRL_OPERATIONS_NO_BACKUPS";
        title := "Establish configuration backups";
        finding := "No recent configuration backups are available (or this is unknown).";
        policy_intent := "Maintain backups of firewall/router/switch/Wi-Fi configurations. Store backups securely off-device and test restore procedures periodically.";
        technical_rationale := "Backups reduce downtime and enable fast recovery after device failure or misconfiguration.";
        references := [REF_CIS_IG1; REF_NIST_SMB; REF_VENDOR] |});
    ("CTRL_OPERATIONS_NO_LOGGING",
     {| severity := "high";
        gate := Some "G5";
        control_id := "CTRL_OPERATIONS_NO_LOGGING";
        title := "Enable basic logging and retention";
        finding := "Network/firewall logs are not stored anywhere (or this is unknown).";
        policy_intent := "Enable firewall/network logging and store logs locally or centrally with reasonable retention. Ensure logs cover authentication events, configuration changes, and security-relevant traffic.";
        technical_rationale := "Without logs, troubleshooting and incident response are severely limited, and security events may go undetected.";
        references := [REF_CIS_IG1; REF_NIST_SMB; REF_VENDOR] |});
    ("CTRL_OPERATIONS_FIRMWARE_RARE",
     {| severity := "medium";
        gate := None;
        control_id := "CTRL_OPERATIONS_FIRMWARE_RARE";
        title := "Adopt a regular update cadence";
        finding := "Network device firmware/software is rarely updated (or update cadence is unknown).";
        policy_intent := "Adopt a regular update process appropriate for SMBs (e.g., quarterly review with urgent security updates applied sooner). Track versions and changes.";
        technical_rationale := "Regular updates reduce exposure to known vulnerabilities and improve stability over time.";
        references := [REF_CIS_IG1; REF_NIST_SMB; REF_VENDOR] |})
  ].

Definition CONTROL_FIX_LIBRARY : gmap string FixBlock :=
  list_to_map CONTROL_FIX_LIBRARY_items.

(** Gate-level executive summaries: each entry is a dict with the two
    keys [title] and [summary]. *)
Record GateMeta := mkGateMeta {
  meta_title : string;
  meta_summary : string
}.

Definition GATE_EXEC_SUMMARIES : gmap string GateMeta :=
  list_to_map [
    ("G1", {| meta_title := "Perimeter Exposure"; meta_summary := "Public exposure of administrative interfaces or internal services materially increases compromise risk." |});
    ("G2", {| meta_title := "Guest Isolation"; meta_summary := "Guest or untrusted devices should not have access to internal systems." |});
    ("G3", {| meta_title := "Segmentation"; meta_summary := "Basic segmentation is required to limit lateral movement and reduce blast radius." |});
    ("G4", {| meta_title := "Configuration Backups"; meta_summary := "Backups are necessary for recovery and operational resilience." |});
    ("G5", {| meta_title := "Logging & Visibility"; meta_summary := "Logging is necessary for troubleshooting and incident detection." |})
  ].

(** One element of [gate_summaries]. *)
Record GateSummary := mkGateSummary {
  gs_gate_id : string;
  gs_title : string;
  gs_summary : string;
  gs_cap : Z;
  gs_reasons : list string
}.

(** The dict returned by [generate_fix_blocks]; [asdict(b)] carries
    exactly the fields of [b], so a payload is the block itself. *)
Record FixOutput := mkFixOutput {
  gate_summaries : list GateSummary;
  critical_fixes : list FixBlock;
  recommended_fixes : list FixBlock
}.

(** The body of the loop over [gates]; a gate dict is the [asdict] image of
    a [GateResult], as [score_assessment_dict] produces it.  [None] stands
    for an iteration that appends nothing: [gate_id] is empty ([not gid])
    or the gate did not fail. *)
Definition gate_summary (g : GateResult) : option GateSummary :=
  let gid := gate_id g in
  if decide (gid = "") then None
  else
    let meta :=
      default {| meta_title := gid; meta_summary := "" |}
              (GATE_EXEC_SUMMARIES !! gid) in
    if failed g
    then Some {| gs_gate_id := gid;
                 gs_title := meta_title meta;
                 gs_summary := meta_summary meta;
                 gs_cap := cap g;
                 gs_reasons := reasons g |}
    else None.

(** Build blocks in stable order (dedup, preserve input order) *)
Definition block_step (st : gset string * list FixBlock) (cid : string)
  : gset string * list FixBlock :=
  let '(seen, blocks) := st in
  if decide (cid ∈ seen) then (seen, blocks)
  else
    let seen := {[ cid ]} ∪ seen in
    match CONTROL_FIX_LIBRARY !! cid with
    | Some b => (seen, blocks ++ [b])
    | None => (seen, blocks)
    end.

Definition build_blocks (failed_controls : list string) : list FixBlock :=
  snd (fold_left block_step failed_controls (∅, [])).

(** [sort_key]: the tuple [(severity_rank, gate_rank, b.control_id)] *)
Definition severity_rank_table : gmap string Z :=
  <["critical" := 0]> (<["high" := 1]> (<["medium" := 2]> ∅)).

Definition sort_key (b : FixBlock) : Z * Z * string :=
  let gate_rank :=
    if bool_decide (gate b ∈ [Some "G1"; Some "G2"; Some "G3"; Some "G4"; Some "G5"])
    then 0 else 1 in
  let severity_rank := default 3 (severity_rank_table !! severity b) in
  (severity_rank, gate_rank, control_id b).

(** Python's [<] on such tuples: lexicographic, strings by code point. *)
Definition key_ltb (k1 k2 : Z * Z * string) : bool :=
  let '(s1, g1, c1) := k1 in
  let '(s2, g2, c2) := k2 in
  if s1 <? s2 then true
  else if s2 <? s1 then false
  else if g1 <? g2 then true
  else if g2 <? g1 then false
  else String.ltb c1 c2.

(** [sorted(blocks, key=sort_key)] is a stable sort; the stable sort of a
    list is unique, and insertion from the right computes it. *)
Fixpoint insert_by_key (b : FixBlock) (l : list FixBlock) : list FixBlock :=
  match l with
  | [] => [b]
  | y :: l' =>
      if key_ltb (sort_key y) (sort_key b) then y :: insert_by_key b l'
      else b :: l
  end.

Definition sorted_by_key (l : list FixBlock) : list FixBlock :=
  foldr insert_by_key [] l.

Definition is_critical (b : FixBlock) : bool :=
  bool_decide (severity b ∈ ["critical"; "high"]).

Definition generate_fix_blocks (failed_controls : list string)
    (gates : list GateResult) : FixOutput :=
  let blocks_sorted := sorted_by_key (build_blocks failed_controls) in
  {| gate_summaries := omap gate_summary gates;
     critical_fixes := filter (fun b => is_critical b = true) blocks_sorted;
     recommended_fixes := filter (fun b => is_critical b = false) blocks_sorted |}.

End PolicyIntent.

(** ** Vocabulary of the contract

    What the properties are stated with: projections of the engine's
    passes, the reading of the contract's phrases ("minimum cap over the
    failed gates", "first occurrence", "sorted by") and the answer sets of
    the scenarios. *)

Module Contract.
Import Scoring PolicyIntent.

(** The four category totals and the control identifiers appended by the
    four passes, each run on an empty list. *)
Definition perimeter_ded (answers : gmap string string) : Z :=
  (perimeter_pass answers []).1.
Definition segmentation_ded (answers : gmap string string) : Z :=
  (segmentation_pass answers []).1.
Definition wireless_ded (answers : gmap string string) : Z :=
  (wireless_pass answers []).1.
Definition hygiene_ded (answers : gmap string string) : Z :=
  (hygiene_pass answers []).1.

Definition raw_failed_controls (answers : gmap string string) : list string :=
  (perimeter_pass answers []).2 ++ (segmentation_pass answers []).2
  ++ (wireless_pass answers []).2 ++ (hygiene_pass answers []).2.

(** The record [score_assessment] builds once [round] has returned
    [segmentation_scaled]. *)
Definition breakdown_of (answers : gmap string string) (segmentation_scaled : Z)
  : ScoreBreakdown :=
  let multiplied_total :=
    segmentation_scaled + wireless_ded answers + hygiene_ded answers in
  let total_deductions := perimeter_ded answers + multiplied_total in
  let cap0 := determine_cap (default [] (eval_gates answers)) in
  let raw := clamp_score total_deductions in
  {| raw_score := raw;
     cap_applied := cap0;
     final_score := Z.min raw cap0;
     grade := grade_from_score (Z.min raw cap0);
     device_multiplier := multiplier answers;
     gates := default [] (eval_gates answers);
     deductions :=
       <["perimeter" := perimeter_ded answers]> (
       <["segmentation" := segmentation_ded answers]> (
       <["segmentation_scaled" := segmentation_scaled]> (
       <["wireless" := wireless_ded answers]> (
       <["hygiene" := hygiene_ded answers]> (
       <["multiplied_total" := multiplied_total]> (
       <["total" := total_deductions]> ∅))))));
     failed_controls := dedup_loop (raw_failed_controls answers);
     notes := missing_note answers ++ bucket_note answers |}.

(** "The minimum cap among the gates whose failed flag is true, or 100 when
    no gate failed." *)
Definition min_failed_cap (gs : list GateResult) : Z :=
  match cap <$> filter (fun g => failed g = true) gs with
  | [] => 100
  | c :: cs => foldr Z.min c cs
  end.

(** The answer set with question [qid] answered [value], or left out when
    [value] is [None]. *)
Definition set_answer (answers : gmap string string) (qid : string)
    (value : option string) : gmap string string :=
  partial_alter (fun _ => value) qid answers.

Definition bucket_note_text : string :=
  "Unknown device bucket; default multiplier applied (1.1x).".

(** The all-failing answer set (the one of [run_local_test.py]). *)
Definition answers_all_failing : gmap string string :=
  list_to_map
    [ ("A1_DEVICE_COUNT", "R_200_500");
      ("C1_WAN_ADMIN_EXPOSURE", "YES");
      ("C2_REMOTE_ACCESS_METHOD", "PORT_FORWARDING");
      ("C3_ADMIN_MFA", "NO");
      ("D1_GUEST_INTERNAL_ACCESS", "YES");
      ("D2_VLAN_SEPARATION", "FLAT");
      ("D3_IOT_WITH_FINANCE", "YES");
      ("E1_CORP_WIFI_SECURITY", "OPEN_OR_UNKNOWN");
      ("E2_GUEST_CLIENT_ISOLATION", "NO");
      ("F1_UNUSED_PORTS_RESTRICTED", "NO");
      ("F2_CONFIG_BACKUPS", "NONE");
      ("F3_LOGGING_EXISTS", "NO");
      ("F4_FIRMWARE_UPDATES", "RARE") ].

(** The same answers with a segmented network and no IoT device next to
    critical systems.  The VLAN rule passes every value other than [FLAT],
    [PARTIAL] and [NOT_SURE], the IoT rule every value other than [YES]. *)
Definition answers_segmented : gmap string string :=
  <["D2_VLAN_SEPARATION" := "FULL"]>
    (<["D3_IOT_WITH_FINANCE" := "NO"]> answers_all_failing).

(** The worst-case option of every scored question (the answers of the
    all-failing scenario). *)
Definition WORST_CASE : list (string * string) :=
  [ ("C1_WAN_ADMIN_EXPOSURE", "YES");
    ("C2_REMOTE_ACCESS_METHOD", "PORT_FORWARDING");
    ("C3_ADMIN_MFA", "NO");
    ("D1_GUEST_INTERNAL_ACCESS", "YES");
    ("D2_VLAN_SEPARATION", "FLAT");
    ("D3_IOT_WITH_FINANCE", "YES");
    ("E1_CORP_WIFI_SECURITY", "OPEN_OR_UNKNOWN");
    ("E2_GUEST_CLIENT_ISOLATION", "NO");
    ("F1_UNUSED_PORTS_RESTRICTED", "NO");
    ("F2_CONFIG_BACKUPS", "NONE");
    ("F3_LOGGING_EXISTS", "NO");
    ("F4_FIRMWARE_UPDATES", "RARE") ].

(** What the conservative-unknown equivalence compares: deductions, gate
    results and failed-control entries. *)
Definition findings (r : option ScoreBreakdown)
  : option (gmap string Z * list GateResult * list string) :=
  (fun sb => (deductions sb, gates sb, failed_controls sb)) <$> r.

(** The outcome of every rule condition, in source order, as a function of
    what [answers.get] returns. *)
Definition verdicts_of (get : string → option string) : list bool :=
  [ eqs (get "C1_WAN_ADMIN_EXPOSURE") "YES" || _is_not_sure (get "C1_WAN_ADMIN_EXPOSURE");
    eqs (get "C2_REMOTE_ACCESS_METHOD") "PORT_FORWARDING";
    eqs (get "C3_ADMIN_MFA") "NO" || _is_not_sure (get "C3_ADMIN_MFA");
    eqs (get "D2_VLAN_SEPARATION") "FLAT" || _is_not_sure (get "D2_VLAN_SEPARATION");
    eqs (get "D2_VLAN_SEPARATION") "PARTIAL";
    eqs (get "D1_GUEST_INTERNAL_ACCESS") "YES" || _is_not_sure (get "D1_GUEST_INTERNAL_ACCESS");
    eqs (get "D3_IOT_WITH_FINANCE") "YES";
    eqs (get "E1_CORP_WIFI_SECURITY") "OPEN_OR_UNKNOWN" || _is_not_sure (get "E1_CORP_WIFI_SECURITY");
    eqs (get "E1_CORP_WIFI_SECURITY") "PSK";
    eqs (get "E2_GUEST_CLIENT_ISOLATION") "NO" || _is_not_sure (get "E2_GUEST_CLIENT_ISOLATION");
    eqs (get "F1_UNUSED_PORTS_RESTRICTED") "NO" || _is_not_sure (get "F1_UNUSED_PORTS_RESTRICTED");
    eqs (get "F2_CONFIG_BACKUPS") "NONE" || _is_not_sure (get "F2_CONFIG_BACKUPS");
    eqs (get "F3_LOGGING_EXISTS") "NO" || _is_not_sure (get "F3_LOGGING_EXISTS");
    eqs (get "F4_FIRMWARE_UPDATES") "RARE" || _is_not_sure (get "F4_FIRMWARE_UPDATES") ].

Definition verdicts (answers : gmap string string) : list bool :=
  verdicts_of (fun qid => answers !! qid).

(** The list of first occurrences: every later copy of the head is removed
    from the rest. *)
Fixpoint first_occ (l : list string) : list string :=
  match l with
  | [] => []
  | x :: l' => x :: filter (fun y => y ≠ x) (first_occ l')
  end.

Definition in_library (cid : string) : Prop :=
  is_Some (CONTROL_FIX_LIBRARY !! cid).

(** Ascending lexicographic order on triples of a severity rank, a
    gate-association rank and a control identifier. *)
Definition key_le (k1 k2 : Z * Z * string) : Prop :=
  let '(s1, g1, c1) := k1 in
  let '(s2, g2, c2) := k2 in
  s1 < s2 ∨ (s1 = s2 ∧ (g1 < g2 ∨ (g1 = g2 ∧ String.le c1 c2))).

(** The ranks of the sort policy, as the contract words them and without
    reference to [sort_key]: severity critical 0, high 1, medium 2,
    anything else 3; a block tied to a recognised gate 0, any other block
    1. *)
Definition RECOGNISED_GATES : list string := [ "G1"; "G2"; "G3"; "G4"; "G5" ].

Definition contract_severity_rank (sev : string) : Z :=
  if decide (sev = "critical") then 0
  else if decide (sev = "high") then 1
  else if decide (sev = "medium") then 2
  else 3.

Definition contract_gate_rank (g : option string) : Z :=
  match g with
  | Some gid => if decide (gid ∈ RECOGNISED_GATES) then 0 else 1
  | None => 1
  end.

Definition contract_key (b : FixBlock) : Z * Z * string :=
  (contract_severity_rank (severity b), contract_gate_rank (gate b), control_id b).

(** The order the Fix Blocks are to come in. *)
Definition block_le (b1 b2 : FixBlock) : Prop :=
  key_le (contract_key b1) (contract_key b2).

(** The Fix Blocks of an output, critical ones first. *)
Definition all_fixes (out : FixOutput) : list FixBlock :=
  critical_fixes out ++ recommended_fixes out.

(** Two failed-control lists with the same first occurrences. *)
Definition controls_with_repeats : list string :=
  [ "CTRL_WIRELESS_PSK_ONLY"; "CTRL_OPERATIONS_NO_LOGGING";
    "CTRL_WIRELESS_PSK_ONLY"; "CTRL_PERIMETER_PORT_FORWARDING" ].

Definition controls_with_more_repeats : list string :=
  [ "CTRL_WIRELESS_PSK_ONLY"; "CTRL_OPERATIONS_NO_LOGGING";
    "CTRL_OPERATIONS_NO_LOGGING"; "CTRL_PERIMETER_PORT_FORWARDING";
    "CTRL_WIRELESS_PSK_ONLY" ].

End Contract.

(** ** The rules of the engine, by name *)

Module RuleTable.
Import Scoring PolicyIntent Contract.

(** The condition of every rule of [score_assessment], by name.  The VLAN
    and Wi-Fi rules are [if]/[elif] pairs: the second condition is only
    looked at when the first is false. *)
Definition rule_wan_admin (answers : gmap string string) : bool :=
  eqs (c1 answers) "YES" || _is_not_sure (c1 answers).
Definition rule_port_forwarding (answers : gmap string string) : bool :=
  eqs (c2 answers) "PORT_FORWARDING".
Definition rule_admin_mfa (answers : gmap string string) : bool :=
  eqs (c3 answers) "NO" || _is_not_sure (c3 answers).
Definition rule_flat (answers : gmap string string) : bool :=
  eqs (d2 answers) "FLAT" || _is_not_sure (d2 answers).
Definition rule_partial (answers : gmap string string) : bool :=
  negb (rule_flat answers) && eqs (d2 answers) "PARTIAL".
Definition rule_guest (answers : gmap string string) : bool :=
  eqs (d1 answers) "YES" || _is_not_sure (d1 answers).
Definition rule_iot (answers : gmap string string) : bool :=
  eqs (d3 answers) "YES".
Definition rule_wifi_open (answers : gmap string string) : bool :=
  eqs (e1 answers) "OPEN_OR_UNKNOWN" || _is_not_sure (e1 answers).
Definition rule_wifi_psk (answers : gmap string string) : bool :=
  negb (rule_wifi_open answers) && eqs (e1 answers) "PSK".
Definition rule_client_isolation (answers : gmap string string) : bool :=
  eqs (e2 answers) "NO" || _is_not_sure (e2 answers).
Definition rule_unused_ports (answers : gmap string string) : bool :=
  eqs (f1 answers) "NO" || _is_not_sure (f1 answers).
Definition rule_backups (answers : gmap string string) : bool :=
  eqs (f2 answers) "NONE" || _is_not_sure (f2 answers).
Definition rule_logging (answers : gmap string string) : bool :=
  eqs (f3 answers) "NO" || _is_not_sure (f3 answers).
Definition rule_firmware (answers : gmap string string) : bool :=
  eqs (f4 answers) "RARE" || _is_not_sure (f4 answers).

(** What a rule contributes when its condition holds. *)
Definition pts (b : bool) (points : Z) : Z := if b then points else 0.
Definition emit (b : bool) (cid : string) : list string := if b then [cid] else [].

(** A gate of the result, by identifier, has failed. *)
Definition gate_failed (sb : ScoreBreakdown) (gid : string) : Prop :=
  ∃ g, g ∈ gates sb ∧ gate_id g = gid ∧ failed g = true.

(** The fourteen control identifiers, in the order in which the rules of
    [score_assessment] append them. *)
Definition RULE_ORDER : list string :=
  [ "CTRL_PERIMETER_WAN_ADMIN_EXPOSURE"; "CTRL_PERIMETER_PORT_FORWARDING";
    "CTRL_IDENTITY_ADMIN_MFA"; "CTRL_SEGMENTATION_FLAT_NETWORK";
    "CTRL_SEGMENTATION_PARTIAL"; "CTRL_SEGMENTATION_GUEST_NOT_ISOLATED";
    "CTRL_SEGMENTATION_IOT_WITH_CRITICAL"; "CTRL_WIRELESS_OPEN_OR_UNKNOWN";
    "CTRL_WIRELESS_PSK_ONLY"; "CTRL_WIRELESS_GUEST_CLIENT_ISOLATION";
    "CTRL_HYGIENE_UNUSED_PORTS"; "CTRL_OPERATIONS_NO_BACKUPS";
    "CTRL_OPERATIONS_NO_LOGGING"; "CTRL_OPERATIONS_FIRMWARE_RARE" ].

(** The text that opens the advisory note about unanswered questions. *)
Definition missing_note_prefix : string :=
  "Some scored questions were not answered; missing/unknown responses are treated as failing controls: ".

(** The cap a gate contributes: its own when it failed, 100 otherwise. *)
Definition capc (b : bool) (c : Z) : Z := if b then c else 100.

(** The summary [generate_fix_blocks] writes for a gate. *)
Definition summary_of (g : GateResult) : GateSummary :=
  let meta :=
    default {| meta_title := gate_id g; meta_summary := "" |}
            (GATE_EXEC_SUMMARIES !! gate_id g) in
  {| gs_gate_id := gate_id g;
     gs_title := meta_title meta;
     gs_summary := meta_summary meta;
     gs_cap := cap g;
     gs_reasons := reasons g |}.

(** The grades from worst to best. *)
Definition grade_rank (grade : string) : Z :=
  if decide (grade = "A") then 4
  else if decide (grade = "B") then 3
  else if decide (grade = "C") then 2
  else if decide (grade = "D") then 1
  else 0.

(** The identifiers of [controls_with_repeats], once each and in another
    order. *)
Definition controls_reordered : list string :=
  [ "CTRL_PERIMETER_PORT_FORWARDING"; "CTRL_OPERATIONS_NO_LOGGING";
    "CTRL_WIRELESS_PSK_ONLY" ].

End RuleTable.

(** ** app.py: the question catalog and the session state *)

Module App.
Import Scoring PolicyIntent.

(** The question catalog of [questions.json], as the wizard reads it:
    sections of questions, a question with an optional identifier, a prompt
    and its options as (key, label) pairs.  A field the code reads with
    [.get] and that may be absent is an [option]. *)
Record Question := mkQuestion {
  q_id : option string;
  q_prompt : string;
  q_options : list (string * string)
}.

Record Section_ := mkSection {
  sec_title : string;
  sec_scored : bool;
  sec_questions : list Question
}.

Record Catalog := mkCatalog {
  sections : list Section_
}.

(** [qid and qid not in answers]: a question without identifier, or with
    an empty one, is never missing. *)
Definition question_unanswered (answers : gmap string string) (q : Question) : bool :=
  match q_id q with
  | Some qid => negb (bool_decide (qid = "")) && bool_decide (answers !! qid = None)
  | None => false
  end.

(** The two nested loops return [False] at the first unanswered question
    and [True] when they run to the end. *)
Definition all_questions_answered (data : Catalog) (answers : gmap string string) : bool :=
  forallb (fun section =>
             forallb (fun q => negb (question_unanswered answers q))
                     (sec_questions section))
          (sections data).

(** The identifiers the catalog asks for, in the order of the loops. *)
Definition catalog_ids (data : Catalog) : list string :=
  omap q_id (mjoin (sec_questions <$> sections data)).

(** A one-section catalog asking the given identifiers. *)
Definition catalog_of_ids (ids : list string) : Catalog :=
  mkCatalog [ mkSection "Assessment" true
                ((fun qid => mkQuestion (Some qid) qid []) <$> ids) ].

(** A value of the session state. *)
Inductive SessionValue :=
  | VInt (n : Z)
  | VBool (b : bool)
  | VNone
  | VAnswers (answers : gmap string string)
  | VResult (result : ScoreBreakdown)
  | VFixes (fixes : FixOutput)
  | VText (text : string).

(** [if key not in st.session_state: st.session_state[key] = value] *)
Definition set_default (key : string) (value : SessionValue)
    (state : gmap string SessionValue) : gmap string SessionValue :=
  match state !! key with
  | Some _ => state
  | None => <[key := value]> state
  end.

Definition init_state (state : gmap string SessionValue) : gmap string SessionValue :=
  let state := set_default "section_index" (VInt 0) state in
  let state := set_default "answers" (VAnswers ∅) state in
  let state := set_default "submitted" (VBool false) state in
  let state := set_default "result" VNone state in
  let state := set_default "fixes" VNone state in
  let state := set_default "report_html" VNone state in
  let state := set_default "demo_mode" (VBool false) state in
  set_default "show_demo_notice" (VBool false) state.

Definition reset_assessment (state : gmap string SessionValue)
  : gmap string SessionValue :=
  let state := <["section_index" := VInt 0]> state in
  let state := <["answers" := VAnswers ∅]> state in
  let state := <["submitted" := VBool false]> state in
  let state := <["result" := VNone]> state in
  let state := <["fixes" := VNone]> state in
  let state := <["report_html" := VNone]> state in
  let state := <["demo_mode" := VBool false]> state in
  <["show_demo_notice" := VBool false]> state.

(** The keys of the session state the application owns. *)
Definition SESSION_KEYS : list string :=
  [ "section_index"; "answers"; "submitted"; "result"; "fixes";
    "report_html"; "demo_mode"; "show_demo_notice" ].

(** What the "Generate Report" button does with the answers of the
    session. *)
Definition generate_report (answers : gmap string string)
  : option (ScoreBreakdown * FixOutput) :=
  result ← score_assessment answers;
  Some (result, generate_fix_blocks (failed_controls result) (gates result)).

End App.

(** ** app.py: the demo answers *)

Module AppDemo.
Import Scoring PolicyIntent App.

(** [set_demo_answers].  The score of a label is a heuristic over its
    stripped, lower-cased text; the selection below depends on it only
    through the comparison [score > best_score], so the score of a label,
    the comparison and the initial [best_score] are parameters. *)
Section Demo.
Context {Score : Type}.
Variable label_score : string → Score.
Variable score_gt : Score → Score → bool.
Variable lowest : Score.

(** The body of the loop over [enumerate(option_labels)]. *)
Definition best_step (st : nat * Score) (il : nat * string) : nat * Score :=
  let '(best_idx, best_score) := st in
  let '(i, label) := il in
  let score := label_score label in
  if score_gt score best_score then (i, score) else (best_idx, best_score).

Definition enumerate (labels : list string) : list (nat * string) :=
  zip (seq 0 (length labels)) labels.

Definition best_index (option_labels : list string) : nat :=
  (foldl best_step (0%nat, lowest) (enumerate option_labels)).1.

(** [option_keys[best_idx] if best_idx < len(option_keys) else
    option_keys[0]]; [None] is an [IndexError]. *)
Definition selected_key (option_keys : list string) (best_idx : nat) : option string :=
  if decide (best_idx < length option_keys)%nat then option_keys !! best_idx
  else option_keys !! 0%nat.

(** One question: skipped when it has no identifier or no options. *)
Definition demo_question (answers : gmap string string) (q : Question)
  : option (gmap string string) :=
  match q_id q with
  | Some qid =>
      if decide (qid = "") then Some answers
      else match q_options q with
           | [] => Some answers
           | options =>
               key ← selected_key (fst <$> options) (best_index (snd <$> options));
               Some (<[qid := key]> answers)
           end
  | None => Some answers
  end.

Definition demo_section (answers : gmap string string) (section : Section_)
  : option (gmap string string) :=
  foldl (fun acc q => a ← acc; demo_question a q) (Some answers)
        (sec_questions section).

Definition demo_answers (data : Catalog) : option (gmap string string) :=
  foldl (fun acc section => a ← acc; demo_section a section) (Some ∅)
        (sections data).

Definition set_demo_answers (data : Catalog) (state : gmap string SessionValue)
  : option (gmap string SessionValue) :=
  answers ← demo_answers data;
  let state := <["answers" := VAnswers answers]> state in
  let state := <["demo_mode" := VBool true]> state in
  let state := <["section_index" := VInt 0]> state in
  Some (<["show_demo_notice" := VBool true]> state).

End Demo.

(** What a question contributes: the key of one of its options. *)
Definition offers (q : Question) (qid key : string) : Prop :=
  q_id q = Some qid ∧ qid ≠ "" ∧ key ∈ (q_options q).*1.

End AppDemo.

(** ** report_builder.py: the HTML fragments *)

Module ReportBuilder.
Import PolicyIntent.

(** The double quote and the line feed, which the templates contain. *)
Definition dq : string := String "034"%char EmptyString.
Definition nl : string := String "010"%char EmptyString.

(** [str.replace(old, new)] for a one-character [old]: every occurrence
    is replaced, left to right. *)
Fixpoint replace (old : ascii) (new : string) (s : string) : string :=
  match s with
  | EmptyString => EmptyString
  | String c rest =>
      if Ascii.eqb c old then new +:+ replace old new rest
      else String c (replace old new rest)
  end.

(** [html.escape(s)] with its default [quote=True]: five replacements in
    this order, the ampersand first. *)
Definition escape (s : string) : string :=
  let s := replace "&"%char "&amp;" s in
  let s := replace "<"%char "&lt;" s in
  let s := replace ">"%char "&gt;" s in
  let s := replace "034"%char "&quot;" s in
  replace "'"%char "&#x27;" s.

(** [escape(text or "")]: [None] and the empty string are both falsy. *)
Definition _h (text : option string) : string :=
  escape (default "" text).

Definition _pill (label : string) : string :=
  "<span style='display:inline-block;padding:2px 8px;border:1px solid #ccc;"
  +:+ "border-radius:999px;font-size:12px;margin-right:6px'>"
  +:+ _h (Some label) +:+ "</span>".

(** [str.join] with the empty separator. *)
Definition join_empty (parts : list string) : string :=
  foldr String.append "" parts.

Definition _render_alerts (notes : list string) : string :=
  match notes with
  | [] => ""
  | _ =>
    let items := join_empty ((fun n => "<li>" +:+ _h (Some n) +:+ "</li>") <$> notes) in
    nl +:+
    "    <div class=" +:+ dq +:+ "card" +:+ dq +:+ " style=" +:+ dq +:+ "border-left: 6px solid #111;" +:+ dq +:+ ">" +:+ nl +:+
    "      <h3 style=" +:+ dq +:+ "margin-top:0;" +:+ dq +:+ ">High Priority Alerts</h3>" +:+ nl +:+
    "      <div class=" +:+ dq +:+ "muted" +:+ dq +:+ ">These alerts highlight contradictions, unknowns, or architecture conditions that materially change risk.</div>" +:+ nl +:+
    "      <ul style=" +:+ dq +:+ "margin-top:10px;" +:+ dq +:+ ">" +:+ nl +:+
    "        " +:+ items +:+ nl +:+
    "      </ul>" +:+ nl +:+
    "    </div>" +:+ nl +:+
    "    "
  end.

(** [if gate]: a gate that is [None] or empty gives no line. *)
Definition gate_txt (gate : option string) : string :=
  match gate with
  | Some g => if decide (g = "") then ""
              else "<div class='muted'>Gate: " +:+ _h gate +:+ "</div>"
  | None => ""
  end.

(** The argument is the [asdict] image of a block, which carries every
    field of it. *)
Definition _render_fix_block (b : FixBlock) : string :=
  let refs := references b in
  let ref_html := join_empty (_pill <$> refs) in
  nl +:+
  "      <div class=" +:+ dq +:+ "card" +:+ dq +:+ ">" +:+ nl +:+
  "        <b>" +:+ _h (Some (title b)) +:+ "</b>" +:+ nl +:+
  "        " +:+ gate_txt (gate b) +:+ nl +:+
  "        <div style=" +:+ dq +:+ "margin-top:8px;" +:+ dq +:+ "><b>Finding:</b> " +:+ _h (Some (finding b)) +:+ "</div>" +:+ nl +:+
  "        <div style=" +:+ dq +:+ "margin-top:6px;" +:+ dq +:+ "><b>Policy intent:</b> " +:+ _h (Some (policy_intent b)) +:+ "</div>" +:+ nl +:+
  "        <div style=" +:+ dq +:+ "margin-top:6px;" +:+ dq +:+ "><b>Technical rationale:</b> " +:+ _h (Some (technical_rationale b)) +:+ "</div>" +:+ nl +:+
  "        <div class=" +:+ dq +:+ "ref" +:+ dq +:+ " style=" +:+ dq +:+ "margin-top:10px;" +:+ dq +:+ ">" +:+ ref_html +:+ "</div>" +:+ nl +:+
  "      </div>" +:+ nl +:+
  "    ".

(** How often a character occurs in a string. *)
Fixpoint count_char (c : ascii) (s : string) : nat :=
  match s with
  | EmptyString => 0%nat
  | String a rest => ((if Ascii.eqb a c then 1 else 0) + count_char c rest)%nat
  end.

(** The characters that open or close markup or an attribute value. *)
Definition MARKUP_CHARS : list ascii :=
  [ "<"%char; ">"%char; "034"%char; "'"%char ].

(** The escaped form of one character. *)
Definition escape_char (a : ascii) : string :=
  if Ascii.eqb a "&" then "&amp;"
  else if Ascii.eqb a "<" then "&lt;"
  else if Ascii.eqb a ">" then "&gt;"
  else if Ascii.eqb a "034" then "&quot;"
  else if Ascii.eqb a "'" then "&#x27;"
  else String a "".

End ReportBuilder.

(** ** Properties of the scoring engine *)

Module ScoringFacts.
Import Scoring Contract.

Implicit Types (answers : gmap string string) (fc : list string).

Ltac split_rules :=
  repeat match goal with
         | |- context [if ?c then _ else _] => destruct c
         end.

(** *** The multiplier table *)

Lemma multiplier_literals :
  f_1_0 = S754_finite false 4503599627370496 (-52)
  ∧ f_1_1 = S754_finite false 4953959590107546 (-52)
  ∧ f_1_25 = S754_finite false 5629499534213120 (-52)
  ∧ f_1_5 = S754_finite false 6755399441055744 (-52).
Proof. by split_and!. Qed.

Lemma DEVICE_MULTIPLIER_Some k m :
  DEVICE_MULTIPLIER !! k = Some m → m ∈ [f_1_0; f_1_1; f_1_25; f_1_5].
Proof.
  unfold DEVICE_MULTIPLIER.
  rewrite !lookup_insert_Some, lookup_empty, !elem_of_cons.
  intuition (subst; auto 10; try discriminate).
Qed.

Lemma multiplier_cases answers :
  multiplier answers ∈ [f_1_0; f_1_1; f_1_25; f_1_5].
Proof.
  unfold multiplier.
  destruct (DEVICE_MULTIPLIER !! device_bucket answers) as [m|] eqn:E; cbn.
  - by eapply DEVICE_MULTIPLIER_Some.
  - rewrite !elem_of_cons; auto.
Qed.

(** *** The passes only append to the list they are given *)

Lemma perimeter_pass_app answers fc :
  perimeter_pass answers fc =
    ((perimeter_pass answers []).1, fc ++ (perimeter_pass answers []).2).
Proof.
  unfold perimeter_pass. split_rules; simpl; by rewrite <- ?app_assoc, ?app_nil_r.
Qed.

Lemma segmentation_pass_app answers fc :
  segmentation_pass answers fc =
    ((segmentation_pass answers []).1, fc ++ (segmentation_pass answers []).2).
Proof.
  unfold segmentation_pass. split_rules; simpl; by rewrite <- ?app_assoc, ?app_nil_r.
Qed.

Lemma wireless_pass_app answers fc :
  wireless_pass answers fc =
    ((wireless_pass answers []).1, fc ++ (wireless_pass answers []).2).
Proof.
  unfold wireless_pass. split_rules; simpl; by rewrite <- ?app_assoc, ?app_nil_r.
Qed.

Lemma hygiene_pass_app answers fc :
  hygiene_pass answers fc =
    ((hygiene_pass answers []).1, fc ++ (hygiene_pass answers []).2).
Proof.
  unfold hygiene_pass. split_rules; simpl; by rewrite <- ?app_assoc, ?app_nil_r.
Qed.

(** *** The engine never raises *)

Lemma eval_gates_eq answers :
  eval_gates answers = Some
    [ mkGateResult "G1" (0 <? Z.of_nat (length (g1_reasons answers))) 40 (g1_reasons answers);
      mkGateResult "G2" (0 <? Z.of_nat (length (g2_reasons answers))) 50 (g2_reasons answers);
      mkGateResult "G3" (0 <? Z.of_nat (length (g3_reasons answers))) 55 (g3_reasons answers);
      mkGateResult "G4" (0 <? Z.of_nat (length (g4_reasons answers))) 65 (g4_reasons answers);
      mkGateResult "G5" (0 <? Z.of_nat (length (g5_reasons answers))) 70 (g5_reasons answers) ].
Proof. reflexivity. Qed.

Lemma score_assessment_eq answers :
  score_assessment answers =
    z ← F64.py_round (F64.mul (F64.of_int (segmentation_ded answers)) (multiplier answers));
    Some (breakdown_of answers z).
Proof.
  unfold score_assessment, breakdown_of, raw_failed_controls,
    perimeter_ded, segmentation_ded, wireless_ded, hygiene_ded.
  rewrite eval_gates_eq. cbn [mbind option_bind default].
  destruct (perimeter_pass answers []) as [p fc1].
  rewrite (segmentation_pass_app answers fc1).
  destruct (segmentation_pass answers []) as [s fc2].
  rewrite (wireless_pass_app answers).
  destruct (wireless_pass answers []) as [w fc3].
  rewrite (hygiene_pass_app answers).
  destruct (hygiene_pass answers []) as [h fc4].
  cbn [fst snd]. by rewrite <- !app_assoc.
Qed.

Lemma segmentation_ded_cases answers :
  segmentation_ded answers ∈ [0; 10; 20; 25; 35].
Proof.
  unfold segmentation_ded, segmentation_pass.
  split_rules; cbn; rewrite !elem_of_cons; auto 10.
Qed.

(** Every product the engine can form rounds to an integer. *)
Lemma py_round_scaled (n : Z) (m : spec_float) :
  n ∈ [0; 10; 20; 25; 35] → m ∈ [f_1_0; f_1_1; f_1_25; f_1_5] →
  ∃ z, F64.py_round (F64.mul (F64.of_int n) m) = Some z ∧ 0 <= z <= 52.
Proof.
  rewrite !elem_of_cons, !elem_of_nil.
  intros Hn Hm.
  destruct Hn as [->|[->|[->|[->|[->|[]]]]]];
    destruct Hm as [->|[->|[->|[->|[]]]]];
    vm_compute; eexists; (split; [reflexivity | split; discriminate]).
Qed.

Lemma score_assessment_total answers :
  ∃ z, F64.py_round (F64.mul (F64.of_int (segmentation_ded answers)) (multiplier answers)) = Some z
       ∧ 0 <= z <= 52
       ∧ score_assessment answers = Some (breakdown_of answers z).
Proof.
  destruct (py_round_scaled _ _ (segmentation_ded_cases answers) (multiplier_cases answers))
    as (z & Hz & Hb).
  exists z. split; [done|]. split; [done|].
  by rewrite score_assessment_eq, Hz.
Qed.

(** *** Gates, cap and score *)

Lemma clamp_score_bounds t : 0 <= clamp_score t <= 100.
Proof.
  unfold clamp_score.
  destruct (100 - t <? 0) eqn:E1.
  - cbn. lia.
  - destruct (100 <? 100 - t) eqn:E2; lia.
Qed.

Lemma gates_eq answers z :
  gates (breakdown_of answers z) =
    [ mkGateResult "G1" (0 <? Z.of_nat (length (g1_reasons answers))) 40 (g1_reasons answers);
      mkGateResult "G2" (0 <? Z.of_nat (length (g2_reasons answers))) 50 (g2_reasons answers);
      mkGateResult "G3" (0 <? Z.of_nat (length (g3_reasons answers))) 55 (g3_reasons answers);
      mkGateResult "G4" (0 <? Z.of_nat (length (g4_reasons answers))) 65 (g4_reasons answers);
      mkGateResult "G5" (0 <? Z.of_nat (length (g5_reasons answers))) 70 (g5_reasons answers) ].
Proof. reflexivity. Qed.

Lemma cap_applied_eq answers z :
  cap_applied (breakdown_of answers z) = determine_cap (gates (breakdown_of answers z)).
Proof. reflexivity. Qed.

Lemma final_score_eq answers z :
  final_score (breakdown_of answers z)
  = Z.min (raw_score (breakdown_of answers z)) (cap_applied (breakdown_of answers z)).
Proof. reflexivity. Qed.

Lemma raw_score_bounds answers z :
  0 <= raw_score (breakdown_of answers z) <= 100.
Proof. apply clamp_score_bounds. Qed.

(** The loop over the five gates, for every combination of flags. *)
Lemma determine_cap_five b1 b2 b3 b4 b5 r1 r2 r3 r4 r5 :
  let gs := [ mkGateResult "G1" b1 40 r1; mkGateResult "G2" b2 50 r2;
              mkGateResult "G3" b3 55 r3; mkGateResult "G4" b4 65 r4;
              mkGateResult "G5" b5 70 r5 ] in
  determine_cap gs = min_failed_cap gs ∧ 40 <= determine_cap gs <= 100.
Proof.
  destruct b1, b2, b3, b4, b5; vm_compute; (split; [reflexivity | split; discriminate]).
Qed.

Lemma cap_applied_spec answers z :
  cap_applied (breakdown_of answers z) = min_failed_cap (gates (breakdown_of answers z))
  ∧ 40 <= cap_applied (breakdown_of answers z) <= 100.
Proof.
  rewrite cap_applied_eq, gates_eq. apply determine_cap_five.
Qed.

(** C4 (cap dominance): for every answer set the engine returns a Score
    Breakdown with [final_score <= cap_applied <= 100], and [cap_applied] is
    the minimum cap among the gates whose failed flag is true, or 100 when
    no gate failed. *)
Theorem cap_dominance answers :
  ∃ sb, score_assessment answers = Some sb
        ∧ final_score sb <= cap_applied sb
        ∧ cap_applied sb <= 100
        ∧ cap_applied sb = min_failed_cap (gates sb).
Proof.
  destruct (score_assessment_total answers) as (z & _ & _ & ->).
  eexists; split; [reflexivity|].
  destruct (cap_applied_spec answers z) as [Hmin Hb].
  rewrite final_score_eq. split_and!; [lia | lia | exact Hmin].
Qed.

(** C5 (score bounds): for every answer set, also one that triggers every
    deduction rule at once, [0 <= raw_score <= 100] and
    [0 <= final_score <= 100]. *)
Theorem score_bounds answers :
  ∃ sb, score_assessment answers = Some sb
        ∧ 0 <= raw_score sb <= 100
        ∧ 0 <= final_score sb <= 100.
Proof.
  destruct (score_assessment_total answers) as (z & _ & _ & ->).
  eexists; split; [reflexivity|].
  destruct (cap_applied_spec answers z) as [_ Hb].
  pose proof (raw_score_bounds answers z) as Hr.
  rewrite final_score_eq. lia.
Qed.

Lemma mk_gate_flag gid c (rs : list string) :
  let g := mkGateResult gid (0 <? Z.of_nat (length rs)) c rs in
  (failed g = true ↔ reasons g ≠ []) ∧ (failed g = false ↔ reasons g = []).
Proof.
  intros g. subst g. cbn [failed reasons].
  destruct rs as [|r rs].
  - change (0 <? Z.of_nat (length (@nil string))) with false.
    split; split; congruence.
  - assert (E : (0 <? Z.of_nat (length (r :: rs))) = true)
      by (apply Z.ltb_lt; cbn [length]; lia).
    rewrite E. split; split; congruence.
Qed.

(** C9 (gate flag and reasons): for every answer set the engine returns the
    five gates G1..G5, and each has its failed flag true exactly when its
    list of reasons is non-empty: a failed gate carries a reason, a passing
    gate carries none. *)
Theorem gate_failed_iff_reasons answers :
  ∃ sb, score_assessment answers = Some sb
        ∧ gate_id <$> gates sb = ["G1"; "G2"; "G3"; "G4"; "G5"]
        ∧ Forall (fun g => (failed g = true ↔ reasons g ≠ [])
                           ∧ (failed g = false ↔ reasons g = [])) (gates sb).
Proof.
  destruct (score_assessment_total answers) as (z & _ & _ & ->).
  eexists; split; [reflexivity|].
  rewrite gates_eq. split; [reflexivity|].
  repeat (apply Forall_cons; split; [apply mk_gate_flag|]).
  apply Forall_nil_2.
Qed.

(** *** The all-failing scenario *)

Lemma deductions_lookup answers z :
  let d := deductions (breakdown_of answers z) in
  d !! "perimeter" = Some (perimeter_ded answers)
  ∧ d !! "segmentation" = Some (segmentation_ded answers)
  ∧ d !! "segmentation_scaled" = Some z
  ∧ d !! "wireless" = Some (wireless_ded answers)
  ∧ d !! "hygiene" = Some (hygiene_ded answers)
  ∧ d !! "multiplied_total" = Some (z + wireless_ded answers + hygiene_ded answers)
  ∧ d !! "total" =
      Some (perimeter_ded answers + (z + wireless_ded answers + hygiene_ded answers)).
Proof. cbv zeta. split_and!; reflexivity. Qed.

(** C2, as the engine computes it (end-to-end scenario A): on the
    all-failing answer set the engine returns perimeter 60, segmentation 35,
    multiplier 1.25, segmentation_scaled 44, wireless 23, hygiene 44,
    multiplied_total 111, total 171, raw_score 0, cap_applied 40,
    final_score 0, grade F, five failed gates, and exactly 12 distinct
    failed-control identifiers, the guest-isolation one among them. *)
Theorem all_failing_baseline :
  ∃ sb, score_assessment answers_all_failing = Some sb
    ∧ deductions sb !! "perimeter" = Some 60
    ∧ deductions sb !! "segmentation" = Some 35
    ∧ device_multiplier sb = F64.literal 125 100
    ∧ deductions sb !! "segmentation_scaled" = Some 44
    ∧ deductions sb !! "wireless" = Some 23
    ∧ deductions sb !! "hygiene" = Some 44
    ∧ deductions sb !! "multiplied_total" = Some 111
    ∧ deductions sb !! "total" = Some 171
    ∧ raw_score sb = 0 ∧ cap_applied sb = 40 ∧ final_score sb = 0
    ∧ grade sb = "F"
    ∧ length (gates sb) = 5%nat
    ∧ Forall (fun g => failed g = true) (gates sb)
    ∧ NoDup (failed_controls sb)
    ∧ length (failed_controls sb) = 12%nat
    ∧ "CTRL_SEGMENTATION_GUEST_NOT_ISOLATED" ∈ failed_controls sb.
Proof.
  destruct (score_assessment_total answers_all_failing) as (z & Hz & _ & ->).
  vm_compute in Hz. injection Hz as <-.
  eexists; split; [reflexivity|].
  split_and!.
  1-13, 16: vm_compute; reflexivity.
  - vm_compute. repeat constructor.
  - apply (bool_decide_unpack _). vm_compute. exact I.
  - apply (bool_decide_unpack _). vm_compute. exact I.
Qed.

(** The engine does not report 13 failed controls on that answer set. *)
Lemma all_failing_not_thirteen :
  ¬ ∃ sb, score_assessment answers_all_failing = Some sb
          ∧ length (failed_controls sb) = 13%nat.
Proof.
  intros (sb & Hsb & Hlen).
  destruct (score_assessment_total answers_all_failing) as (z & _ & _ & E).
  rewrite E in Hsb. injection Hsb as <-. clear E.
  vm_compute in Hlen. discriminate Hlen.
Qed.

(** *** The device bucket *)

Lemma missing_note_not_bucket answers :
  bucket_note_text ∉ missing_note answers.
Proof.
  unfold missing_note.
  destruct (_missing_required_scored_answers answers); [apply not_elem_of_nil|].
  rewrite list_elem_of_singleton. discriminate.
Qed.

Lemma multiplier_absent answers :
  answers !! "A1_DEVICE_COUNT" = None →
  multiplier answers = f_1_1 ∧ bucket_note answers = [].
Proof.
  intros H. unfold multiplier, bucket_note, device_bucket. rewrite H. done.
Qed.

Lemma multiplier_unrecognized answers v :
  answers !! "A1_DEVICE_COUNT" = Some v → DEVICE_MULTIPLIER !! v = None →
  multiplier answers = f_1_1 ∧ bucket_note answers = [bucket_note_text].
Proof.
  intros H Hv. unfold multiplier, bucket_note, device_bucket. rewrite H. cbn.
  rewrite Hv. split; [done|].
  destruct (decide (is_Some None)) as [[? ?]|]; [discriminate|done].
Qed.

(** C3, as the engine computes it: when the device-count answer is absent
    or is not a bucket of the table, the engine returns (it does not raise)
    with multiplier 1.1; the advisory note about the default multiplier is
    appended, as the last note, exactly when the answer is present: an
    absent answer is read as the bucket [R_50_200] and leaves no note. *)
Theorem unknown_bucket_default answers :
  (answers !! "A1_DEVICE_COUNT" = None
   ∨ ∃ v, answers !! "A1_DEVICE_COUNT" = Some v ∧ DEVICE_MULTIPLIER !! v = None) →
  ∃ sb, score_assessment answers = Some sb
        ∧ device_multiplier sb = F64.literal 11 10
        ∧ (bucket_note_text ∈ notes sb ↔ answers !! "A1_DEVICE_COUNT" ≠ None)
        ∧ (answers !! "A1_DEVICE_COUNT" ≠ None →
           last (notes sb) = Some bucket_note_text).
Proof.
  intros Hbucket.
  destruct (score_assessment_total answers) as (z & _ & _ & ->).
  eexists; split; [reflexivity|].
  cbn [device_multiplier notes breakdown_of].
  pose proof (missing_note_not_bucket answers) as Hm.
  destruct Hbucket as [Habs | (v & Hv & Hnone)].
  - destruct (multiplier_absent answers Habs) as [-> ->].
    split; [reflexivity|]. rewrite app_nil_r. split; [|congruence].
    split; [intros Hin; by destruct Hm | congruence].
  - destruct (multiplier_unrecognized answers v Hv Hnone) as [-> ->].
    split; [reflexivity|]. split.
    + split; [congruence|]. intros _. apply elem_of_app. right.
      apply list_elem_of_singleton. reflexivity.
    + intros _. apply last_snoc.
Qed.

Lemma unknown_bucket_default_witness :
  ∃ sb, score_assessment (set_answer answers_all_failing "A1_DEVICE_COUNT" (Some "R_1000_PLUS")) = Some sb
        ∧ device_multiplier sb = F64.literal 11 10
        ∧ (bucket_note_text ∈ notes sb
           ↔ set_answer answers_all_failing "A1_DEVICE_COUNT" (Some "R_1000_PLUS")
               !! "A1_DEVICE_COUNT" ≠ None)
        ∧ (set_answer answers_all_failing "A1_DEVICE_COUNT" (Some "R_1000_PLUS")
             !! "A1_DEVICE_COUNT" ≠ None →
           last (notes sb) = Some bucket_note_text).
Proof.
  apply (unknown_bucket_default
           (set_answer answers_all_failing "A1_DEVICE_COUNT" (Some "R_1000_PLUS"))).
  right. exists "R_1000_PLUS". split; reflexivity.
Defined.

(** With the device-count answer absent the engine appends no note. *)
Lemma missing_bucket_no_note :
  ¬ ∀ answers,
      (answers !! "A1_DEVICE_COUNT" = None
       ∨ ∃ v, answers !! "A1_DEVICE_COUNT" = Some v ∧ DEVICE_MULTIPLIER !! v = None) →
      ∃ sb, score_assessment answers = Some sb
            ∧ device_multiplier sb = F64.literal 11 10
            ∧ bucket_note_text ∈ notes sb.
Proof.
  intros H.
  destruct (H (set_answer answers_all_failing "A1_DEVICE_COUNT" None))
    as (sb & Hsb & _ & Hin).
  - left. reflexivity.
  - destruct (score_assessment_total
                (set_answer answers_all_failing "A1_DEVICE_COUNT" None))
      as (z & _ & _ & E).
    rewrite E in Hsb. injection Hsb as <-. clear E H.
    vm_compute in Hin. exact (proj1 (elem_of_nil _) Hin).
Qed.

(** *** The scope of the multiplier *)

Lemma set_answer_lookup answers qid v k :
  set_answer answers qid v !! k = if decide (qid = k) then v else answers !! k.
Proof.
  unfold set_answer. rewrite lookup_partial_alter. by case_decide.
Qed.

Lemma set_answer_lookup_ne answers qid v k :
  qid ≠ k → set_answer answers qid v !! k = answers !! k.
Proof. intros Hne. unfold set_answer. by rewrite lookup_partial_alter_ne. Qed.

(** No rule reads the device-count answer. *)
Lemma set_device_verdicts answers v :
  verdicts (set_answer answers "A1_DEVICE_COUNT" v) = verdicts answers.
Proof.
  unfold verdicts, verdicts_of.
  by rewrite !set_answer_lookup_ne by discriminate.
Qed.

Lemma verdicts_set answers qid v :
  verdicts (set_answer answers qid v)
  = verdicts_of (fun k => if decide (qid = k) then v else answers !! k).
Proof. unfold verdicts, verdicts_of. by rewrite !set_answer_lookup. Qed.

Lemma multiplier_set answers qid v :
  qid ≠ "A1_DEVICE_COUNT" →
  multiplier (set_answer answers qid v) = multiplier answers.
Proof.
  intros Hne. unfold multiplier, device_bucket.
  by rewrite set_answer_lookup_ne.
Qed.

Lemma passes_ext answers1 answers2 fc :
  verdicts answers1 = verdicts answers2 →
  perimeter_pass answers1 fc = perimeter_pass answers2 fc
  ∧ segmentation_pass answers1 fc = segmentation_pass answers2 fc
  ∧ wireless_pass answers1 fc = wireless_pass answers2 fc
  ∧ hygiene_pass answers1 fc = hygiene_pass answers2 fc
  ∧ eval_gates answers1 = eval_gates answers2.
Proof.
  unfold verdicts, verdicts_of.
  intros [= V1 V2 V3 V4 V5 V6 V7 V8 V9 V10 V11 V12 V13 V14].
  split_and!.
  - unfold perimeter_pass, c1, c2, c3. by rewrite V1, V2, V3.
  - unfold segmentation_pass, d1, d2, d3. by rewrite V4, V5, V6, V7.
  - unfold wireless_pass, e1, e2. by rewrite V8, V9, V10.
  - unfold hygiene_pass, f1, f2, f3, f4. by rewrite V11, V12, V13, V14.
  - unfold eval_gates, g1_reasons, g2_reasons, g3_reasons, g4_reasons, g5_reasons,
      c1, c2, d1, d2, f2, f3.
    by rewrite V1, V2, V6, V4, V12, V13.
Qed.

Lemma deductions_ext answers1 answers2 :
  verdicts answers1 = verdicts answers2 →
  perimeter_ded answers1 = perimeter_ded answers2
  ∧ segmentation_ded answers1 = segmentation_ded answers2
  ∧ wireless_ded answers1 = wireless_ded answers2
  ∧ hygiene_ded answers1 = hygiene_ded answers2
  ∧ raw_failed_controls answers1 = raw_failed_controls answers2.
Proof.
  intros HV. destruct (passes_ext answers1 answers2 [] HV) as (Hp & Hs & Hw & Hh & _).
  unfold perimeter_ded, segmentation_ded, wireless_ded, hygiene_ded,
    raw_failed_controls.
  by rewrite Hp, Hs, Hw, Hh.
Qed.

(** Rounding keeps the scaled deductions of two different multipliers
    apart, unless there is nothing to scale. *)
Lemma scaled_differs (n : Z) (m1 m2 : spec_float) (z1 z2 : Z) :
  n ∈ [0; 10; 20; 25; 35] →
  m1 ∈ [f_1_0; f_1_1; f_1_25; f_1_5] → m2 ∈ [f_1_0; f_1_1; f_1_25; f_1_5] →
  F64.py_round (F64.mul (F64.of_int n) m1) = Some z1 →
  F64.py_round (F64.mul (F64.of_int n) m2) = Some z2 →
  z1 ≠ z2 ↔ n ≠ 0 ∧ m1 ≠ m2.
Proof.
  rewrite !elem_of_cons, !elem_of_nil.
  intros Hn Hm1 Hm2 H1 H2.
  destruct Hn as [->|[->|[->|[->|[->|[]]]]]];
    destruct Hm1 as [->|[->|[->|[->|[]]]]];
    destruct Hm2 as [->|[->|[->|[->|[]]]]];
    vm_compute in H1; vm_compute in H2;
    injection H1 as <-; injection H2 as <-;
    (split; [intros Hz; first [by destruct Hz | split; discriminate]
            | intros [Hn Hm]; first [by destruct Hn | by destruct Hm | discriminate]]).
Qed.

(** C6, as the engine computes it (multiplier scope): setting the
    device-count answer to any two values (or leaving it out) leaves the
    perimeter deduction unchanged, as well as the raw segmentation, wireless
    and hygiene deductions; segmentation_scaled and multiplied_total differ
    between the two results exactly when the raw segmentation deduction is
    not zero and the two multipliers differ. *)
Theorem multiplier_scope answers (v1 v2 : option string) :
  ∃ sb1 sb2,
    score_assessment (set_answer answers "A1_DEVICE_COUNT" v1) = Some sb1
    ∧ score_assessment (set_answer answers "A1_DEVICE_COUNT" v2) = Some sb2
    ∧ is_Some (deductions sb1 !! "perimeter")
    ∧ deductions sb1 !! "perimeter" = deductions sb2 !! "perimeter"
    ∧ deductions sb1 !! "segmentation" = deductions sb2 !! "segmentation"
    ∧ deductions sb1 !! "wireless" = deductions sb2 !! "wireless"
    ∧ deductions sb1 !! "hygiene" = deductions sb2 !! "hygiene"
    ∧ (deductions sb1 !! "segmentation_scaled" ≠ deductions sb2 !! "segmentation_scaled"
       ↔ deductions sb1 !! "segmentation" ≠ Some 0
         ∧ device_multiplier sb1 ≠ device_multiplier sb2)
    ∧ (deductions sb1 !! "multiplied_total" ≠ deductions sb2 !! "multiplied_total"
       ↔ deductions sb1 !! "segmentation" ≠ Some 0
         ∧ device_multiplier sb1 ≠ device_multiplier sb2).
Proof.
  set (a1 := set_answer answers "A1_DEVICE_COUNT" v1).
  set (a2 := set_answer answers "A1_DEVICE_COUNT" v2).
  destruct (score_assessment_total a1) as (z1 & Hz1 & _ & ->).
  destruct (score_assessment_total a2) as (z2 & Hz2 & _ & ->).
  do 2 eexists. split; [reflexivity|]. split; [reflexivity|].
  destruct (deductions_lookup a1 z1) as (-> & -> & -> & -> & -> & -> & _).
  destruct (deductions_lookup a2 z2) as (-> & -> & -> & -> & -> & -> & _).
  assert (HV : verdicts a1 = verdicts a2)
    by (unfold a1, a2; by rewrite !set_device_verdicts).
  destruct (deductions_ext a1 a2 HV) as (Ep & Es & Ew & Eh & _).
  rewrite <- Es in Hz2.
  pose proof (scaled_differs _ _ _ _ _ (segmentation_ded_cases a1)
                (multiplier_cases a1) (multiplier_cases a2) Hz1 Hz2) as Hd.
  change (device_multiplier (breakdown_of a1 z1)) with (multiplier a1).
  change (device_multiplier (breakdown_of a2 z2)) with (multiplier a2).
  rewrite <- Ep, <- Es, <- Ew, <- Eh.
  assert (Hd2 : z1 ≠ z2 ↔ Some (segmentation_ded a1) ≠ Some 0
                            ∧ multiplier a1 ≠ multiplier a2).
  { rewrite Hd. split; intros [? ?]; split; congruence. }
  clear Hz1 Hz2 Hd HV.
  split_and!; try done.
  - split; [intros H; apply Hd2; congruence | intros H%Hd2; congruence].
  - split; [intros H; apply Hd2; intros ->; by apply H
           | intros H%Hd2 [= E]; apply H; lia].
Qed.

(** On a segmented network a change of bucket changes the multiplier and
    nothing else. *)
Lemma bucket_change_without_effect :
  ¬ ∀ answers (v1 v2 : string), v1 ≠ v2 →
      ∀ sb1 sb2,
        score_assessment (set_answer answers "A1_DEVICE_COUNT" (Some v1)) = Some sb1 →
        score_assessment (set_answer answers "A1_DEVICE_COUNT" (Some v2)) = Some sb2 →
        deductions sb1 !! "segmentation_scaled" ≠ deductions sb2 !! "segmentation_scaled"
        ∧ deductions sb1 !! "multiplied_total" ≠ deductions sb2 !! "multiplied_total"
        ∧ deductions sb1 !! "perimeter" = deductions sb2 !! "perimeter".
Proof.
  intros H.
  destruct (score_assessment_total
              (set_answer answers_segmented "A1_DEVICE_COUNT" (Some "LT_50")))
    as (z1 & Hz1 & _ & E1).
  destruct (score_assessment_total
              (set_answer answers_segmented "A1_DEVICE_COUNT" (Some "R_500_1000")))
    as (z2 & Hz2 & _ & E2).
  assert (Hne : "LT_50" ≠ "R_500_1000") by discriminate.
  destruct (H answers_segmented "LT_50" "R_500_1000" Hne _ _ E1 E2) as [Hscaled _].
  clear H E1 E2.
  vm_compute in Hz1. injection Hz1 as <-.
  vm_compute in Hz2. injection Hz2 as <-.
  apply Hscaled. vm_compute. reflexivity.
Qed.

(** *** Unknown answers *)

Lemma findings_ext answers1 answers2 :
  verdicts answers1 = verdicts answers2 →
  multiplier answers1 = multiplier answers2 →
  findings (score_assessment answers1) = findings (score_assessment answers2).
Proof.
  intros HV Hm.
  destruct (passes_ext answers1 answers2 [] HV) as (_ & _ & _ & _ & Hg).
  destruct (deductions_ext answers1 answers2 HV) as (Hp & Hs & Hw & Hh & Hc).
  rewrite !score_assessment_eq. rewrite Hs, Hm.
  destruct (F64.py_round _) as [z|]; [|reflexivity].
  cbn [mbind option_bind findings fmap option_fmap option_map].
  unfold breakdown_of. cbn [deductions gates failed_controls].
  by rewrite Hp, Hs, Hw, Hh, Hc, Hg.
Qed.

(** For ten of the twelve scored questions the worst-case option and the
    sentinel are indistinguishable. *)
Lemma conservative_unknown_equiv answers qid worst :
  (qid, worst) ∈ WORST_CASE →
  qid ≠ "C2_REMOTE_ACCESS_METHOD" → qid ≠ "D3_IOT_WITH_FINANCE" →
  findings (score_assessment (set_answer answers qid (Some worst)))
    = findings (score_assessment (set_answer answers qid (Some "NOT_SURE"))).
Proof.
  unfold WORST_CASE. rewrite !elem_of_cons, elem_of_nil.
  intros Hq Hc2 Hd3.
  repeat (destruct Hq as [[= -> ->] | Hq]); try done;
    (apply findings_ext;
     [ rewrite !verdicts_set; reflexivity
     | by rewrite !multiplier_set by discriminate ]).
Qed.

(** A missing answer and the sentinel are indistinguishable for every
    question. *)
Lemma missing_is_not_sure answers qid :
  findings (score_assessment (set_answer answers qid (Some "NOT_SURE")))
    = findings (score_assessment (set_answer answers qid None)).
Proof.
  apply findings_ext.
  - rewrite !verdicts_set. unfold verdicts_of.
    repeat (f_equal; [by case_decide|]).
    f_equal. by case_decide.
  - unfold multiplier, device_bucket. rewrite !set_answer_lookup.
    by case_decide.
Qed.

(** C1 at the IoT question: on the all-failing answer set, answering
    [D3_IOT_WITH_FINANCE] with its worst-case option [YES] costs 10
    segmentation points and fails the IoT control; the sentinel [NOT_SURE]
    and a missing answer cost nothing and fail no control. *)
Theorem not_sure_iot_not_worst_case :
  ∃ sbW sbN sbA,
    score_assessment (set_answer answers_all_failing "D3_IOT_WITH_FINANCE" (Some "YES")) = Some sbW
    ∧ score_assessment (set_answer answers_all_failing "D3_IOT_WITH_FINANCE" (Some "NOT_SURE")) = Some sbN
    ∧ score_assessment (set_answer answers_all_failing "D3_IOT_WITH_FINANCE" None) = Some sbA
    ∧ deductions sbW !! "segmentation" = Some 35
    ∧ deductions sbN !! "segmentation" = Some 25
    ∧ deductions sbA !! "segmentation" = Some 25
    ∧ deductions sbW !! "total" = Some 171
    ∧ deductions sbN !! "total" = Some 158
    ∧ deductions sbA !! "total" = Some 158
    ∧ "CTRL_SEGMENTATION_IOT_WITH_CRITICAL" ∈ failed_controls sbW
    ∧ ("CTRL_SEGMENTATION_IOT_WITH_CRITICAL" ∉ failed_controls sbN)
    ∧ ("CTRL_SEGMENTATION_IOT_WITH_CRITICAL" ∉ failed_controls sbA).
Proof.
  destruct (score_assessment_total
    (set_answer answers_all_failing "D3_IOT_WITH_FINANCE" (Some "YES")))
    as (zW & HW & _ & ->).
  destruct (score_assessment_total
    (set_answer answers_all_failing "D3_IOT_WITH_FINANCE" (Some "NOT_SURE")))
    as (zN & HN & _ & ->).
  destruct (score_assessment_total
    (set_answer answers_all_failing "D3_IOT_WITH_FINANCE" None))
    as (zA & HA & _ & ->).
  vm_compute in HW. injection HW as <-.
  vm_compute in HN. injection HN as <-.
  vm_compute in HA. injection HA as <-.
  do 3 eexists. do 3 (split; [reflexivity|]).
  split_and!.
  1-6: vm_compute; reflexivity.
  all: apply (bool_decide_unpack _); vm_compute; exact I.
Qed.

(** The remote-access rule behaves the same way. *)
Lemma not_sure_remote_access_not_worst_case :
  ∃ sbW sbN,
    score_assessment (set_answer answers_all_failing "C2_REMOTE_ACCESS_METHOD" (Some "PORT_FORWARDING")) = Some sbW
    ∧ score_assessment (set_answer answers_all_failing "C2_REMOTE_ACCESS_METHOD" (Some "NOT_SURE")) = Some sbN
    ∧ deductions sbW !! "perimeter" = Some 60
    ∧ deductions sbN !! "perimeter" = Some 35
    ∧ "CTRL_PERIMETER_PORT_FORWARDING" ∈ failed_controls sbW
    ∧ ("CTRL_PERIMETER_PORT_FORWARDING" ∉ failed_controls sbN).
Proof.
  destruct (score_assessment_total
    (set_answer answers_all_failing "C2_REMOTE_ACCESS_METHOD" (Some "PORT_FORWARDING")))
    as (zW & HW & _ & ->).
  destruct (score_assessment_total
    (set_answer answers_all_failing "C2_REMOTE_ACCESS_METHOD" (Some "NOT_SURE")))
    as (zN & HN & _ & ->).
  vm_compute in HW. injection HW as <-.
  vm_compute in HN. injection HN as <-.
  do 2 eexists. do 2 (split; [reflexivity|]).
  split_and!.
  1-2: vm_compute; reflexivity.
  all: apply (bool_decide_unpack _); vm_compute; exact I.
Qed.

End ScoringFacts.

(** ** Properties of the remediation resolver *)

Module ResolverFacts.
Import Scoring PolicyIntent Contract.

Section FirstOcc.
Implicit Types (l : list string) (seen : gset string).

Lemma first_occ_elem_of l x : x ∈ first_occ l ↔ x ∈ l.
Proof.
  induction l as [|y l IH]; cbn; [done|].
  rewrite !elem_of_cons, list_elem_of_filter, IH.
  destruct (decide (x = y)); tauto.
Qed.

Lemma first_occ_NoDup l : NoDup (first_occ l).
Proof.
  induction l as [|y l IH]; cbn; [constructor|].
  constructor.
  - rewrite list_elem_of_filter. intros [Hne _]. by apply Hne.
  - by apply NoDup_filter.
Qed.

Lemma filter_comm_str (P Q : string → Prop) `{!∀ x, Decision (P x)}
    `{!∀ x, Decision (Q x)} l :
  filter P (filter Q l) = filter Q (filter P l).
Proof.
  rewrite !list_filter_filter. apply list_filter_iff. intros x. tauto.
Qed.

Lemma first_occ_filter (P : string → Prop) `{!∀ x, Decision (P x)} l :
  first_occ (filter P l) = filter P (first_occ l).
Proof.
  induction l as [|y l IH]; [done|].
  rewrite filter_cons. cbn [first_occ]. rewrite filter_cons.
  destruct (decide (P y)) as [Hy|Hy].
  - cbn [first_occ]. rewrite IH. f_equal. apply filter_comm_str.
  - rewrite IH. symmetry. apply list_filter_filter_l.
    intros x Hx ->. contradiction.
Qed.

Lemma filter_all (P : string → Prop) `{!∀ x, Decision (P x)} l :
  Forall P l → filter P l = l.
Proof.
  induction 1 as [|x l Hx _ IH]; [done|].
  by rewrite filter_cons_True, IH.
Qed.

Lemma first_occ_id l : NoDup l → first_occ l = l.
Proof.
  induction 1 as [|x l Hx Hnd IH]; [done|].
  cbn [first_occ]. rewrite IH. f_equal.
  apply filter_all, Forall_forall. intros y Hy ->. contradiction.
Qed.

Lemma first_occ_idemp l : first_occ (first_occ l) = first_occ l.
Proof. apply first_occ_id, first_occ_NoDup. Qed.

(** The loop with a [seen] set computes the list of first occurrences. *)
Lemma fold_dedup_step l seen (out : list string) :
  snd (fold_left dedup_step l (seen, out))
  = out ++ filter (fun x => x ∉ seen) (first_occ l).
Proof.
  revert seen out. induction l as [|x l IH]; intros seen out.
  - cbn. by rewrite app_nil_r.
  - cbn [fold_left first_occ]. unfold dedup_step at 2.
    destruct (decide (x ∈ seen)) as [Hin|Hin].
    + rewrite IH, filter_cons_False by (intros Hx; by apply Hx).
      f_equal. symmetry. apply list_filter_filter_l.
      intros y Hy ->. contradiction.
    + rewrite IH, filter_cons_True by done.
      rewrite <- app_assoc. cbn [app]. do 2 f_equal.
      rewrite list_filter_filter. apply list_filter_iff.
      intros y. rewrite not_elem_of_union, not_elem_of_singleton. tauto.
Qed.

Lemma dedup_loop_first_occ l : dedup_loop l = first_occ l.
Proof.
  unfold dedup_loop. rewrite fold_dedup_step. cbn [app].
  apply filter_all, Forall_forall. intros x _. apply not_elem_of_empty.
Qed.

Lemma fold_block_step l seen (blocks : list FixBlock) :
  snd (fold_left block_step l (seen, blocks))
  = blocks ++ omap (fun cid => CONTROL_FIX_LIBRARY !! cid)
                   (filter (fun x => x ∉ seen) (first_occ l)).
Proof.
  revert seen blocks. induction l as [|x l IH]; intros seen blocks.
  - cbn. by rewrite app_nil_r.
  - cbn [fold_left first_occ]. unfold block_step at 2.
    assert (Hrest : filter (fun y => y ∉ {[x]} ∪ seen) (first_occ l)
              = filter (fun y => y ∉ seen) (filter (fun y => y ≠ x) (first_occ l))).
    { rewrite list_filter_filter. apply list_filter_iff.
      intros y. rewrite not_elem_of_union, not_elem_of_singleton. tauto. }
    destruct (decide (x ∈ seen)) as [Hin|Hin].
    + rewrite IH, filter_cons_False by (intros Hx; by apply Hx).
      do 2 f_equal. symmetry. apply list_filter_filter_l.
      intros y Hy ->. contradiction.
    + rewrite filter_cons_True by done. cbn [omap list_omap].
      destruct (CONTROL_FIX_LIBRARY !! x) as [b|];
        rewrite IH, Hrest; [|done].
      by rewrite <- app_assoc.
Qed.

Lemma build_blocks_first_occ l :
  build_blocks l = omap (fun cid => CONTROL_FIX_LIBRARY !! cid) (first_occ l).
Proof.
  unfold build_blocks. rewrite fold_block_step. cbn [app]. f_equal.
  apply filter_all, Forall_forall. intros x _. apply not_elem_of_empty.
Qed.
End FirstOcc.

Section Library.
Lemma library_items_control_id :
  Forall (fun kb => control_id kb.2 = kb.1) CONTROL_FIX_LIBRARY_items.
Proof. repeat (apply Forall_cons; split; [reflexivity|]). apply Forall_nil_2. Qed.

Lemma library_control_id cid b :
  CONTROL_FIX_LIBRARY !! cid = Some b → control_id b = cid.
Proof.
  unfold CONTROL_FIX_LIBRARY. intros H%elem_of_list_to_map_2.
  pose proof library_items_control_id as Hall.
  rewrite Forall_forall in Hall. exact (Hall _ H).
Qed.

Lemma library_keys :
  Forall in_library
    [ "CTRL_PERIMETER_WAN_ADMIN_EXPOSURE"; "CTRL_PERIMETER_PORT_FORWARDING";
      "CTRL_IDENTITY_ADMIN_MFA"; "CTRL_SEGMENTATION_GUEST_NOT_ISOLATED";
      "CTRL_SEGMENTATION_FLAT_NETWORK"; "CTRL_SEGMENTATION_PARTIAL";
      "CTRL_SEGMENTATION_IOT_WITH_CRITICAL"; "CTRL_WIRELESS_OPEN_OR_UNKNOWN";
      "CTRL_WIRELESS_PSK_ONLY"; "CTRL_WIRELESS_GUEST_CLIENT_ISOLATION";
      "CTRL_HYGIENE_UNUSED_PORTS"; "CTRL_OPERATIONS_NO_BACKUPS";
      "CTRL_OPERATIONS_NO_LOGGING"; "CTRL_OPERATIONS_FIRMWARE_RARE" ].
Proof.
  repeat (apply Forall_cons; split; [by vm_compute; eexists|]).
  apply Forall_nil_2.
Qed.

Lemma omap_library_ids (l : list string) :
  control_id <$> omap (fun cid => CONTROL_FIX_LIBRARY !! cid) l
  = filter in_library l.
Proof.
  induction l as [|c l IH]; [done|].
  rewrite filter_cons. cbn [omap list_omap].
  destruct (decide (in_library c)) as [[b E]|Hn].
  - rewrite E. cbn [fmap list_fmap].
    rewrite (library_control_id _ _ E). f_equal. exact IH.
  - destruct (CONTROL_FIX_LIBRARY !! c) as [b|] eqn:E; [|exact IH].
    destruct Hn. unfold in_library. rewrite E. by eexists.
Qed.

Lemma omap_library_filter (l : list string) :
  omap (fun cid => CONTROL_FIX_LIBRARY !! cid) (filter in_library l)
  = omap (fun cid => CONTROL_FIX_LIBRARY !! cid) l.
Proof.
  induction l as [|c l IH]; [done|].
  rewrite filter_cons. cbn [omap list_omap].
  destruct (decide (in_library c)) as [[b E]|Hn].
  - cbn [omap list_omap]. by rewrite E, IH.
  - destruct (CONTROL_FIX_LIBRARY !! c) as [b|] eqn:E; [|exact IH].
    destruct Hn. unfold in_library. rewrite E. by eexists.
Qed.
End Library.

Section Sorting.
Implicit Types (b : FixBlock) (l : list FixBlock).

Lemma string_ltb_false_le (c1 c2 : string) :
  String.ltb c2 c1 = false ↔ String.le c1 c2.
Proof.
  unfold String.le, String.ltb, String.leb.
  rewrite (String.compare_antisym c2 c1).
  destruct (String.compare c1 c2); cbn; intuition congruence.
Qed.

Lemma key_ltb_false_le (k1 k2 : Z * Z * string) :
  key_ltb k2 k1 = false ↔ key_le k1 k2.
Proof.
  destruct k1 as [[s1 g1] c1], k2 as [[s2 g2] c2]. unfold key_ltb, key_le.
  destruct (Z.ltb_spec s2 s1); [split; [discriminate|lia]|].
  destruct (Z.ltb_spec s1 s2); [split; [intros _; lia|done]|].
  destruct (Z.ltb_spec g2 g1); [split; [discriminate|lia]|].
  destruct (Z.ltb_spec g1 g2); [split; [intros _; lia|done]|].
  rewrite string_ltb_false_le.
  split; [intros Hc; right; split; [lia|]; right; split; [lia|done]|].
  intros [?|[_ [?|[_ ?]]]]; [lia|lia|done].
Qed.

#[local] Instance key_le_trans : Transitive key_le.
Proof.
  intros [[s1 g1] c1] [[s2 g2] c2] [[s3 g3] c3]. unfold key_le.
  intros [?|[-> [?|[-> H12]]]] [?|[<- [?|[<- H23]]]]; try lia;
    try (right; split; [done|]; left; lia).
  right; split; [done|]. right; split; [done|].
  exact (transitivity H12 H23).
Qed.

#[local] Instance key_le_total : Total key_le.
Proof.
  intros [[s1 g1] c1] [[s2 g2] c2]. unfold key_le.
  destruct (Z.lt_total s1 s2) as [?|[->|?]]; [left; by left| |right; by left].
  destruct (Z.lt_total g1 g2) as [?|[->|?]];
    [left; right; split; [done|]; by left| |right; right; split; [done|]; by left].
  destruct (total String.le c1 c2); [left|right]; right; (split; [done|]);
    right; by split.
Qed.

Lemma key_le_antisym (k1 k2 : Z * Z * string) :
  key_le k1 k2 → key_le k2 k1 → k1 = k2.
Proof.
  destruct k1 as [[s1 g1] c1], k2 as [[s2 g2] c2]. unfold key_le.
  intros [?|[? [?|[? H12]]]] [?|[? [?|[? H21]]]]; try lia.
  subst. f_equal. exact (anti_symm String.le _ _ H12 H21).
Qed.

(** The key the code sorts by is the key of the contract. *)
Lemma sort_key_contract (b : FixBlock) : sort_key b = contract_key b.
Proof.
  assert (Hs : default 3 (severity_rank_table !! severity b)
               = contract_severity_rank (severity b)).
  { unfold contract_severity_rank, severity_rank_table.
    destruct (decide (severity b = "critical")) as [->|N1]; [reflexivity|].
    rewrite lookup_insert_ne by congruence.
    destruct (decide (severity b = "high")) as [->|N2]; [reflexivity|].
    rewrite lookup_insert_ne by congruence.
    destruct (decide (severity b = "medium")) as [->|N3]; [reflexivity|].
    rewrite lookup_insert_ne by congruence. rewrite lookup_empty. reflexivity. }
  assert (Hg : (if bool_decide (gate b ∈ Some <$> RECOGNISED_GATES) then 0 else 1)
               = contract_gate_rank (gate b)).
  { unfold contract_gate_rank. destruct (gate b) as [gid|].
    - destruct (decide (gid ∈ RECOGNISED_GATES)) as [Hin|Hout].
      + rewrite bool_decide_eq_true_2; [reflexivity|].
        apply list_elem_of_fmap. by exists gid.
      + rewrite bool_decide_eq_false_2; [reflexivity|].
        intros (g & [= <-] & Hin)%list_elem_of_fmap. by destruct Hout.
    - rewrite bool_decide_eq_false_2; [reflexivity|].
      intros (g & Heq & _)%list_elem_of_fmap. discriminate Heq. }
  unfold sort_key, contract_key. cbv zeta.
  change [Some "G1"; Some "G2"; Some "G3"; Some "G4"; Some "G5"]
    with (Some <$> RECOGNISED_GATES).
  by rewrite Hs, Hg.
Qed.

Lemma block_le_sort_key (b1 b2 : FixBlock) :
  block_le b1 b2 ↔ key_le (sort_key b1) (sort_key b2).
Proof. unfold block_le. by rewrite !sort_key_contract. Qed.

#[local] Instance block_le_trans : Transitive block_le.
Proof. intros b1 b2 b3. unfold block_le. apply key_le_trans. Qed.

Lemma insert_by_key_perm b l : insert_by_key b l ≡ₚ b :: l.
Proof.
  induction l as [|y l IH]; [done|]. cbn [insert_by_key].
  destruct (key_ltb (sort_key y) (sort_key b)); [|done].
  rewrite IH. apply Permutation_swap.
Qed.

Lemma sorted_by_key_perm l : sorted_by_key l ≡ₚ l.
Proof.
  induction l as [|b l IH]; [done|].
  cbn [sorted_by_key foldr]. rewrite insert_by_key_perm.
  by constructor.
Qed.

Lemma insert_by_key_hd (a b : FixBlock) l :
  block_le a b → HdRel block_le a l → HdRel block_le a (insert_by_key b l).
Proof.
  intros Hab Hl. destruct l as [|y l]; cbn [insert_by_key].
  - by constructor.
  - inversion_clear Hl.
    destruct (key_ltb (sort_key y) (sort_key b)); by constructor.
Qed.

Lemma insert_by_key_sorted b l :
  Sorted block_le l → Sorted block_le (insert_by_key b l).
Proof.
  induction 1 as [|y l Hl IH Hhd]; cbn [insert_by_key].
  - by repeat constructor.
  - destruct (key_ltb (sort_key y) (sort_key b)) eqn:E.
    + constructor; [exact IH|].
      apply insert_by_key_hd; [|done].
      apply block_le_sort_key.
      destruct (total key_le (sort_key y) (sort_key b)) as [?|Hle]; [done|].
      apply key_ltb_false_le in Hle. congruence.
    + constructor; [by constructor|]. constructor.
      apply block_le_sort_key. by apply key_ltb_false_le.
Qed.

Lemma sorted_by_key_sorted l : StronglySorted block_le (sorted_by_key l).
Proof.
  apply Sorted_StronglySorted; [apply _|].
  induction l as [|b l IH]; [constructor|].
  cbn [sorted_by_key foldr]. by apply insert_by_key_sorted.
Qed.
End Sorting.

Section Resolver.
Implicit Types (b : FixBlock) (l : list FixBlock) (fc : list string)
  (gs : list GateResult).

Lemma is_critical_rank b : is_critical b = true ↔ (sort_key b).1.1 <= 1.
Proof.
  unfold is_critical, sort_key, severity_rank_table. cbn [fst].
  rewrite bool_decide_eq_true, !elem_of_cons, elem_of_nil.
  destruct (decide (severity b = "critical")) as [->|N1].
  { rewrite lookup_insert_eq. cbn. split; [lia|auto]. }
  rewrite lookup_insert_ne by congruence.
  destruct (decide (severity b = "high")) as [->|N2].
  { rewrite lookup_insert_eq. cbn. split; [lia|auto]. }
  rewrite lookup_insert_ne by congruence.
  destruct (decide (severity b = "medium")) as [->|N3].
  { rewrite lookup_insert_eq. cbn. split; [intros [?|[?|[]]]; discriminate|lia]. }
  rewrite lookup_insert_ne by congruence. rewrite lookup_empty. cbn.
  split; [intros [?|[?|[]]]; contradiction|lia].
Qed.

Lemma block_le_rank b1 b2 :
  block_le b1 b2 → (sort_key b1).1.1 <= (sort_key b2).1.1.
Proof.
  rewrite block_le_sort_key. unfold key_le.
  destruct (sort_key b1) as [[s1 g1] c1], (sort_key b2) as [[s2 g2] c2].
  cbn [fst]. lia.
Qed.

Lemma filter_none_critical l :
  Forall (fun b => is_critical b = false) l →
  filter (fun b => is_critical b = true) l = []
  ∧ filter (fun b => is_critical b = false) l = l.
Proof.
  induction 1 as [|b l Hb _ [IH1 IH2]]; [done|].
  rewrite filter_cons_False by congruence.
  rewrite filter_cons_True by done. by rewrite IH1, IH2.
Qed.

Lemma partition_sorted l :
  StronglySorted block_le l →
  filter (fun b => is_critical b = true) l
    ++ filter (fun b => is_critical b = false) l = l.
Proof.
  induction 1 as [|b l Hl IH Hall]; [done|].
  destruct (is_critical b) eqn:Hb.
  - rewrite filter_cons_True by done.
    rewrite filter_cons_False by congruence.
    cbn [app]. by rewrite IH.
  - assert (Hrest : Forall (fun b' => is_critical b' = false) l).
    { eapply Forall_impl; [exact Hall|]. intros b' Hle%block_le_rank. cbn beta.
      destruct (is_critical b') eqn:Hb'; [|done].
      apply is_critical_rank in Hb'.
      assert (Hn : ¬ (sort_key b).1.1 <= 1)
        by (rewrite <- is_critical_rank; congruence).
      lia. }
    destruct (filter_none_critical l Hrest) as [E1 E2].
    rewrite filter_cons_False by congruence.
    rewrite filter_cons_True by done. by rewrite E1, E2.
Qed.

Lemma all_fixes_sorted fc gs :
  all_fixes (generate_fix_blocks fc gs) = sorted_by_key (build_blocks fc).
Proof.
  unfold all_fixes, generate_fix_blocks. cbn [critical_fixes recommended_fixes].
  apply partition_sorted, sorted_by_key_sorted.
Qed.

Lemma all_fixes_ids fc gs :
  control_id <$> all_fixes (generate_fix_blocks fc gs)
  ≡ₚ filter in_library (first_occ fc).
Proof.
  rewrite all_fixes_sorted, sorted_by_key_perm, build_blocks_first_occ.
  by rewrite omap_library_ids.
Qed.

(** C7 (resolver determinism and deduplication): the resolver returns no
    duplicate Fix Block, one block per recognised identifier of the list of
    first occurrences; its Fix Blocks are sorted by the ranks of the
    contract ([block_le]: severity critical 0, high 1, medium 2, anything
    else 3; then recognised gate 0, otherwise 1; then control identifier);
    and two failed-control lists with the same first occurrences, that is,
    lists that differ only by repeated entries, yield identical output. *)
Theorem fix_blocks_dedup_sorted fc1 fc2 gs :
  first_occ fc1 = first_occ fc2 →
  NoDup (all_fixes (generate_fix_blocks fc1 gs))
  ∧ NoDup (control_id <$> all_fixes (generate_fix_blocks fc1 gs))
  ∧ control_id <$> all_fixes (generate_fix_blocks fc1 gs)
    ≡ₚ filter in_library (first_occ fc1)
  ∧ StronglySorted block_le (all_fixes (generate_fix_blocks fc1 gs))
  ∧ generate_fix_blocks fc2 gs = generate_fix_blocks fc1 gs.
Proof.
  intros Hocc.
  assert (Hnd : NoDup (control_id <$> all_fixes (generate_fix_blocks fc1 gs))).
  { rewrite all_fixes_ids. apply NoDup_filter, first_occ_NoDup. }
  split_and!.
  - by eapply NoDup_fmap_1.
  - exact Hnd.
  - apply all_fixes_ids.
  - rewrite all_fixes_sorted. apply sorted_by_key_sorted.
  - unfold generate_fix_blocks.
    by rewrite !build_blocks_first_occ, Hocc.
Qed.

Lemma fix_blocks_dedup_sorted_witness :
  NoDup (all_fixes (generate_fix_blocks controls_with_repeats []))
  ∧ NoDup (control_id <$> all_fixes (generate_fix_blocks controls_with_repeats []))
  ∧ control_id <$> all_fixes (generate_fix_blocks controls_with_repeats [])
    ≡ₚ filter in_library (first_occ controls_with_repeats)
  ∧ StronglySorted block_le (all_fixes (generate_fix_blocks controls_with_repeats []))
  ∧ generate_fix_blocks controls_with_more_repeats []
    = generate_fix_blocks controls_with_repeats [].
Proof.
  apply (fix_blocks_dedup_sorted controls_with_repeats controls_with_more_repeats []).
  vm_compute. reflexivity.
Defined.

(** C8 (unrecognised identifiers): the resolver is a total function, it has
    no raising path; an identifier that is not a key of the Fix Block
    library leaves no trace, so the output is the output on the sublist of
    recognised identifiers, and every Fix Block returned is a library
    entry. *)
Theorem unrecognized_ids_dropped fc gs :
  generate_fix_blocks fc gs = generate_fix_blocks (filter in_library fc) gs
  ∧ Forall in_library (control_id <$> all_fixes (generate_fix_blocks fc gs)).
Proof.
  split.
  - unfold generate_fix_blocks.
    rewrite !build_blocks_first_occ, first_occ_filter.
    by rewrite omap_library_filter.
  - rewrite all_fixes_ids. apply Forall_forall.
    intros c Hc. apply list_elem_of_filter in Hc. tauto.
Qed.

Ltac known_control :=
  repeat first [apply list_elem_of_here | apply list_elem_of_further].

Ltac controls_known :=
  ScoringFacts.split_rules; cbn [snd app];
  repeat (apply Forall_cons; split;
          [eapply (proj1 (Forall_forall _ _) library_keys); known_control|]);
  apply Forall_nil_2.

Lemma raw_controls_in_library answers :
  Forall in_library (raw_failed_controls answers).
Proof.
  unfold raw_failed_controls. rewrite !Forall_app. split_and!.
  - unfold perimeter_pass. controls_known.
  - unfold segmentation_pass. controls_known.
  - unfold wireless_pass. controls_known.
  - unfold hygiene_pass. controls_known.
Qed.

(** C10 (engine output is covered by the library): every control identifier
    in the failed-control list the engine returns is a key of the Fix Block
    library; fed that list, the resolver's loop appends one block per
    identifier, in order, and every failed control has its Fix Block in the
    output. *)
Theorem engine_controls_in_library answers :
  ∃ sb, score_assessment answers = Some sb
        ∧ Forall in_library (failed_controls sb)
        ∧ control_id <$> build_blocks (failed_controls sb) = failed_controls sb
        ∧ control_id <$> all_fixes (generate_fix_blocks (failed_controls sb) (gates sb))
          ≡ₚ failed_controls sb.
Proof.
  destruct (ScoringFacts.score_assessment_total answers) as (z & _ & _ & ->).
  eexists; split; [reflexivity|].
  change (failed_controls (breakdown_of answers z))
    with (dedup_loop (raw_failed_controls answers)).
  rewrite dedup_loop_first_occ.
  assert (Hall : Forall in_library (first_occ (raw_failed_controls answers))).
  { apply Forall_forall. intros c Hc.
    apply (proj1 (first_occ_elem_of _ _)) in Hc.
    exact (proj1 (Forall_forall _ _) (raw_controls_in_library answers) c Hc). }
  split; [exact Hall|].
  split.
  - rewrite build_blocks_first_occ, first_occ_idemp, omap_library_ids.
    by apply filter_all.
  - rewrite all_fixes_ids, first_occ_idemp. by rewrite filter_all.
Qed.

(** Beyond first-occurrence order: the sort key is injective on library
    blocks, so the output only depends on the set of identifiers. *)
Lemma fix_blocks_order_insensitive fc1 fc2 gs :
  (∀ c, c ∈ fc1 ↔ c ∈ fc2) →
  generate_fix_blocks fc1 gs = generate_fix_blocks fc2 gs.
Proof.
  intros Hset.
  assert (Hs : sorted_by_key (build_blocks fc1) = sorted_by_key (build_blocks fc2)).
  { apply (StronglySorted_unique_strong block_le);
      [|apply sorted_by_key_sorted|apply sorted_by_key_sorted|].
    - intros b1 b2 H1 H2 H12 H21.
      rewrite sorted_by_key_perm, build_blocks_first_occ, list_elem_of_omap in H1, H2.
      destruct H1 as (k1 & _ & E1), H2 as (k2 & _ & E2).
      assert (control_id b1 = control_id b2) as Hid
        by exact (f_equal snd (key_le_antisym _ _ H12 H21)).
      pose proof (library_control_id _ _ E1) as C1.
      pose proof (library_control_id _ _ E2) as C2.
      assert (k1 = k2) as -> by congruence. congruence.
    - rewrite !sorted_by_key_perm, !build_blocks_first_occ.
      apply omap_Permutation, NoDup_Permutation; try apply first_occ_NoDup.
      intros c. by rewrite !first_occ_elem_of. }
  unfold generate_fix_blocks. by rewrite Hs.
Qed.
End Resolver.

End ResolverFacts.

(** ** Further properties of the scoring engine *)

Module ScoringMore.
Import Scoring Contract RuleTable ScoringFacts ResolverFacts.

Implicit Types (answers : gmap string string) (fc : list string).

(** *** Closed forms of the four passes *)

Lemma perimeter_pass_closed answers :
  perimeter_pass answers [] =
    (pts (rule_wan_admin answers) 25 + pts (rule_port_forwarding answers) 25
       + pts (rule_admin_mfa answers) 10,
     emit (rule_wan_admin answers) "CTRL_PERIMETER_WAN_ADMIN_EXPOSURE"
       ++ emit (rule_port_forwarding answers) "CTRL_PERIMETER_PORT_FORWARDING"
       ++ emit (rule_admin_mfa answers) "CTRL_IDENTITY_ADMIN_MFA").
Proof.
  unfold perimeter_pass, rule_wan_admin, rule_port_forwarding, rule_admin_mfa.
  split_rules; reflexivity.
Qed.

Lemma segmentation_pass_closed answers :
  segmentation_pass answers [] =
    (pts (rule_flat answers) 25 + pts (rule_partial answers) 10
       + pts (rule_iot answers) 10,
     emit (rule_flat answers) "CTRL_SEGMENTATION_FLAT_NETWORK"
       ++ emit (rule_partial answers) "CTRL_SEGMENTATION_PARTIAL"
       ++ emit (rule_guest answers) "CTRL_SEGMENTATION_GUEST_NOT_ISOLATED"
       ++ emit (rule_iot answers) "CTRL_SEGMENTATION_IOT_WITH_CRITICAL").
Proof.
  unfold segmentation_pass, rule_flat, rule_partial, rule_flat, rule_guest, rule_iot.
  split_rules; reflexivity.
Qed.

Lemma wireless_pass_closed answers :
  wireless_pass answers [] =
    (pts (rule_wifi_open answers) 15 + pts (rule_wifi_psk answers) 7
       + pts (rule_client_isolation answers) 8,
     emit (rule_wifi_open answers) "CTRL_WIRELESS_OPEN_OR_UNKNOWN"
       ++ emit (rule_wifi_psk answers) "CTRL_WIRELESS_PSK_ONLY"
       ++ emit (rule_client_isolation answers) "CTRL_WIRELESS_GUEST_CLIENT_ISOLATION").
Proof.
  unfold wireless_pass, rule_wifi_psk, rule_wifi_open, rule_client_isolation.
  split_rules; reflexivity.
Qed.

Lemma hygiene_pass_closed answers :
  hygiene_pass answers [] =
    (pts (rule_unused_ports answers) 7 + pts (rule_backups answers) 15
       + pts (rule_logging answers) 15 + pts (rule_firmware answers) 7,
     emit (rule_unused_ports answers) "CTRL_HYGIENE_UNUSED_PORTS"
       ++ emit (rule_backups answers) "CTRL_OPERATIONS_NO_BACKUPS"
       ++ emit (rule_logging answers) "CTRL_OPERATIONS_NO_LOGGING"
       ++ emit (rule_firmware answers) "CTRL_OPERATIONS_FIRMWARE_RARE").
Proof.
  unfold hygiene_pass, rule_unused_ports, rule_backups, rule_logging, rule_firmware.
  split_rules; reflexivity.
Qed.

Lemma gates_closed answers z :
  gates (breakdown_of answers z) =
    [ mkGateResult "G1" (rule_wan_admin answers || rule_port_forwarding answers) 40
        (g1_reasons answers);
      mkGateResult "G2" (rule_guest answers) 50 (g2_reasons answers);
      mkGateResult "G3" (rule_flat answers) 55 (g3_reasons answers);
      mkGateResult "G4" (rule_backups answers) 65 (g4_reasons answers);
      mkGateResult "G5" (rule_logging answers) 70 (g5_reasons answers) ].
Proof.
  rewrite gates_eq.
  unfold g1_reasons, g2_reasons, g3_reasons, g4_reasons, g5_reasons,
    rule_wan_admin, rule_port_forwarding, rule_guest, rule_flat, rule_backups,
    rule_logging.
  split_rules; reflexivity.
Qed.

Lemma perimeter_ded_closed answers :
  perimeter_ded answers =
    pts (rule_wan_admin answers) 25 + pts (rule_port_forwarding answers) 25
    + pts (rule_admin_mfa answers) 10.
Proof. unfold perimeter_ded. by rewrite perimeter_pass_closed. Qed.

Lemma segmentation_ded_closed answers :
  segmentation_ded answers =
    pts (rule_flat answers) 25 + pts (rule_partial answers) 10
    + pts (rule_iot answers) 10.
Proof. unfold segmentation_ded. by rewrite segmentation_pass_closed. Qed.

Lemma wireless_ded_closed answers :
  wireless_ded answers =
    pts (rule_wifi_open answers) 15 + pts (rule_wifi_psk answers) 7
    + pts (rule_client_isolation answers) 8.
Proof. unfold wireless_ded. by rewrite wireless_pass_closed. Qed.

Lemma hygiene_ded_closed answers :
  hygiene_ded answers =
    pts (rule_unused_ports answers) 7 + pts (rule_backups answers) 15
    + pts (rule_logging answers) 15 + pts (rule_firmware answers) 7.
Proof. unfold hygiene_ded. by rewrite hygiene_pass_closed. Qed.

Lemma raw_failed_controls_closed answers :
  raw_failed_controls answers =
    emit (rule_wan_admin answers) "CTRL_PERIMETER_WAN_ADMIN_EXPOSURE"
    ++ emit (rule_port_forwarding answers) "CTRL_PERIMETER_PORT_FORWARDING"
    ++ emit (rule_admin_mfa answers) "CTRL_IDENTITY_ADMIN_MFA"
    ++ emit (rule_flat answers) "CTRL_SEGMENTATION_FLAT_NETWORK"
    ++ emit (rule_partial answers) "CTRL_SEGMENTATION_PARTIAL"
    ++ emit (rule_guest answers) "CTRL_SEGMENTATION_GUEST_NOT_ISOLATED"
    ++ emit (rule_iot answers) "CTRL_SEGMENTATION_IOT_WITH_CRITICAL"
    ++ emit (rule_wifi_open answers) "CTRL_WIRELESS_OPEN_OR_UNKNOWN"
    ++ emit (rule_wifi_psk answers) "CTRL_WIRELESS_PSK_ONLY"
    ++ emit (rule_client_isolation answers) "CTRL_WIRELESS_GUEST_CLIENT_ISOLATION"
    ++ emit (rule_unused_ports answers) "CTRL_HYGIENE_UNUSED_PORTS"
    ++ emit (rule_backups answers) "CTRL_OPERATIONS_NO_BACKUPS"
    ++ emit (rule_logging answers) "CTRL_OPERATIONS_NO_LOGGING"
    ++ emit (rule_firmware answers) "CTRL_OPERATIONS_FIRMWARE_RARE".
Proof.
  unfold raw_failed_controls.
  rewrite perimeter_pass_closed, segmentation_pass_closed, wireless_pass_closed,
    hygiene_pass_closed.
  cbn [snd]. by rewrite <- !app_assoc.
Qed.

Lemma pts_range b p : 0 <= p → 0 <= pts b p <= p.
Proof. destruct b; cbn; lia. Qed.

(** The rounded product is never below the raw deduction. *)
Lemma py_round_scaled_ge (n : Z) (m : spec_float) (z : Z) :
  n ∈ [0; 10; 20; 25; 35] → m ∈ [f_1_0; f_1_1; f_1_25; f_1_5] →
  F64.py_round (F64.mul (F64.of_int n) m) = Some z → n <= z.
Proof.
  rewrite !elem_of_cons, !elem_of_nil.
  intros Hn Hm Hz.
  destruct Hn as [->|[->|[->|[->|[->|[]]]]]];
    destruct Hm as [->|[->|[->|[->|[]]]]];
    vm_compute in Hz; injection Hz as <-; discriminate.
Qed.

Lemma category_ranges answers :
  0 <= perimeter_ded answers <= 60 ∧ 0 <= segmentation_ded answers <= 35
  ∧ 0 <= wireless_ded answers <= 23 ∧ 0 <= hygiene_ded answers <= 44.
Proof.
  split; [|split; [|split]].
  - rewrite perimeter_ded_closed.
    pose proof (pts_range (rule_wan_admin answers) 25).
    pose proof (pts_range (rule_port_forwarding answers) 25).
    pose proof (pts_range (rule_admin_mfa answers) 10). lia.
  - pose proof (segmentation_ded_cases answers) as H.
    rewrite !elem_of_cons, elem_of_nil in H. lia.
  - rewrite wireless_ded_closed. unfold rule_wifi_psk.
    destruct (rule_wifi_open answers); cbn [negb andb pts];
      pose proof (pts_range (eqs (e1 answers) "PSK") 7);
      pose proof (pts_range (rule_client_isolation answers) 8); lia.
  - rewrite hygiene_ded_closed.
    pose proof (pts_range (rule_unused_ports answers) 7).
    pose proof (pts_range (rule_backups answers) 15).
    pose proof (pts_range (rule_logging answers) 15).
    pose proof (pts_range (rule_firmware answers) 7). lia.
Qed.

Lemma raw_score_closed answers z :
  0 <= z →
  raw_score (breakdown_of answers z)
  = Z.max 0 (100 - (perimeter_ded answers
                    + (z + wireless_ded answers + hygiene_ded answers))).
Proof.
  intros Hz. destruct (category_ranges answers) as (Hp & _ & Hw & Hh).
  change (raw_score (breakdown_of answers z)) with
    (clamp_score (perimeter_ded answers
                  + (z + wireless_ded answers + hygiene_ded answers))).
  unfold clamp_score.
  destruct (Z.ltb_spec (100 - (perimeter_ded answers
              + (z + wireless_ded answers + hygiene_ded answers))) 0).
  - rewrite (proj2 (Z.ltb_ge 100 0)) by lia. lia.
  - destruct (Z.ltb_spec 100 (100 - (perimeter_ded answers
                + (z + wireless_ded answers + hygiene_ded answers)))); lia.
Qed.

(** The arithmetic of the deduction breakdown: each category stays within
    the sum of its weights, scaling never lowers the segmentation
    deduction, the two totals are the sums the report shows, and the raw
    score is [100 - total] cut off at 0 (it never needs the cut at 100). *)
Theorem deduction_arithmetic answers :
  ∃ sb p s sc w h mt t,
    score_assessment answers = Some sb
    ∧ deductions sb !! "perimeter" = Some p
    ∧ deductions sb !! "segmentation" = Some s
    ∧ deductions sb !! "segmentation_scaled" = Some sc
    ∧ deductions sb !! "wireless" = Some w
    ∧ deductions sb !! "hygiene" = Some h
    ∧ deductions sb !! "multiplied_total" = Some mt
    ∧ deductions sb !! "total" = Some t
    ∧ 0 <= p <= 60 ∧ 0 <= s <= 35 ∧ s <= sc <= 52 ∧ 0 <= w <= 23 ∧ 0 <= h <= 44
    ∧ mt = sc + w + h ∧ t = p + mt
    ∧ raw_score sb = Z.max 0 (100 - t).
Proof.
  destruct (score_assessment_total answers) as (z & Hz & Hb & ->).
  pose proof (py_round_scaled_ge _ _ _ (segmentation_ded_cases answers)
                (multiplier_cases answers) Hz) as Hge.
  destruct (deductions_lookup answers z) as (Lp & Ls & Lsc & Lw & Lh & Lmt & Lt).
  cbv zeta in *.
  eexists _, _, _, _, _, _, _, _.
  split; [reflexivity|].
  do 7 (split; [eassumption|]).
  destruct (category_ranges answers) as (Hp & Hs & Hw & Hh).
  split_and!; try lia.
  apply raw_score_closed. lia.
Qed.

(** *** The failed-control list *)

Lemma emit_sublist b c (l1 l2 : list string) :
  l1 `sublist_of` l2 → emit b c ++ l1 `sublist_of` c :: l2.
Proof. intros H. destruct b; cbn; by constructor. Qed.

Lemma raw_failed_controls_sublist answers :
  raw_failed_controls answers `sublist_of` RULE_ORDER.
Proof.
  rewrite raw_failed_controls_closed. unfold RULE_ORDER.
  do 13 apply emit_sublist.
  rewrite <- (app_nil_r (emit _ _)). apply emit_sublist. constructor.
Qed.

Lemma RULE_ORDER_NoDup : NoDup RULE_ORDER.
Proof. apply (bool_decide_unpack _). vm_compute. exact I. Qed.

Lemma elem_of_emit (x : string) b c : x ∈ emit b c ↔ b = true ∧ x = c.
Proof.
  destruct b; cbn.
  - rewrite list_elem_of_singleton. tauto.
  - rewrite elem_of_nil. split; [tauto | intros [? _]; discriminate].
Qed.

Lemma length_emit b c : (length (emit b c) <= 1)%nat.
Proof. destruct b; cbn; lia. Qed.

Lemma failed_controls_raw answers z :
  failed_controls (breakdown_of answers z) = raw_failed_controls answers.
Proof.
  change (failed_controls (breakdown_of answers z))
    with (dedup_loop (raw_failed_controls answers)).
  rewrite dedup_loop_first_occ. apply first_occ_id.
  exact (sublist_NoDup _ _ RULE_ORDER_NoDup (raw_failed_controls_sublist answers)).
Qed.

Lemma elem_of_emit_app (x : string) b c l :
  x ∈ emit b c ++ l ↔ (b = true ∧ x = c) ∨ x ∈ l.
Proof. by rewrite elem_of_app, elem_of_emit. Qed.

Ltac emitted H :=
  repeat (apply elem_of_emit_app in H as [[? ?]|H]; [try discriminate|]);
  try (apply elem_of_emit in H as [? ?]; try discriminate).

Ltac emits :=
  repeat first
    [ apply elem_of_emit; split; [assumption|reflexivity]
    | apply elem_of_emit_app; left; split; [assumption|reflexivity]
    | apply elem_of_emit_app; right ].

Ltac emitted_iff :=
  rewrite raw_failed_controls_closed;
  split; [intros H; emitted H; assumption | intros H; emits].

(** Which rule puts which identifier on the list. *)
Lemma raw_failed_controls_elem answers :
  let raw := raw_failed_controls answers in
  ("CTRL_PERIMETER_WAN_ADMIN_EXPOSURE" ∈ raw ↔ rule_wan_admin answers = true)
  ∧ ("CTRL_PERIMETER_PORT_FORWARDING" ∈ raw ↔ rule_port_forwarding answers = true)
  ∧ ("CTRL_IDENTITY_ADMIN_MFA" ∈ raw ↔ rule_admin_mfa answers = true)
  ∧ ("CTRL_SEGMENTATION_FLAT_NETWORK" ∈ raw ↔ rule_flat answers = true)
  ∧ ("CTRL_SEGMENTATION_PARTIAL" ∈ raw ↔ rule_partial answers = true)
  ∧ ("CTRL_SEGMENTATION_GUEST_NOT_ISOLATED" ∈ raw ↔ rule_guest answers = true)
  ∧ ("CTRL_SEGMENTATION_IOT_WITH_CRITICAL" ∈ raw ↔ rule_iot answers = true)
  ∧ ("CTRL_WIRELESS_OPEN_OR_UNKNOWN" ∈ raw ↔ rule_wifi_open answers = true)
  ∧ ("CTRL_WIRELESS_PSK_ONLY" ∈ raw ↔ rule_wifi_psk answers = true)
  ∧ ("CTRL_WIRELESS_GUEST_CLIENT_ISOLATION" ∈ raw ↔ rule_client_isolation answers = true)
  ∧ ("CTRL_HYGIENE_UNUSED_PORTS" ∈ raw ↔ rule_unused_ports answers = true)
  ∧ ("CTRL_OPERATIONS_NO_BACKUPS" ∈ raw ↔ rule_backups answers = true)
  ∧ ("CTRL_OPERATIONS_NO_LOGGING" ∈ raw ↔ rule_logging answers = true)
  ∧ ("CTRL_OPERATIONS_FIRMWARE_RARE" ∈ raw ↔ rule_firmware answers = true).
Proof. cbv zeta. split_and!; emitted_iff. Qed.

(** The failed-control list follows the fixed rule order and holds no
    identifier twice, so the deduplication loop never drops an entry; the
    flat/partial and the open/PSK identifiers exclude each other, which
    leaves at most 12 entries. *)
Theorem failed_controls_in_rule_order answers :
  ∃ sb, score_assessment answers = Some sb
        ∧ failed_controls sb `sublist_of` RULE_ORDER
        ∧ NoDup (failed_controls sb)
        ∧ failed_controls sb = raw_failed_controls answers
        ∧ (length (failed_controls sb) <= 12)%nat
        ∧ ¬ ("CTRL_SEGMENTATION_FLAT_NETWORK" ∈ failed_controls sb
             ∧ "CTRL_SEGMENTATION_PARTIAL" ∈ failed_controls sb)
        ∧ ¬ ("CTRL_WIRELESS_OPEN_OR_UNKNOWN" ∈ failed_controls sb
             ∧ "CTRL_WIRELESS_PSK_ONLY" ∈ failed_controls sb).
Proof.
  destruct (score_assessment_total answers) as (z & _ & _ & ->).
  eexists; split; [reflexivity|].
  rewrite failed_controls_raw.
  pose proof (raw_failed_controls_sublist answers) as Hsub.
  split; [exact Hsub|].
  split; [exact (sublist_NoDup _ _ RULE_ORDER_NoDup Hsub)|].
  split; [reflexivity|].
  destruct (raw_failed_controls_elem answers)
    as (_ & _ & _ & Hflat & Hpartial & _ & _ & Hopen & Hpsk & _).
  cbv zeta in *.
  split_and!.
  - rewrite raw_failed_controls_closed, !length_app. unfold rule_partial, rule_wifi_psk.
    pose proof (length_emit (rule_wan_admin answers) "CTRL_PERIMETER_WAN_ADMIN_EXPOSURE").
    pose proof (length_emit (rule_port_forwarding answers) "CTRL_PERIMETER_PORT_FORWARDING").
    pose proof (length_emit (rule_admin_mfa answers) "CTRL_IDENTITY_ADMIN_MFA").
    pose proof (length_emit (rule_guest answers) "CTRL_SEGMENTATION_GUEST_NOT_ISOLATED").
    pose proof (length_emit (rule_iot answers) "CTRL_SEGMENTATION_IOT_WITH_CRITICAL").
    pose proof (length_emit (rule_client_isolation answers) "CTRL_WIRELESS_GUEST_CLIENT_ISOLATION").
    pose proof (length_emit (rule_unused_ports answers) "CTRL_HYGIENE_UNUSED_PORTS").
    pose proof (length_emit (rule_backups answers) "CTRL_OPERATIONS_NO_BACKUPS").
    pose proof (length_emit (rule_logging answers) "CTRL_OPERATIONS_NO_LOGGING").
    pose proof (length_emit (rule_firmware answers) "CTRL_OPERATIONS_FIRMWARE_RARE").
    pose proof (length_emit (eqs (d2 answers) "PARTIAL") "CTRL_SEGMENTATION_PARTIAL").
    pose proof (length_emit (eqs (e1 answers) "PSK") "CTRL_WIRELESS_PSK_ONLY").
    destruct (rule_flat answers), (rule_wifi_open answers);
      cbn [negb andb emit length] in *; lia.
  - rewrite Hflat, Hpartial. unfold rule_partial.
    destruct (rule_flat answers); cbn; intros [? ?]; discriminate.
  - rewrite Hopen, Hpsk. unfold rule_wifi_psk.
    destruct (rule_wifi_open answers); cbn; intros [? ?]; discriminate.
Qed.

(** *** Gates and their controls *)

Lemma gate_failed_closed answers z :
  let sb := breakdown_of answers z in
  (gate_failed sb "G1" ↔ rule_wan_admin answers || rule_port_forwarding answers = true)
  ∧ (gate_failed sb "G2" ↔ rule_guest answers = true)
  ∧ (gate_failed sb "G3" ↔ rule_flat answers = true)
  ∧ (gate_failed sb "G4" ↔ rule_backups answers = true)
  ∧ (gate_failed sb "G5" ↔ rule_logging answers = true).
Proof.
  cbv zeta. unfold gate_failed. rewrite gates_closed.
  split_and!; (split;
    [ intros (g & Hin & Hid & Hf);
      repeat (apply elem_of_cons in Hin as [->|Hin]; [cbn in Hid; try discriminate Hid; exact Hf|]);
      by apply elem_of_nil in Hin
    | intros Hf;
      first
        [ eexists; split; [apply list_elem_of_here|]; split; [reflexivity | exact Hf]
        | eexists; split; [do 1 apply list_elem_of_further; apply list_elem_of_here|];
          split; [reflexivity | exact Hf]
        | eexists; split; [do 2 apply list_elem_of_further; apply list_elem_of_here|];
          split; [reflexivity | exact Hf]
        | eexists; split; [do 3 apply list_elem_of_further; apply list_elem_of_here|];
          split; [reflexivity | exact Hf]
        | eexists; split; [do 4 apply list_elem_of_further; apply list_elem_of_here|];
          split; [reflexivity | exact Hf] ] ]).
Qed.

(** A gate has failed exactly when a control it owns is on the
    failed-control list: G1 with the WAN-admin or the port-forwarding
    control, G2 with the guest-isolation control, G3 with the flat-network
    control, G4 with the backup control, G5 with the logging control. *)
Theorem failed_gate_has_control answers :
  ∃ sb, score_assessment answers = Some sb
    ∧ (gate_failed sb "G1"
       ↔ "CTRL_PERIMETER_WAN_ADMIN_EXPOSURE" ∈ failed_controls sb
         ∨ "CTRL_PERIMETER_PORT_FORWARDING" ∈ failed_controls sb)
    ∧ (gate_failed sb "G2"
       ↔ "CTRL_SEGMENTATION_GUEST_NOT_ISOLATED" ∈ failed_controls sb)
    ∧ (gate_failed sb "G3" ↔ "CTRL_SEGMENTATION_FLAT_NETWORK" ∈ failed_controls sb)
    ∧ (gate_failed sb "G4" ↔ "CTRL_OPERATIONS_NO_BACKUPS" ∈ failed_controls sb)
    ∧ (gate_failed sb "G5" ↔ "CTRL_OPERATIONS_NO_LOGGING" ∈ failed_controls sb).
Proof.
  destruct (score_assessment_total answers) as (z & _ & _ & ->).
  eexists; split; [reflexivity|].
  rewrite failed_controls_raw.
  destruct (gate_failed_closed answers z) as (-> & -> & -> & -> & ->).
  destruct (raw_failed_controls_elem answers)
    as (-> & -> & _ & -> & _ & -> & _ & _ & _ & _ & _ & -> & -> & _).
  split_and!; try reflexivity.
  apply orb_true_iff.
Qed.

(** *** Cap and grade *)

Lemma determine_cap_le_acc (gs : list GateResult) (acc : Z) :
  fold_left (fun cap0 g => if failed g then Z.min cap0 (cap g) else cap0) gs acc <= acc.
Proof.
  revert acc. induction gs as [|g gs IH]; intros acc; cbn [fold_left]; [lia|].
  destruct (failed g); [|apply IH].
  etrans; [apply IH|]. lia.
Qed.

Lemma determine_cap_le_failed (gs : list GateResult) (acc : Z) g :
  g ∈ gs → failed g = true →
  fold_left (fun cap0 g => if failed g then Z.min cap0 (cap g) else cap0) gs acc <= cap g.
Proof.
  revert acc. induction gs as [|g' gs IH]; intros acc Hin Hf.
  - by apply elem_of_nil in Hin.
  - cbn [fold_left]. apply elem_of_cons in Hin as [<-|Hin].
    + rewrite Hf. etrans; [apply determine_cap_le_acc|]. lia.
    + by apply IH.
Qed.

Lemma grade_bands (score : Z) :
  (grade_from_score score = "A" ↔ 85 <= score)
  ∧ (grade_from_score score = "B" ↔ 70 <= score < 85)
  ∧ (grade_from_score score = "C" ↔ 55 <= score < 70)
  ∧ (grade_from_score score = "D" ↔ 40 <= score < 55)
  ∧ (grade_from_score score = "F" ↔ score < 40).
Proof.
  unfold grade_from_score.
  destruct (Z.leb_spec 85 score); [split_and!; split; (discriminate || lia || done)|].
  destruct (Z.leb_spec 70 score); [split_and!; split; (discriminate || lia || done)|].
  destruct (Z.leb_spec 55 score); [split_and!; split; (discriminate || lia || done)|].
  destruct (Z.leb_spec 40 score); split_and!; split; (discriminate || lia || done).
Qed.

(** A failed gate bounds the result: the final score is at most the cap of
    every failed gate, so no failed gate leaves grade A, a failed gate
    capped below 70 leaves no B and one capped below 55 no C. *)
Theorem failed_gate_limits_grade answers :
  ∃ sb, score_assessment answers = Some sb
    ∧ grade sb ∈ ["A"; "B"; "C"; "D"; "F"]
    ∧ ∀ g, g ∈ gates sb → failed g = true →
        final_score sb <= cap g
        ∧ cap g ∈ [40; 50; 55; 65; 70]
        ∧ grade sb ≠ "A"
        ∧ (cap g < 70 → grade sb ≠ "B")
        ∧ (cap g < 55 → grade sb ≠ "C").
Proof.
  destruct (score_assessment_total answers) as (z & _ & _ & ->).
  eexists; split; [reflexivity|].
  change (grade (breakdown_of answers z))
    with (grade_from_score (final_score (breakdown_of answers z))).
  destruct (grade_bands (final_score (breakdown_of answers z)))
    as (HA & HB & HC & HD & HF).
  split.
  { unfold grade_from_score. rewrite !elem_of_cons.
    repeat (match goal with |- context [if ?c then _ else _] => destruct c end); auto 10. }
  intros g Hin Hf.
  assert (Hle : final_score (breakdown_of answers z) <= cap g).
  { rewrite final_score_eq, cap_applied_eq. unfold determine_cap.
    pose proof (determine_cap_le_failed (gates (breakdown_of answers z)) 100 g Hin Hf).
    lia. }
  assert (Hcap : cap g ∈ [40; 50; 55; 65; 70]).
  { rewrite gates_eq in Hin. rewrite !elem_of_cons in *.
    destruct Hin as [->|[->|[->|[->|[->|Hin]]]]]; cbn [cap]; auto 10.
    by apply elem_of_nil in Hin. }
  split; [exact Hle|]. split; [exact Hcap|].
  rewrite !elem_of_cons, elem_of_nil in Hcap.
  rewrite HA, HB, HC. split_and!; lia.
Qed.

(** *** The perfect score *)

Lemma py_round_zero (m : spec_float) (z : Z) :
  m ∈ [f_1_0; f_1_1; f_1_25; f_1_5] →
  F64.py_round (F64.mul (F64.of_int 0) m) = Some z → z = 0.
Proof.
  rewrite !elem_of_cons, !elem_of_nil.
  intros Hm Hz.
  destruct Hm as [->|[->|[->|[->|[]]]]]; vm_compute in Hz; by injection Hz.
Qed.

Lemma determine_cap_100 b1 b2 b3 b4 b5 r1 r2 r3 r4 r5 :
  determine_cap [ mkGateResult "G1" b1 40 r1; mkGateResult "G2" b2 50 r2;
                  mkGateResult "G3" b3 55 r3; mkGateResult "G4" b4 65 r4;
                  mkGateResult "G5" b5 70 r5 ] = 100
  ↔ b1 = false ∧ b2 = false ∧ b3 = false ∧ b4 = false ∧ b5 = false.
Proof.
  destruct b1, b2, b3, b4, b5; vm_compute;
    (split; [intros H; try discriminate H; by split_and!
            | intros (? & ? & ? & ? & ?); try discriminate; reflexivity]).
Qed.

Lemma pts_zero b p : 0 < p → pts b p = 0 → b = false.
Proof. destruct b; cbn; [lia|done]. Qed.

Lemma pts_nonneg b p : 0 <= p → 0 <= pts b p.
Proof. destruct b; cbn; lia. Qed.

Lemma raw_nil_rules answers :
  raw_failed_controls answers = [] ↔
  rule_wan_admin answers = false ∧ rule_port_forwarding answers = false
  ∧ rule_admin_mfa answers = false ∧ rule_flat answers = false
  ∧ rule_partial answers = false ∧ rule_guest answers = false
  ∧ rule_iot answers = false ∧ rule_wifi_open answers = false
  ∧ rule_wifi_psk answers = false ∧ rule_client_isolation answers = false
  ∧ rule_unused_ports answers = false ∧ rule_backups answers = false
  ∧ rule_logging answers = false ∧ rule_firmware answers = false.
Proof.
  split.
  - destruct (raw_failed_controls_elem answers) as
      (H1 & H2 & H3 & H4 & H5 & H6 & H7 & H8 & H9 & H10 & H11 & H12 & H13 & H14).
    cbv zeta in *. intros Hnil. rewrite Hnil in *.
    assert (N : ∀ b c, (c ∈ @nil string ↔ b = true) → b = false).
    { intros b c Hiff. destruct b; [|done].
      exfalso. eapply (proj1 (elem_of_nil c)). by apply Hiff. }
    apply N in H1, H2, H3, H4, H5, H6, H7, H8, H9, H10, H11, H12, H13, H14.
    by split_and!.
  - intros (V1 & V2 & V3 & V4 & V5 & V6 & V7 & V8 & V9 & V10 & V11 & V12 & V13 & V14).
    rewrite raw_failed_controls_closed.
    by rewrite V1, V2, V3, V4, V5, V6, V7, V8, V9, V10, V11, V12, V13, V14.
Qed.

(** The score is 100 exactly when the failed-control list is empty; then
    every deduction is 0, no gate has failed, the cap is 100 and the grade
    is A, whatever the device bucket. *)
Theorem perfect_score_iff_no_failed_control answers :
  ∃ sb, score_assessment answers = Some sb
    ∧ (final_score sb = 100 ↔ failed_controls sb = [])
    ∧ (failed_controls sb = [] →
       deductions sb !! "total" = Some 0
       ∧ deductions sb !! "segmentation_scaled" = Some 0
       ∧ raw_score sb = 100 ∧ cap_applied sb = 100 ∧ grade sb = "A"
       ∧ Forall (fun g => failed g = false) (gates sb)).
Proof.
  destruct (score_assessment_total answers) as (z & Hz & Hb & ->).
  eexists; split; [reflexivity|].
  rewrite failed_controls_raw.
  destruct (category_ranges answers) as (Hp & Hs & Hw & Hh).
  pose proof (py_round_scaled_ge _ _ _ (segmentation_ded_cases answers)
                (multiplier_cases answers) Hz) as Hge.
  destruct (cap_applied_spec answers z) as [_ Hcap].
  assert (Hfwd : raw_failed_controls answers = [] →
            z = 0 ∧ perimeter_ded answers = 0 ∧ wireless_ded answers = 0
            ∧ hygiene_ded answers = 0
            ∧ gates (breakdown_of answers z) =
                [ mkGateResult "G1" false 40 (g1_reasons answers);
                  mkGateResult "G2" false 50 (g2_reasons answers);
                  mkGateResult "G3" false 55 (g3_reasons answers);
                  mkGateResult "G4" false 65 (g4_reasons answers);
                  mkGateResult "G5" false 70 (g5_reasons answers) ]).
  { intros (V1 & V2 & V3 & V4 & V5 & V6 & V7 & V8 & V9 & V10 & V11 & V12 & V13 & V14)
      %raw_nil_rules.
    assert (Hs0 : segmentation_ded answers = 0)
      by (rewrite segmentation_ded_closed, V4, V5, V7; reflexivity).
    rewrite Hs0 in Hz.
    split; [exact (py_round_zero _ _ (multiplier_cases answers) Hz)|].
    rewrite perimeter_ded_closed, wireless_ded_closed, hygiene_ded_closed, gates_closed.
    by rewrite V1, V2, V3, V6, V4, V8, V9, V10, V11, V12, V13, V14. }
  split; [split|].
  - intros Hfinal. rewrite final_score_eq in Hfinal.
    pose proof (raw_score_bounds answers z) as Hraw.
    assert (Hr : raw_score (breakdown_of answers z) = 100) by lia.
    assert (Hc : cap_applied (breakdown_of answers z) = 100) by lia.
    rewrite raw_score_closed in Hr by lia.
    rewrite cap_applied_eq, gates_closed in Hc.
    apply determine_cap_100 in Hc as (G1 & G2 & G3 & G4 & G5).
    apply orb_false_iff in G1 as [V1 V2].
    assert (P0 : perimeter_ded answers = 0) by lia.
    assert (S0 : segmentation_ded answers = 0) by lia.
    assert (W0 : wireless_ded answers = 0) by lia.
    assert (H0 : hygiene_ded answers = 0) by lia.
    rewrite perimeter_ded_closed, V1, V2 in P0. cbn [pts] in P0.
    rewrite segmentation_ded_closed, G3 in S0. cbn [pts] in S0.
    rewrite hygiene_ded_closed, G4, G5 in H0. cbn [pts] in H0.
    rewrite wireless_ded_closed in W0.
    pose proof (pts_nonneg (rule_partial answers) 10).
    pose proof (pts_nonneg (rule_iot answers) 10).
    pose proof (pts_nonneg (rule_wifi_open answers) 15).
    pose proof (pts_nonneg (rule_wifi_psk answers) 7).
    pose proof (pts_nonneg (rule_client_isolation answers) 8).
    pose proof (pts_nonneg (rule_unused_ports answers) 7).
    pose proof (pts_nonneg (rule_firmware answers) 7).
    apply raw_nil_rules. split_and!; try assumption;
      first [ apply (pts_zero _ 10); lia | apply (pts_zero _ 15); lia
            | apply (pts_zero _ 7); lia | apply (pts_zero _ 8); lia ].
  - intros Hnil. destruct (Hfwd Hnil) as (-> & P0 & W0 & H0 & HG).
    rewrite final_score_eq, raw_score_closed, cap_applied_eq, HG, P0, W0, H0 by lia.
    reflexivity.
  - intros Hnil. destruct (Hfwd Hnil) as (-> & P0 & W0 & H0 & HG).
    destruct (deductions_lookup answers 0) as (_ & _ & Lsc & _ & _ & _ & Lt).
    cbv zeta in *. rewrite Lsc, Lt.
    change (grade (breakdown_of answers 0))
      with (grade_from_score (final_score (breakdown_of answers 0))).
    rewrite final_score_eq, raw_score_closed, cap_applied_eq, HG, P0, W0, H0 by lia.
    split_and!; try reflexivity.
    repeat constructor.
Qed.

(** *** Advisory notes *)

Lemma filter_eq_nil_iff (P : string → Prop) `{!∀ x, Decision (P x)} (l : list string) :
  filter P l = [] ↔ ∀ x, x ∈ l → ¬ P x.
Proof.
  split.
  - intros Hnil x Hx HP.
    assert (Hin : x ∈ filter P l) by (apply list_elem_of_filter; done).
    rewrite Hnil in Hin. by apply elem_of_nil in Hin.
  - intros Hall. induction l as [|y l IH]; [done|].
    rewrite filter_cons_False by (apply Hall; left).
    apply IH. intros x Hx. apply Hall. by right.
Qed.

Lemma filter_eq_singleton (P : string → Prop) `{!∀ x, Decision (P x)}
    (l : list string) (x : string) :
  NoDup l → x ∈ l → (∀ y, y ∈ l → P y ↔ y = x) → filter P l = [x].
Proof.
  induction 1 as [|y l Hy Hnd IH]; intros Hx HP.
  - by apply elem_of_nil in Hx.
  - apply elem_of_cons in Hx as [->|Hx].
    + rewrite filter_cons_True by (apply HP; [left|done]).
      f_equal. apply filter_eq_nil_iff. intros z Hz HPz.
      apply HP in HPz; [|by right]. by subst.
    + rewrite filter_cons_False.
      * apply IH; [done|]. intros z Hz. apply HP. by right.
      * intros HPy. apply HP in HPy; [|left]. by subst.
Qed.

Lemma missing_note_nil answers :
  missing_note answers = [] ↔ ∀ q, q ∈ REQUIRED_SCORED_QIDS → is_Some (answers !! q).
Proof.
  unfold missing_note.
  destruct (_missing_required_scored_answers answers) as [|m ms] eqn:E.
  - split; [intros _|done]. intros q Hq.
    unfold _missing_required_scored_answers in E.
    apply (proj1 (filter_eq_nil_iff _ _) E) in Hq.
    destruct (answers !! q); [by eexists | done].
  - split; [discriminate|]. intros Hall. exfalso.
    assert (Hm : m ∈ _missing_required_scored_answers answers) by (rewrite E; left).
    apply list_elem_of_filter in Hm as [Hnone Hin].
    destruct (Hall m Hin) as [v Hv]. congruence.
Qed.

Lemma bucket_note_nil answers :
  bucket_note answers = [] ↔
  ∀ v, answers !! "A1_DEVICE_COUNT" = Some v → is_Some (DEVICE_MULTIPLIER !! v).
Proof.
  unfold bucket_note, device_bucket.
  destruct (answers !! "A1_DEVICE_COUNT") as [v|] eqn:E; cbn [default from_option id].
  - destruct (decide (is_Some (DEVICE_MULTIPLIER !! v))) as [Hs|Hn].
    + split; [|done]. by intros _ ? [= <-].
    + split; [discriminate|]. intros H. destruct Hn. by apply H.
  - destruct (decide (is_Some (DEVICE_MULTIPLIER !! "R_50_200"))) as [Hs|Hn].
    + split; [|done]. by intros _ ? [=].
    + destruct Hn. by vm_compute; eexists.
Qed.

(** The advisory notes: there are at most two; there is none exactly when
    every scored question has an answer and the device-count answer, if
    given, is a bucket of the table. *)
Theorem notes_empty_iff answers :
  ∃ sb, score_assessment answers = Some sb
    ∧ (length (notes sb) <= 2)%nat
    ∧ (notes sb = [] ↔
         (∀ q, q ∈ REQUIRED_SCORED_QIDS → is_Some (answers !! q))
         ∧ (∀ v, answers !! "A1_DEVICE_COUNT" = Some v →
                 is_Some (DEVICE_MULTIPLIER !! v))).
Proof.
  destruct (score_assessment_total answers) as (z & _ & _ & ->).
  eexists; split; [reflexivity|].
  change (notes (breakdown_of answers z))
    with (missing_note answers ++ bucket_note answers).
  split.
  - rewrite length_app.
    assert ((length (missing_note answers) <= 1)%nat)
      by (unfold missing_note; destruct (_missing_required_scored_answers answers);
          cbn; lia).
    assert ((length (bucket_note answers) <= 1)%nat)
      by (unfold bucket_note; case_decide; cbn; lia).
    lia.
  - rewrite <- missing_note_nil, <- bucket_note_nil. split.
    + intros H. by apply app_eq_nil in H.
    + intros [-> ->]. reflexivity.
Qed.

(** Leaving out one scored question of an otherwise complete answer set
    gives exactly one note, which names that question. *)
Theorem missing_question_note answers qid :
  qid ∈ REQUIRED_SCORED_QIDS →
  (∀ q, q ∈ REQUIRED_SCORED_QIDS → q ≠ qid → is_Some (answers !! q)) →
  (∀ v, answers !! "A1_DEVICE_COUNT" = Some v → is_Some (DEVICE_MULTIPLIER !! v)) →
  ∃ sb, score_assessment (set_answer answers qid None) = Some sb
        ∧ notes sb = [String.append missing_note_prefix qid].
Proof.
  intros Hq Hothers Hbucket.
  destruct (score_assessment_total (set_answer answers qid None)) as (z & _ & _ & ->).
  eexists; split; [reflexivity|].
  change (notes (breakdown_of (set_answer answers qid None) z))
    with (missing_note (set_answer answers qid None)
          ++ bucket_note (set_answer answers qid None)).
  assert (HA1 : qid ≠ "A1_DEVICE_COUNT").
  { intros ->. unfold REQUIRED_SCORED_QIDS in Hq.
    rewrite !elem_of_cons, elem_of_nil in Hq.
    repeat (destruct Hq as [Hq|Hq]; [discriminate Hq|]). done. }
  assert (Hb : bucket_note (set_answer answers qid None) = []).
  { apply bucket_note_nil. intros v. rewrite set_answer_lookup_ne by done.
    apply Hbucket. }
  rewrite Hb, app_nil_r.
  assert (Hm : _missing_required_scored_answers (set_answer answers qid None) = [qid]).
  { unfold _missing_required_scored_answers.
    apply filter_eq_singleton; [|done|].
    - apply (bool_decide_unpack _). vm_compute. exact I.
    - intros y Hy. rewrite set_answer_lookup. case_decide as Hdec.
      + split; [by intros _|done].
      + split; [|by intros ->].
        intros Hnone. destruct (Hothers y Hy) as [v Hv]; [congruence|congruence]. }
  unfold missing_note. rewrite Hm. reflexivity.
Qed.

Lemma missing_question_note_witness :
  ∃ sb, score_assessment (set_answer answers_all_failing "F2_CONFIG_BACKUPS" None) = Some sb
        ∧ notes sb = [String.append missing_note_prefix "F2_CONFIG_BACKUPS"].
Proof.
  apply (missing_question_note answers_all_failing "F2_CONFIG_BACKUPS").
  - apply (bool_decide_unpack _). vm_compute. exact I.
  - intros q Hq _. revert q Hq. apply Forall_forall.
    repeat (apply Forall_cons; split; [by vm_compute; eexists|]).
    apply Forall_nil_2.
  - intros v Hv. vm_compute in Hv. injection Hv as <-. by vm_compute; eexists.
Defined.

(** *** The device bucket *)

Lemma breakdown_ext answers1 answers2 z1 z2 :
  verdicts answers1 = verdicts answers2 →
  multiplier answers1 = multiplier answers2 →
  missing_note answers1 = missing_note answers2 →
  bucket_note answers1 = bucket_note answers2 →
  z1 = z2 →
  breakdown_of answers1 z1 = breakdown_of answers2 z2.
Proof.
  intros HV Hm Hmn Hbn ->.
  destruct (passes_ext answers1 answers2 [] HV) as (_ & _ & _ & _ & Hg).
  destruct (deductions_ext answers1 answers2 HV) as (Hp & Hs & Hw & Hh & Hc).
  unfold breakdown_of. by rewrite Hp, Hs, Hw, Hh, Hc, Hg, Hm, Hmn, Hbn.
Qed.

Lemma cap_ext answers1 answers2 z1 z2 :
  verdicts answers1 = verdicts answers2 →
  cap_applied (breakdown_of answers1 z1) = cap_applied (breakdown_of answers2 z2).
Proof.
  intros HV. destruct (passes_ext answers1 answers2 [] HV) as (_ & _ & _ & _ & Hg).
  change (determine_cap (default [] (eval_gates answers1))
          = determine_cap (default [] (eval_gates answers2))).
  by rewrite Hg.
Qed.

Lemma missing_note_set_device answers v :
  missing_note (set_answer answers "A1_DEVICE_COUNT" v) = missing_note answers.
Proof.
  unfold missing_note, _missing_required_scored_answers, REQUIRED_SCORED_QIDS.
  assert (E : ∀ l : list string, "A1_DEVICE_COUNT" ∉ l →
            filter (fun qid => set_answer answers "A1_DEVICE_COUNT" v !! qid = None) l
            = filter (fun qid => answers !! qid = None) l).
  { induction l as [|q l IH]; intros Hq; [done|].
    apply not_elem_of_cons in Hq as [Hne Hq].
    rewrite !filter_cons, set_answer_lookup_ne by done.
    by rewrite IH. }
  rewrite E; [done|].
  apply (bool_decide_unpack _). vm_compute. exact I.
Qed.

(** An absent device-count answer is the answer [R_50_200]: the two
    results agree in every field, notes included. *)
Theorem absent_bucket_is_default answers :
  score_assessment (set_answer answers "A1_DEVICE_COUNT" None)
  = score_assessment (set_answer answers "A1_DEVICE_COUNT" (Some "R_50_200")).
Proof.
  rewrite !score_assessment_eq.
  assert (HV : verdicts (set_answer answers "A1_DEVICE_COUNT" None)
               = verdicts (set_answer answers "A1_DEVICE_COUNT" (Some "R_50_200")))
    by (by rewrite !set_device_verdicts).
  destruct (deductions_ext _ _ HV) as (_ & Hs & _).
  assert (Hm : multiplier (set_answer answers "A1_DEVICE_COUNT" None)
               = multiplier (set_answer answers "A1_DEVICE_COUNT" (Some "R_50_200"))).
  { unfold multiplier, device_bucket. by rewrite !set_answer_lookup. }
  rewrite Hs, Hm.
  destruct (F64.py_round _) as [z|]; [|reflexivity].
  cbn [mbind option_bind]. f_equal.
  apply breakdown_ext; try done.
  - by rewrite !missing_note_set_device.
  - unfold bucket_note, device_bucket. by rewrite !set_answer_lookup.
Qed.

Lemma multiplier_of_bucket answers v m :
  DEVICE_MULTIPLIER !! v = Some m →
  multiplier (set_answer answers "A1_DEVICE_COUNT" (Some v)) = m.
Proof.
  intros H. unfold multiplier, device_bucket.
  rewrite set_answer_lookup. rewrite decide_True by done. cbn. by rewrite H.
Qed.

(** Scaling is monotone in the bucket, for every raw deduction. *)
Lemma py_round_buckets (n z0 z1 z2 z3 : Z) :
  n ∈ [0; 10; 20; 25; 35] →
  F64.py_round (F64.mul (F64.of_int n) f_1_0) = Some z0 →
  F64.py_round (F64.mul (F64.of_int n) f_1_1) = Some z1 →
  F64.py_round (F64.mul (F64.of_int n) f_1_25) = Some z2 →
  F64.py_round (F64.mul (F64.of_int n) f_1_5) = Some z3 →
  z0 = n ∧ z0 <= z1 <= z2 ∧ z2 <= z3.
Proof.
  rewrite !elem_of_cons, !elem_of_nil.
  intros Hn H0 H1 H2 H3.
  destruct Hn as [->|[->|[->|[->|[->|[]]]]]];
    vm_compute in H0; vm_compute in H1; vm_compute in H2; vm_compute in H3;
    injection H0 as <-; injection H1 as <-; injection H2 as <-; injection H3 as <-;
    lia.
Qed.

(** A larger device bucket never raises the score: along the buckets
    [LT_50], [R_50_200], [R_200_500], [R_500_1000] the scaled segmentation
    deduction does not decrease (for [LT_50] it is the raw deduction) and
    the raw and final scores do not increase, while the cap stays the
    same. *)
Theorem larger_bucket_never_raises_score answers :
  ∃ sb0 sb1 sb2 sb3 s sc0 sc1 sc2 sc3,
    score_assessment (set_answer answers "A1_DEVICE_COUNT" (Some "LT_50")) = Some sb0
    ∧ score_assessment (set_answer answers "A1_DEVICE_COUNT" (Some "R_50_200")) = Some sb1
    ∧ score_assessment (set_answer answers "A1_DEVICE_COUNT" (Some "R_200_500")) = Some sb2
    ∧ score_assessment (set_answer answers "A1_DEVICE_COUNT" (Some "R_500_1000")) = Some sb3
    ∧ deductions sb0 !! "segmentation" = Some s
    ∧ deductions sb0 !! "segmentation_scaled" = Some sc0
    ∧ deductions sb1 !! "segmentation_scaled" = Some sc1
    ∧ deductions sb2 !! "segmentation_scaled" = Some sc2
    ∧ deductions sb3 !! "segmentation_scaled" = Some sc3
    ∧ sc0 = s ∧ sc0 <= sc1 <= sc2 ∧ sc2 <= sc3
    ∧ raw_score sb3 <= raw_score sb2 <= raw_score sb1 ∧ raw_score sb1 <= raw_score sb0
    ∧ final_score sb3 <= final_score sb2 <= final_score sb1
    ∧ final_score sb1 <= final_score sb0
    ∧ cap_applied sb0 = cap_applied sb1 ∧ cap_applied sb1 = cap_applied sb2
    ∧ cap_applied sb2 = cap_applied sb3.
Proof.
  set (a0 := set_answer answers "A1_DEVICE_COUNT" (Some "LT_50")).
  set (a1 := set_answer answers "A1_DEVICE_COUNT" (Some "R_50_200")).
  set (a2 := set_answer answers "A1_DEVICE_COUNT" (Some "R_200_500")).
  set (a3 := set_answer answers "A1_DEVICE_COUNT" (Some "R_500_1000")).
  destruct (score_assessment_total a0) as (z0 & Hz0 & Hb0 & ->).
  destruct (score_assessment_total a1) as (z1 & Hz1 & Hb1 & ->).
  destruct (score_assessment_total a2) as (z2 & Hz2 & Hb2 & ->).
  destruct (score_assessment_total a3) as (z3 & Hz3 & Hb3 & ->).
  assert (V1 : verdicts a1 = verdicts a0) by (unfold a0, a1; by rewrite !set_device_verdicts).
  assert (V2 : verdicts a2 = verdicts a0) by (unfold a0, a2; by rewrite !set_device_verdicts).
  assert (V3 : verdicts a3 = verdicts a0) by (unfold a0, a3; by rewrite !set_device_verdicts).
  destruct (deductions_ext _ _ V1) as (P1 & S1 & W1 & Y1 & _).
  destruct (deductions_ext _ _ V2) as (P2 & S2 & W2 & Y2 & _).
  destruct (deductions_ext _ _ V3) as (P3 & S3 & W3 & Y3 & _).
  rewrite S1 in Hz1. rewrite S2 in Hz2. rewrite S3 in Hz3.
  unfold a0 in Hz0 at 2. unfold a1 in Hz1. unfold a2 in Hz2. unfold a3 in Hz3.
  rewrite (multiplier_of_bucket answers "LT_50" f_1_0) in Hz0 by reflexivity.
  rewrite (multiplier_of_bucket answers "R_50_200" f_1_1) in Hz1 by reflexivity.
  rewrite (multiplier_of_bucket answers "R_200_500" f_1_25) in Hz2 by reflexivity.
  rewrite (multiplier_of_bucket answers "R_500_1000" f_1_5) in Hz3 by reflexivity.
  pose proof (py_round_buckets _ _ _ _ _ (segmentation_ded_cases a0) Hz0 Hz1 Hz2 Hz3)
    as (E0 & O1 & O2).
  destruct (deductions_lookup a0 z0) as (_ & Ls & L0 & _).
  destruct (deductions_lookup a1 z1) as (_ & _ & L1 & _).
  destruct (deductions_lookup a2 z2) as (_ & _ & L2 & _).
  destruct (deductions_lookup a3 z3) as (_ & _ & L3 & _).
  cbv zeta in *.
  exists (breakdown_of a0 z0), (breakdown_of a1 z1), (breakdown_of a2 z2),
    (breakdown_of a3 z3), (segmentation_ded a0), z0, z1, z2, z3.
  do 4 (split; [reflexivity|]).
  do 5 (split; [assumption|]).
  rewrite !final_score_eq.
  rewrite (cap_ext a1 a0 z1 z0 V1), (cap_ext a2 a0 z2 z0 V2), (cap_ext a3 a0 z3 z0 V3).
  rewrite !raw_score_closed by lia.
  rewrite P1, P2, P3, W1, W2, W3, Y1, Y2, Y3.
  split_and!; lia.
Qed.

(** *** Worst-case answers *)

Lemma rules_as_verdicts answers :
  verdicts answers =
    [ rule_wan_admin answers; rule_port_forwarding answers; rule_admin_mfa answers;
      rule_flat answers; eqs (d2 answers) "PARTIAL"; rule_guest answers;
      rule_iot answers; rule_wifi_open answers; eqs (e1 answers) "PSK";
      rule_client_isolation answers; rule_unused_ports answers;
      rule_backups answers; rule_logging answers; rule_firmware answers ].
Proof. reflexivity. Qed.

Lemma py_round_mono (n1 n2 : Z) (m : spec_float) (z1 z2 : Z) :
  n1 ∈ [0; 10; 20; 25; 35] → n2 ∈ [0; 10; 20; 25; 35] →
  m ∈ [f_1_0; f_1_1; f_1_25; f_1_5] → n1 <= n2 →
  F64.py_round (F64.mul (F64.of_int n1) m) = Some z1 →
  F64.py_round (F64.mul (F64.of_int n2) m) = Some z2 →
  z1 <= z2.
Proof.
  rewrite !elem_of_cons, !elem_of_nil.
  intros Hn1 Hn2 Hm Hle H1 H2.
  destruct Hn1 as [->|[->|[->|[->|[->|[]]]]]];
    destruct Hn2 as [->|[->|[->|[->|[->|[]]]]]]; try lia;
    destruct Hm as [->|[->|[->|[->|[]]]]];
    vm_compute in H1; vm_compute in H2;
    injection H1 as <-; injection H2 as <-; lia.
Qed.

Lemma determine_cap_closed b1 b2 b3 b4 b5 r1 r2 r3 r4 r5 :
  determine_cap [ mkGateResult "G1" b1 40 r1; mkGateResult "G2" b2 50 r2;
                  mkGateResult "G3" b3 55 r3; mkGateResult "G4" b4 65 r4;
                  mkGateResult "G5" b5 70 r5 ]
  = Z.min (capc b1 40) (Z.min (capc b2 50) (Z.min (capc b3 55)
      (Z.min (capc b4 65) (capc b5 70)))).
Proof. destruct b1, b2, b3, b4, b5; reflexivity. Qed.

(** More deductions and more failed gates cannot raise the score. *)
Lemma score_order answers answers' z z' :
  F64.py_round (F64.mul (F64.of_int (segmentation_ded answers)) (multiplier answers)) = Some z →
  F64.py_round (F64.mul (F64.of_int (segmentation_ded answers')) (multiplier answers')) = Some z' →
  multiplier answers' = multiplier answers →
  perimeter_ded answers <= perimeter_ded answers' →
  segmentation_ded answers <= segmentation_ded answers' →
  wireless_ded answers <= wireless_ded answers' →
  hygiene_ded answers <= hygiene_ded answers' →
  implb (rule_wan_admin answers || rule_port_forwarding answers)
        (rule_wan_admin answers' || rule_port_forwarding answers') = true →
  implb (rule_guest answers) (rule_guest answers') = true →
  implb (rule_flat answers) (rule_flat answers') = true →
  implb (rule_backups answers) (rule_backups answers') = true →
  implb (rule_logging answers) (rule_logging answers') = true →
  final_score (breakdown_of answers' z') <= final_score (breakdown_of answers z)
  ∧ raw_score (breakdown_of answers' z') <= raw_score (breakdown_of answers z)
  ∧ cap_applied (breakdown_of answers' z') <= cap_applied (breakdown_of answers z).
Proof.
  intros Hz Hz' Hm Hp Hs Hw Hh G1 G2 G3 G4 G5.
  rewrite Hm in Hz'.
  pose proof (py_round_mono _ _ _ _ _ (segmentation_ded_cases answers)
                (segmentation_ded_cases answers') (multiplier_cases answers) Hs Hz Hz')
    as Hzz.
  pose proof (py_round_scaled_ge _ _ _ (segmentation_ded_cases answers)
                (multiplier_cases answers) Hz) as Hge.
  destruct (category_ranges answers) as (_ & Hs0 & _).
  assert (Hcap : cap_applied (breakdown_of answers' z')
                 <= cap_applied (breakdown_of answers z)).
  { rewrite !cap_applied_eq, !gates_closed, !determine_cap_closed.
    destruct (rule_wan_admin answers || rule_port_forwarding answers),
      (rule_wan_admin answers' || rule_port_forwarding answers'),
      (rule_guest answers), (rule_guest answers'),
      (rule_flat answers), (rule_flat answers'),
      (rule_backups answers), (rule_backups answers'),
      (rule_logging answers), (rule_logging answers');
      try discriminate; cbn [capc]; lia. }
  rewrite !final_score_eq, !raw_score_closed by lia.
  split_and!; lia.
Qed.

Ltac rule_atoms answers :=
  repeat match goal with
         | |- context [rule_wan_admin answers] => destruct (rule_wan_admin answers)
         | |- context [rule_port_forwarding answers] => destruct (rule_port_forwarding answers)
         | |- context [rule_admin_mfa answers] => destruct (rule_admin_mfa answers)
         | |- context [rule_flat answers] => destruct (rule_flat answers)
         | |- context [eqs (d2 answers) "PARTIAL"] => destruct (eqs (d2 answers) "PARTIAL")
         | |- context [rule_guest answers] => destruct (rule_guest answers)
         | |- context [rule_iot answers] => destruct (rule_iot answers)
         | |- context [rule_wifi_open answers] => destruct (rule_wifi_open answers)
         | |- context [eqs (e1 answers) "PSK"] => destruct (eqs (e1 answers) "PSK")
         | |- context [rule_client_isolation answers] => destruct (rule_client_isolation answers)
         | |- context [rule_unused_ports answers] => destruct (rule_unused_ports answers)
         | |- context [rule_backups answers] => destruct (rule_backups answers)
         | |- context [rule_logging answers] => destruct (rule_logging answers)
         | |- context [rule_firmware answers] => destruct (rule_firmware answers)
         end.

Ltac worse_case answers HV :=
  rewrite rules_as_verdicts in HV;
  injection HV; intros;
  eapply score_order; [eassumption | eassumption | by apply multiplier_set | ..];
  rewrite ?perimeter_ded_closed, ?segmentation_ded_closed, ?wireless_ded_closed,
    ?hygiene_ded_closed;
  unfold rule_partial, rule_wifi_psk;
  repeat match goal with
         | H : ?l = _ |- context [?l] => rewrite H
         end;
  clear;
  rule_atoms answers; cbn; first [reflexivity | lia].

(** Replacing the answer to a scored question by its worst-case option
    never raises the raw score, the cap or the final score. *)
Theorem worst_case_never_raises_score answers qid worst :
  (qid, worst) ∈ WORST_CASE →
  ∃ sb sb',
    score_assessment answers = Some sb
    ∧ score_assessment (set_answer answers qid (Some worst)) = Some sb'
    ∧ final_score sb' <= final_score sb
    ∧ raw_score sb' <= raw_score sb
    ∧ cap_applied sb' <= cap_applied sb.
Proof.
  intros Hq.
  destruct (score_assessment_total answers) as (z & Hz & _ & ->).
  destruct (score_assessment_total (set_answer answers qid (Some worst)))
    as (z' & Hz' & _ & ->).
  do 2 eexists. split; [reflexivity|]. split; [reflexivity|].
  unfold WORST_CASE in Hq. rewrite !elem_of_cons, elem_of_nil in Hq.
  destruct Hq as [[= -> ->]|[[= -> ->]|[[= -> ->]|[[= -> ->]|[[= -> ->]|[[= -> ->]|
    [[= -> ->]|[[= -> ->]|[[= -> ->]|[[= -> ->]|[[= -> ->]|[[= -> ->]|[]]]]]]]]]]]]].
  - assert (HV : verdicts (set_answer answers "C1_WAN_ADMIN_EXPOSURE" (Some "YES"))
               = [ true;
          rule_port_forwarding answers;
          rule_admin_mfa answers;
          rule_flat answers;
          eqs (d2 answers) "PARTIAL";
          rule_guest answers;
          rule_iot answers;
          rule_wifi_open answers;
          eqs (e1 answers) "PSK";
          rule_client_isolation answers;
          rule_unused_ports answers;
          rule_backups answers;
          rule_logging answers;
          rule_firmware answers ])
      by (rewrite verdicts_set; reflexivity).
    worse_case answers HV.
  - assert (HV : verdicts (set_answer answers "C2_REMOTE_ACCESS_METHOD" (Some "PORT_FORWARDING"))
               = [ rule_wan_admin answers;
          true;
          rule_admin_mfa answers;
          rule_flat answers;
          eqs (d2 answers) "PARTIAL";
          rule_guest answers;
          rule_iot answers;
          rule_wifi_open answers;
          eqs (e1 answers) "PSK";
          rule_client_isolation answers;
          rule_unused_ports answers;
          rule_backups answers;
          rule_logging answers;
          rule_firmware answers ])
      by (rewrite verdicts_set; reflexivity).
    worse_case answers HV.
  - assert (HV : verdicts (set_answer answers "C3_ADMIN_MFA" (Some "NO"))
               = [ rule_wan_admin answers;
          rule_port_forwarding answers;
          true;
          rule_flat answers;
          eqs (d2 answers) "PARTIAL";
          rule_guest answers;
          rule_iot answers;
          rule_wifi_open answers;
          eqs (e1 answers) "PSK";
          rule_client_isolation answers;
          rule_unused_ports answers;
          rule_backups answers;
          rule_logging answers;
          rule_firmware answers ])
      by (rewrite verdicts_set; reflexivity).
    worse_case answers HV.
  - assert (HV : verdicts (set_answer answers "D1_GUEST_INTERNAL_ACCESS" (Some "YES"))
               = [ rule_wan_admin answers;
          rule_port_forwarding answers;
          rule_admin_mfa answers;
          rule_flat answers;
          eqs (d2 answers) "PARTIAL";
          true;
          rule_iot answers;
          rule_wifi_open answers;
          eqs (e1 answers) "PSK";
          rule_client_isolation answers;
          rule_unused_ports answers;
          rule_backups answers;
          rule_logging answers;
          rule_firmware answers ])
      by (rewrite verdicts_set; reflexivity).
    worse_case answers HV.
  - assert (HV : verdicts (set_answer answers "D2_VLAN_SEPARATION" (Some "FLAT"))
               = [ rule_wan_admin answers;
          rule_port_forwarding answers;
          rule_admin_mfa answers;
          true;
          false;
          rule_guest answers;
          rule_iot answers;
          rule_wifi_open answers;
          eqs (e1 answers) "PSK";
          rule_client_isolation answers;
          rule_unused_ports answers;
          rule_backups answers;
          rule_logging answers;
          rule_firmware answers ])
      by (rewrite verdicts_set; reflexivity).
    worse_case answers HV.
  - assert (HV : verdicts (set_answer answers "D3_IOT_WITH_FINANCE" (Some "YES"))
               = [ rule_wan_admin answers;
          rule_port_forwarding answers;
          rule_admin_mfa answers;
          rule_flat answers;
          eqs (d2 answers) "PARTIAL";
          rule_guest answers;
          true;
          rule_wifi_open answers;
          eqs (e1 answers) "PSK";
          rule_client_isolation answers;
          rule_unused_ports answers;
          rule_backups answers;
          rule_logging answers;
          rule_firmware answers ])
      by (rewrite verdicts_set; reflexivity).
    worse_case answers HV.
  - assert (HV : verdicts (set_answer answers "E1_CORP_WIFI_SECURITY" (Some "OPEN_OR_UNKNOWN"))
               = [ rule_wan_admin answers;
          rule_port_forwarding answers;
          rule_admin_mfa answers;
          rule_flat answers;
          eqs (d2 answers) "PARTIAL";
          rule_guest answers;
          rule_iot answers;
          true;
          false;
          rule_client_isolation answers;
          rule_unused_ports answers;
          rule_backups answers;
          rule_logging answers;
          rule_firmware answers ])
      by (rewrite verdicts_set; reflexivity).
    worse_case answers HV.
  - assert (HV : verdicts (set_answer answers "E2_GUEST_CLIENT_ISOLATION" (Some "NO"))
               = [ rule_wan_admin answers;
          rule_port_forwarding answers;
          rule_admin_mfa answers;
          rule_flat answers;
          eqs (d2 answers) "PARTIAL";
          rule_guest answers;
          rule_iot answers;
          rule_wifi_open answers;
          eqs (e1 answers) "PSK";
          true;
          rule_unused_ports answers;
          rule_backups answers;
          rule_logging answers;
          rule_firmware answers ])
      by (rewrite verdicts_set; reflexivity).
    worse_case answers HV.
  - assert (HV : verdicts (set_answer answers "F1_UNUSED_PORTS_RESTRICTED" (Some "NO"))
               = [ rule_wan_admin answers;
          rule_port_forwarding answers;
          rule_admin_mfa answers;
          rule_flat answers;
          eqs (d2 answers) "PARTIAL";
          rule_guest answers;
          rule_iot answers;
          rule_wifi_open answers;
          eqs (e1 answers) "PSK";
          rule_client_isolation answers;
          true;
          rule_backups answers;
          rule_logging answers;
          rule_firmware answers ])
      by (rewrite verdicts_set; reflexivity).
    worse_case answers HV.
  - assert (HV : verdicts (set_answer answers "F2_CONFIG_BACKUPS" (Some "NONE"))
               = [ rule_wan_admin answers;
          rule_port_forwarding answers;
          rule_admin_mfa answers;
          rule_flat answers;
          eqs (d2 answers) "PARTIAL";
          rule_guest answers;
          rule_iot answers;
          rule_wifi_open answers;
          eqs (e1 answers) "PSK";
          rule_client_isolation answers;
          rule_unused_ports answers;
          true;
          rule_logging answers;
          rule_firmware answers ])
      by (rewrite verdicts_set; reflexivity).
    worse_case answers HV.
  - assert (HV : verdicts (set_answer answers "F3_LOGGING_EXISTS" (Some "NO"))
               = [ rule_wan_admin answers;
          rule_port_forwarding answers;
          rule_admin_mfa answers;
          rule_flat answers;
          eqs (d2 answers) "PARTIAL";
          rule_guest answers;
          rule_iot answers;
          rule_wifi_open answers;
          eqs (e1 answers) "PSK";
          rule_client_isolation answers;
          rule_unused_ports answers;
          rule_backups answers;
          true;
          rule_firmware answers ])
      by (rewrite verdicts_set; reflexivity).
    worse_case answers HV.
  - assert (HV : verdicts (set_answer answers "F4_FIRMWARE_UPDATES" (Some "RARE"))
               = [ rule_wan_admin answers;
          rule_port_forwarding answers;
          rule_admin_mfa answers;
          rule_flat answers;
          eqs (d2 answers) "PARTIAL";
          rule_guest answers;
          rule_iot answers;
          rule_wifi_open answers;
          eqs (e1 answers) "PSK";
          rule_client_isolation answers;
          rule_unused_ports answers;
          rule_backups answers;
          rule_logging answers;
          true ])
      by (rewrite verdicts_set; reflexivity).
    worse_case answers HV.
Qed.

Lemma worst_case_never_raises_score_witness :
  ∃ sb sb',
    score_assessment answers_segmented = Some sb
    ∧ score_assessment (set_answer answers_segmented "D2_VLAN_SEPARATION" (Some "FLAT"))
      = Some sb'
    ∧ final_score sb' <= final_score sb
    ∧ raw_score sb' <= raw_score sb
    ∧ cap_applied sb' <= cap_applied sb.
Proof.
  apply (worst_case_never_raises_score answers_segmented "D2_VLAN_SEPARATION" "FLAT").
  apply (bool_decide_unpack _). vm_compute. exact I.
Defined.

Lemma conservative_unknown_equiv_witness :
  findings (score_assessment (set_answer answers_segmented "F2_CONFIG_BACKUPS" (Some "NONE")))
  = findings (score_assessment (set_answer answers_segmented "F2_CONFIG_BACKUPS" (Some "NOT_SURE"))).
Proof.
  apply (conservative_unknown_equiv answers_segmented "F2_CONFIG_BACKUPS" "NONE").
  - apply (bool_decide_unpack _). vm_compute. exact I.
  - discriminate.
  - discriminate.
Defined.

(** [grade_from_score]: every integer gets one of the five letters, and a
    higher score never gets a worse letter. *)
Theorem grade_never_drops_with_score (s1 s2 : Z) :
  s1 <= s2 →
  grade_from_score s1 ∈ ["A"; "B"; "C"; "D"; "F"]
  ∧ grade_rank (grade_from_score s1) <= grade_rank (grade_from_score s2).
Proof.
  intros Hle. unfold grade_from_score. split.
  - repeat (case_match; [set_solver|]). set_solver.
  - destruct (Z.leb_spec 85 s1), (Z.leb_spec 85 s2),
             (Z.leb_spec 70 s1), (Z.leb_spec 70 s2),
             (Z.leb_spec 55 s1), (Z.leb_spec 55 s2),
             (Z.leb_spec 40 s1), (Z.leb_spec 40 s2);
      first [lia | vm_compute; discriminate].
Qed.

Lemma grade_never_drops_with_score_witness :
  grade_from_score 54 ∈ ["A"; "B"; "C"; "D"; "F"]
  ∧ grade_rank (grade_from_score 54) <= grade_rank (grade_from_score 55).
Proof.
  apply (grade_never_drops_with_score 54 55). lia.
Defined.

End ScoringMore.

(** ** Further properties of the remediation resolver *)

Module ResolverMore.
Import Scoring PolicyIntent Contract RuleTable ScoringFacts ResolverFacts ScoringMore.

Implicit Types (fc : list string) (gs : list GateResult) (b : FixBlock).

(** *** Gate summaries *)

Lemma gate_summary_cases (g : GateResult) :
  gate_summary g =
    if bool_decide (failed g = true ∧ gate_id g ≠ "")
    then Some (summary_of g) else None.
Proof.
  unfold gate_summary, summary_of.
  destruct (decide (gate_id g = "")) as [E|N].
  - rewrite bool_decide_eq_false_2; [done|]. intros [_ ?]. done.
  - destruct (failed g) eqn:F.
    + by rewrite bool_decide_eq_true_2.
    + rewrite bool_decide_eq_false_2; [done|]. intros [? _]. done.
Qed.

Lemma omap_gate_summary gs :
  omap gate_summary gs
  = summary_of <$> filter (fun g => failed g = true ∧ gate_id g ≠ "") gs.
Proof.
  induction gs as [|g gs IH]; [done|].
  cbn [omap list_omap]. rewrite gate_summary_cases, filter_cons.
  destruct (decide (failed g = true ∧ gate_id g ≠ "")) as [H|H].
  - rewrite bool_decide_eq_true_2 by done. cbn. by rewrite <- IH.
  - rewrite bool_decide_eq_false_2 by done. exact IH.
Qed.

(** The gate summaries: one per gate that failed and has a non-empty
    identifier, in the order of the input, whatever the failed controls;
    each carries the identifier, cap and reasons of its gate; title and
    summary come from the table of executive summaries, and a gate the
    table does not know gets its identifier as title and an empty
    summary. *)
Theorem gate_summaries_follow_failed_gates fc gs :
  let out := generate_fix_blocks fc gs in
  Forall2 (fun s g =>
             gs_gate_id s = gate_id g ∧ gs_cap s = cap g ∧ gs_reasons s = reasons g
             ∧ match GATE_EXEC_SUMMARIES !! gate_id g with
               | Some meta => gs_title s = meta_title meta
                              ∧ gs_summary s = meta_summary meta
               | None => gs_title s = gate_id g ∧ gs_summary s = ""
               end)
    (gate_summaries out)
    (filter (fun g => failed g = true ∧ gate_id g ≠ "") gs).
Proof.
  cbv zeta. unfold generate_fix_blocks. cbn [gate_summaries].
  rewrite omap_gate_summary.
  induction (filter _ gs) as [|g l IH]; [constructor|].
  cbn [fmap list_fmap]. constructor; [|exact IH].
  unfold summary_of.
  destruct (GATE_EXEC_SUMMARIES !! gate_id g); cbn; by split_and!.
Qed.

(** *** Fix blocks are library entries *)

Lemma build_blocks_elem fc b :
  b ∈ build_blocks fc ↔ ∃ c, c ∈ fc ∧ CONTROL_FIX_LIBRARY !! c = Some b.
Proof.
  rewrite build_blocks_first_occ, list_elem_of_omap.
  split; intros (c & Hc & Hb); exists c; (split; [|exact Hb]).
  - exact (proj1 (first_occ_elem_of _ _) Hc).
  - exact (proj2 (first_occ_elem_of _ _) Hc).
Qed.

Lemma all_fixes_elem fc gs b :
  b ∈ all_fixes (generate_fix_blocks fc gs)
  ↔ ∃ c, c ∈ fc ∧ CONTROL_FIX_LIBRARY !! c = Some b.
Proof. by rewrite all_fixes_sorted, sorted_by_key_perm, build_blocks_elem. Qed.

Lemma critical_fixes_elem fc gs b :
  b ∈ critical_fixes (generate_fix_blocks fc gs)
  ↔ is_critical b = true ∧ ∃ c, c ∈ fc ∧ CONTROL_FIX_LIBRARY !! c = Some b.
Proof.
  unfold generate_fix_blocks. cbn [critical_fixes].
  by rewrite list_elem_of_filter, sorted_by_key_perm, build_blocks_elem.
Qed.

Lemma recommended_fixes_elem fc gs b :
  b ∈ recommended_fixes (generate_fix_blocks fc gs)
  ↔ is_critical b = false ∧ ∃ c, c ∈ fc ∧ CONTROL_FIX_LIBRARY !! c = Some b.
Proof.
  unfold generate_fix_blocks. cbn [recommended_fixes].
  by rewrite list_elem_of_filter, sorted_by_key_perm, build_blocks_elem.
Qed.

Lemma library_severities :
  Forall (fun kb => severity kb.2 ∈ ["critical"; "high"; "medium"])
         CONTROL_FIX_LIBRARY_items.
Proof.
  repeat (apply Forall_cons; split;
          [cbn [snd severity];
           repeat first [apply list_elem_of_here | apply list_elem_of_further]|]).
  apply Forall_nil_2.
Qed.

Lemma library_severity c b :
  CONTROL_FIX_LIBRARY !! c = Some b → severity b ∈ ["critical"; "high"; "medium"].
Proof.
  unfold CONTROL_FIX_LIBRARY. intros H%elem_of_list_to_map_2.
  exact (proj1 (Forall_forall _ _) library_severities _ H).
Qed.

(** The two lists of fixes split the library's three severities: every
    critical fix is of severity critical or high, every recommended fix of
    severity medium, and a block of either list is the library's entry for
    one of the given identifiers. *)
Theorem fixes_split_by_severity fc gs :
  Forall (fun b => severity b ∈ ["critical"; "high"]
                   ∧ ∃ c, c ∈ fc ∧ CONTROL_FIX_LIBRARY !! c = Some b)
         (critical_fixes (generate_fix_blocks fc gs))
  ∧ Forall (fun b => severity b = "medium"
                     ∧ ∃ c, c ∈ fc ∧ CONTROL_FIX_LIBRARY !! c = Some b)
           (recommended_fixes (generate_fix_blocks fc gs)).
Proof.
  split; apply Forall_forall; intros b Hb.
  - apply critical_fixes_elem in Hb as [Hc Hlib]. split; [|exact Hlib].
    unfold is_critical in Hc. by apply bool_decide_eq_true in Hc.
  - apply recommended_fixes_elem in Hb as [Hc Hlib]. split; [|exact Hlib].
    destruct Hlib as (c & _ & Hlib). apply library_severity in Hlib.
    unfold is_critical in Hc. apply bool_decide_eq_false in Hc.
    rewrite !elem_of_cons in Hlib. rewrite !elem_of_cons in Hc.
    rewrite elem_of_nil in Hlib. tauto.
Qed.

(** *** The resolver on its own output *)

Lemma sorted_by_key_id (l : list FixBlock) :
  Sorted block_le l → sorted_by_key l = l.
Proof.
  induction 1 as [|b l Hl IH Hhd]; [done|].
  cbn [sorted_by_key foldr]. fold (sorted_by_key l). rewrite IH.
  destruct Hhd as [|y l' Hby]; [done|].
  cbn [insert_by_key].
  apply block_le_sort_key in Hby.
  by rewrite (proj2 (key_ltb_false_le (sort_key b) (sort_key y)) Hby).
Qed.

Lemma omap_library_roundtrip (l : list FixBlock) :
  Forall (fun b => CONTROL_FIX_LIBRARY !! control_id b = Some b) l →
  omap (fun cid => CONTROL_FIX_LIBRARY !! cid) (control_id <$> l) = l.
Proof.
  induction 1 as [|b l Hb _ IH]; [done|].
  cbn [fmap list_fmap omap list_omap]. rewrite Hb. f_equal. exact IH.
Qed.

(** Feeding the resolver the identifiers of the blocks it returned gives
    the same output again. *)
Theorem resolver_stable_on_its_output fc gs :
  generate_fix_blocks (control_id <$> all_fixes (generate_fix_blocks fc gs)) gs
  = generate_fix_blocks fc gs.
Proof.
  set (l := all_fixes (generate_fix_blocks fc gs)).
  assert (Hlib : Forall (fun b => CONTROL_FIX_LIBRARY !! control_id b = Some b) l).
  { apply Forall_forall. intros b (c & _ & Hb)%all_fixes_elem.
    rewrite (library_control_id _ _ Hb). exact Hb. }
  assert (Hnd : NoDup (control_id <$> l)).
  { unfold l. rewrite all_fixes_ids. apply NoDup_filter, first_occ_NoDup. }
  assert (Hsorted : Sorted block_le l).
  { unfold l. rewrite all_fixes_sorted.
    apply StronglySorted_Sorted, sorted_by_key_sorted. }
  assert (Hb : sorted_by_key (build_blocks (control_id <$> l))
               = sorted_by_key (build_blocks fc)).
  { rewrite build_blocks_first_occ, (first_occ_id _ Hnd), omap_library_roundtrip by done.
    rewrite sorted_by_key_id by done. unfold l. apply all_fixes_sorted. }
  unfold generate_fix_blocks at 1 2. by rewrite Hb.
Qed.

(** *** The engine's output in the resolver *)

(** On the engine's output the gates are G1..G5 in this order and the
    summaries are those of the failed ones, in the same order; the cap
    applied is the least cap among them, or 100 when there is none; every
    summary has a reason, and its title and summary text are the entries
    of the table for its gate, so the five titles are the ones listed. *)
Theorem engine_gate_summaries answers :
  ∃ sb, score_assessment answers = Some sb
    ∧ gs_gate_id <$> gate_summaries (generate_fix_blocks (failed_controls sb) (gates sb))
      = gate_id <$> filter (fun g => failed g = true) (gates sb)
    ∧ gate_id <$> gates sb = RECOGNISED_GATES
    ∧ gs_gate_id <$> gate_summaries (generate_fix_blocks (failed_controls sb) (gates sb))
      `sublist_of` RECOGNISED_GATES
    ∧ cap_applied sb
      = foldr Z.min 100
          (gs_cap <$> gate_summaries (generate_fix_blocks (failed_controls sb) (gates sb)))
    ∧ Forall (fun s => gs_reasons s ≠ []
                       ∧ GATE_EXEC_SUMMARIES !! gs_gate_id s
                         = Some {| meta_title := gs_title s;
                                   meta_summary := gs_summary s |}
                       ∧ (gs_gate_id s, gs_title s)
                         ∈ [ ("G1", "Perimeter Exposure"); ("G2", "Guest Isolation");
                             ("G3", "Segmentation"); ("G4", "Configuration Backups");
                             ("G5", "Logging & Visibility") ])
             (gate_summaries (generate_fix_blocks (failed_controls sb) (gates sb))).
Proof.
  destruct (score_assessment_total answers) as (z & _ & _ & ->).
  eexists; split; [reflexivity|].
  set (sb := breakdown_of answers z).
  set (out := gate_summaries (generate_fix_blocks (failed_controls sb) (gates sb))).
  assert (H : gs_gate_id <$> out = gate_id <$> filter (fun g => failed g = true) (gates sb)
              ∧ gate_id <$> gates sb = RECOGNISED_GATES
              ∧ cap_applied sb = foldr Z.min 100 (gs_cap <$> out)
              ∧ Forall (fun s => gs_reasons s ≠ []
                       ∧ GATE_EXEC_SUMMARIES !! gs_gate_id s
                         = Some {| meta_title := gs_title s;
                                   meta_summary := gs_summary s |}
                       ∧ (gs_gate_id s, gs_title s)
                         ∈ [ ("G1", "Perimeter Exposure"); ("G2", "Guest Isolation");
                             ("G3", "Segmentation"); ("G4", "Configuration Backups");
                             ("G5", "Logging & Visibility") ]) out).
  { unfold out, sb, generate_fix_blocks. cbn [gate_summaries].
    rewrite cap_applied_eq, gates_eq.
    generalize (g1_reasons answers) (g2_reasons answers) (g3_reasons answers)
      (g4_reasons answers) (g5_reasons answers).
    intros r1 r2 r3 r4 r5.
    destruct r1, r2, r3, r4, r5; vm_compute;
      (split_and!; [reflexivity | reflexivity | reflexivity |
         repeat (apply Forall_cons; split;
                 [split; [discriminate | split; [reflexivity|]];
                  first [ apply list_elem_of_here
                        | do 1 apply list_elem_of_further; apply list_elem_of_here
                        | do 2 apply list_elem_of_further; apply list_elem_of_here
                        | do 3 apply list_elem_of_further; apply list_elem_of_here
                        | do 4 apply list_elem_of_further; apply list_elem_of_here ]|]);
         apply Forall_nil_2]). }
  destruct H as (Hids & Hgates & Hcap & Hall).
  split; [exact Hids|]. split; [exact Hgates|].
  split; [|split; [exact Hcap|exact Hall]].
  rewrite Hids, <- Hgates. apply fmap_sublist, sublist_filter.
Qed.

Lemma library_gate_blocks :
  Forall (fun cg => ∃ b, CONTROL_FIX_LIBRARY !! cg.1 = Some b
                         ∧ gate b = Some cg.2 ∧ is_critical b = true)
    [ ("CTRL_PERIMETER_WAN_ADMIN_EXPOSURE", "G1");
      ("CTRL_PERIMETER_PORT_FORWARDING", "G1");
      ("CTRL_SEGMENTATION_GUEST_NOT_ISOLATED", "G2");
      ("CTRL_SEGMENTATION_FLAT_NETWORK", "G3");
      ("CTRL_OPERATIONS_NO_BACKUPS", "G4");
      ("CTRL_OPERATIONS_NO_LOGGING", "G5") ].
Proof.
  repeat (apply Forall_cons; split;
          [eexists; split; [vm_compute; reflexivity | split; reflexivity]|]).
  apply Forall_nil_2.
Qed.

Lemma gate_control_fix fc gs c g :
  (c, g) ∈ [ ("CTRL_PERIMETER_WAN_ADMIN_EXPOSURE", "G1");
             ("CTRL_PERIMETER_PORT_FORWARDING", "G1");
             ("CTRL_SEGMENTATION_GUEST_NOT_ISOLATED", "G2");
             ("CTRL_SEGMENTATION_FLAT_NETWORK", "G3");
             ("CTRL_OPERATIONS_NO_BACKUPS", "G4");
             ("CTRL_OPERATIONS_NO_LOGGING", "G5") ] →
  c ∈ fc →
  ∃ b, b ∈ critical_fixes (generate_fix_blocks fc gs) ∧ gate b = Some g.
Proof.
  intros Hcg Hc.
  destruct (proj1 (Forall_forall _ _) library_gate_blocks _ Hcg) as (b & Hb & Hg & Hcrit).
  exists b. split; [|exact Hg].
  apply critical_fixes_elem. split; [exact Hcrit|]. exists c. split; [exact Hc|exact Hb].
Qed.

(** Every gate summary the resolver returns for the engine's output comes
    with a critical fix that belongs to that gate. *)
Theorem failed_gate_has_critical_fix answers :
  ∃ sb, score_assessment answers = Some sb
    ∧ ∀ s, s ∈ gate_summaries (generate_fix_blocks (failed_controls sb) (gates sb)) →
        ∃ b, b ∈ critical_fixes (generate_fix_blocks (failed_controls sb) (gates sb))
             ∧ gate b = Some (gs_gate_id s).
Proof.
  destruct (score_assessment_total answers) as (z & _ & _ & ->).
  eexists; split; [reflexivity|].
  intros s Hs.
  unfold generate_fix_blocks in Hs. cbn [gate_summaries] in Hs.
  rewrite omap_gate_summary in Hs.
  apply list_elem_of_fmap in Hs as (g & -> & Hg).
  apply list_elem_of_filter in Hg as [[Hf _] Hg].
  cbn [summary_of gs_gate_id].
  rewrite failed_controls_raw.
  destruct (raw_failed_controls_elem answers)
    as (Hwan & Hpf & _ & Hflat & _ & Hguest & _ & _ & _ & _ & _ & Hbk & Hlog & _).
  cbv zeta in *.
  rewrite gates_closed in Hg. rewrite !elem_of_cons, elem_of_nil in Hg.
  destruct Hg as [->|[->|[->|[->|[->|[]]]]]]; cbn [failed gate_id] in *.
  - apply orb_true_iff in Hf as [Hf|Hf].
    + eapply gate_control_fix; [|apply Hwan, Hf].
      repeat first [apply list_elem_of_here | apply list_elem_of_further].
    + eapply gate_control_fix; [|apply Hpf, Hf].
      repeat first [apply list_elem_of_here | apply list_elem_of_further].
  - eapply gate_control_fix; [|apply Hguest, Hf].
    repeat first [apply list_elem_of_here | apply list_elem_of_further].
  - eapply gate_control_fix; [|apply Hflat, Hf].
    repeat first [apply list_elem_of_here | apply list_elem_of_further].
  - eapply gate_control_fix; [|apply Hbk, Hf].
    repeat first [apply list_elem_of_here | apply list_elem_of_further].
  - eapply gate_control_fix; [|apply Hlog, Hf].
    repeat first [apply list_elem_of_here | apply list_elem_of_further].
Qed.

Lemma fix_blocks_order_insensitive_witness :
  generate_fix_blocks controls_with_repeats []
  = generate_fix_blocks controls_reordered [].
Proof.
  apply (fix_blocks_order_insensitive controls_with_repeats controls_reordered []).
  intros c. unfold controls_with_repeats, controls_reordered.
  rewrite !elem_of_cons, !elem_of_nil. tauto.
Defined.

End ResolverMore.

(** ** Properties of the report fragments *)

Module ReportFacts.
Import PolicyIntent ReportBuilder.

Lemma count_char_app c s1 s2 :
  count_char c (s1 +:+ s2) = (count_char c s1 + count_char c s2)%nat.
Proof.
  induction s1 as [|a s1 IH]; [reflexivity|].
  simpl. rewrite IH. lia.
Qed.

Lemma count_replace_gone old new s :
  count_char old new = 0%nat → count_char old (replace old new s) = 0%nat.
Proof.
  intros Hnew. induction s as [|a s IH]; [reflexivity|].
  cbn [replace]. destruct (Ascii.eqb a old) eqn:E.
  - rewrite count_char_app, Hnew, IH. reflexivity.
  - cbn [count_char]. rewrite E, IH. reflexivity.
Qed.

Lemma count_replace_keep c old new s :
  count_char c new = 0%nat → count_char c s = 0%nat →
  count_char c (replace old new s) = 0%nat.
Proof.
  intros Hnew. induction s as [|a s IH]; [reflexivity|].
  cbn [replace count_char]. intros Hs.
  destruct (Ascii.eqb a old) eqn:E.
  - rewrite count_char_app, Hnew, IH; [reflexivity|lia].
  - cbn [count_char]. destruct (Ascii.eqb a c); [discriminate Hs|].
    rewrite IH; [reflexivity|exact Hs].
Qed.

Lemma count_replace_other c old new s :
  Ascii.eqb c old = false → count_char c new = 0%nat →
  count_char c (replace old new s) = count_char c s.
Proof.
  intros Hc Hnew. induction s as [|a s IH]; [reflexivity|].
  cbn [replace count_char].
  destruct (Ascii.eqb a old) eqn:E.
  - apply Ascii.eqb_eq in E as ->.
    rewrite count_char_app, Hnew, IH.
    rewrite Ascii.eqb_sym, Hc. reflexivity.
  - cbn [count_char]. rewrite IH. reflexivity.
Qed.

Lemma count_escape c s :
  c ∈ MARKUP_CHARS → count_char c (escape s) = 0%nat.
Proof.
  unfold MARKUP_CHARS. rewrite !elem_of_cons, elem_of_nil.
  intros [->|[->|[->|[->|[]]]]]; unfold escape;
    repeat first
      [ apply count_replace_gone; reflexivity
      | apply count_replace_keep; [reflexivity|] ].
Qed.

Lemma escape_cons a s : escape (String a s) = escape_char a +:+ escape s.
Proof.
  unfold escape, escape_char. cbn [replace].
  destruct (Ascii.eqb a "&") eqn:E1; [reflexivity|].
  cbn [replace]. destruct (Ascii.eqb a "<") eqn:E2; [reflexivity|].
  cbn [replace]. destruct (Ascii.eqb a ">") eqn:E3; [reflexivity|].
  cbn [replace]. destruct (Ascii.eqb a "034") eqn:E4; [reflexivity|].
  cbn [replace]. destruct (Ascii.eqb a "'") eqn:E5; reflexivity.
Qed.

Lemma escape_char_cases a :
  (a = "&"%char ∧ escape_char a = "&amp;")
  ∨ (a = "<"%char ∧ escape_char a = "&lt;")
  ∨ (a = ">"%char ∧ escape_char a = "&gt;")
  ∨ (a = "034"%char ∧ escape_char a = "&quot;")
  ∨ (a = "'"%char ∧ escape_char a = "&#x27;")
  ∨ (a ≠ "&"%char ∧ escape_char a = String a "").
Proof.
  unfold escape_char.
  destruct (Ascii.eqb_spec a "&") as [->|Hn]; [left; split; reflexivity|].
  destruct (Ascii.eqb_spec a "<") as [->|?]; [right; left; split; reflexivity|].
  destruct (Ascii.eqb_spec a ">") as [->|?]; [do 2 right; left; split; reflexivity|].
  destruct (Ascii.eqb_spec a "034") as [->|?]; [do 3 right; left; split; reflexivity|].
  destruct (Ascii.eqb_spec a "'") as [->|?]; [do 4 right; left; split; reflexivity|].
  do 5 right. split; [exact Hn|reflexivity].
Qed.

Lemma count_join_empty c (f : string → string) (k : nat) l :
  (∀ x, count_char c (f x) = k) →
  count_char c (join_empty (f <$> l)) = (k * length l)%nat.
Proof.
  intros Hf. induction l as [|x l IH]; [cbn; lia|].
  change (join_empty (f <$> x :: l)) with (f x +:+ join_empty (f <$> l)).
  rewrite count_char_app, Hf, IH. cbn [length]. lia.
Qed.

Lemma count_h c text : c ∈ MARKUP_CHARS → count_char c (_h text) = 0%nat.
Proof. apply count_escape. Qed.

Lemma markup_lt : "<"%char ∈ MARKUP_CHARS.
Proof. unfold MARKUP_CHARS. apply list_elem_of_here. Qed.

Lemma markup_gt : ">"%char ∈ MARKUP_CHARS.
Proof. unfold MARKUP_CHARS. apply list_elem_of_further, list_elem_of_here. Qed.

Lemma count_pill c label :
  c ∈ MARKUP_CHARS → count_char c (_pill label) = count_char c (_pill "").
Proof.
  intros Hc. unfold _pill. rewrite !count_char_app, !count_h by exact Hc.
  reflexivity.
Qed.

(** [_h]: the escaped text holds none of the characters [<], [>], the
    double quote and the single quote, whatever the text; a missing text
    reads as the empty one, and escaping never shortens. *)
Theorem escaped_text_has_no_markup (text : option string) :
  Forall (fun c => count_char c (_h text) = 0%nat) MARKUP_CHARS
  ∧ _h None = ""
  ∧ (String.length (default "" text) <= String.length (_h text))%nat.
Proof.
  split; [|split].
  - apply Forall_forall. intros c Hc. apply count_h, Hc.
  - reflexivity.
  - unfold _h. generalize (default "" text). intros s.
    induction s as [|a s IH]; [cbn; lia|].
    rewrite escape_cons.
    destruct (escape_char_cases a) as [[_ ->]|[[_ ->]|[[_ ->]|[[_ ->]|[[_ ->]|[_ ->]]]]]];
      cbv [append]; cbn [String.length]; lia.
Qed.

(** [_h]: escaping loses nothing, two different texts never render the
    same. *)
Theorem escaping_is_injective (s1 s2 : string) :
  _h (Some s1) = _h (Some s2) → s1 = s2.
Proof.
  unfold _h. cbn [default from_option id].
  revert s2. induction s1 as [|a1 s1 IH]; intros [|a2 s2].
  - reflexivity.
  - rewrite escape_cons.
    destruct (escape_char_cases a2) as [[_ ->]|[[_ ->]|[[_ ->]|[[_ ->]|[[_ ->]|[_ ->]]]]]];
      intros H; discriminate H.
  - rewrite escape_cons.
    destruct (escape_char_cases a1) as [[_ ->]|[[_ ->]|[[_ ->]|[[_ ->]|[[_ ->]|[_ ->]]]]]];
      intros H; discriminate H.
  - rewrite !escape_cons.
    destruct (escape_char_cases a1) as [[-> ->]|[[-> ->]|[[-> ->]|[[-> ->]|[[-> ->]|[N1 ->]]]]]];
    destruct (escape_char_cases a2) as [[-> ->]|[[-> ->]|[[-> ->]|[[-> ->]|[[-> ->]|[N2 ->]]]]]];
      cbn [String.append]; intros H;
      first
        [ discriminate H
        | injection H as H; f_equal; apply IH; exact H
        | injection H as Ha H; exfalso; first [apply N2; symmetry; exact Ha | apply N1; exact Ha]
        | injection H as Ha H; subst; f_equal; apply IH; exact H ].
Qed.

Lemma escaping_is_injective_witness :
  _h (Some "a<b") = _h (Some "a<b") ∧ "a<b" = "a<b".
Proof.
  split; [reflexivity|].
  apply (escaping_is_injective "a<b" "a<b"). reflexivity.
Defined.

(** [_render_alerts]: no notes, no card; otherwise the card has eight tags
    of its own and one [li] element for each note, whatever the notes
    say. *)
Theorem alerts_markup_from_template (notes : list string) :
  (_render_alerts notes = "" ↔ notes = [])
  ∧ count_char "<" (_render_alerts notes)
    = match notes with [] => 0 | _ => 8 + 2 * length notes end%nat
  ∧ count_char ">" (_render_alerts notes)
    = match notes with [] => 0 | _ => 8 + 2 * length notes end%nat.
Proof.
  destruct notes as [|n notes].
  { split; [split; reflexivity|split; reflexivity]. }
  split; [split; intros H; discriminate H|].
  unfold _render_alerts.
  split.
  - rewrite !count_char_app.
    rewrite (count_join_empty "<" _ 2); [cbn; lia|].
    intros x. rewrite !count_char_app, (count_h _ _ markup_lt). reflexivity.
  - rewrite !count_char_app.
    rewrite (count_join_empty ">" _ 2); [cbn; lia|].
    intros x. rewrite !count_char_app, (count_h _ _ markup_gt). reflexivity.
Qed.

Lemma count_gate_txt c gate :
  c = "<"%char ∨ c = ">"%char →
  count_char c (gate_txt gate)
  = match gate with
    | Some g => if decide (g = "") then 0 else 2
    | None => 0
    end%nat.
Proof.
  intros Hc. unfold gate_txt. destruct gate as [g|]; [|reflexivity].
  destruct (decide (g = "")); [reflexivity|].
  rewrite !count_char_app.
  destruct Hc as [-> | ->].
  - rewrite (count_h _ _ markup_lt). reflexivity.
  - rewrite (count_h _ _ markup_gt). reflexivity.
Qed.

(** [_pill], [_render_fix_block]: a pill has the markup characters of
    the empty pill; a fix block has eighteen tags of its own, one [span]
    element for each reference and one [div] for a gate that is set,
    whatever its texts say. *)
Theorem fix_block_markup_from_template (b : FixBlock) (label : string) :
  Forall (fun c => count_char c (_pill label) = count_char c (_pill "")) MARKUP_CHARS
  ∧ Forall (fun c =>
      count_char c (_render_fix_block b)
      = (18 + 2 * length (references b)
         + match gate b with
           | Some g => if decide (g = "") then 0 else 2
           | None => 0
           end)%nat) [ "<"%char; ">"%char ].
Proof.
  split.
  - apply Forall_forall. intros c Hc. apply count_pill, Hc.
  - constructor; [|constructor; [|constructor]].
    + unfold _render_fix_block. rewrite !count_char_app.
      rewrite (count_join_empty "<" _ 2).
      * rewrite !(count_h _ _ markup_lt), (count_gate_txt "<" _ (or_introl eq_refl)).
        cbn. lia.
      * intros x. rewrite (count_pill _ _ markup_lt). reflexivity.
    + unfold _render_fix_block. rewrite !count_char_app.
      rewrite (count_join_empty ">" _ 2).
      * rewrite !(count_h _ _ markup_gt), (count_gate_txt ">" _ (or_intror eq_refl)).
        cbn. lia.
      * intros x. rewrite (count_pill _ _ markup_gt). reflexivity.
Qed.

End ReportFacts.

(** ** Properties of the wizard *)

Module AppFacts.
Import Scoring PolicyIntent Contract RuleTable App ScoringFacts ResolverFacts ScoringMore.

Lemma question_answered_iff answers q :
  negb (question_unanswered answers q) = true
  ↔ ∀ qid, q_id q = Some qid → qid ≠ "" → is_Some (answers !! qid).
Proof.
  unfold question_unanswered. destruct (q_id q) as [qid|].
  - destruct (decide (qid = "")) as [->|Hne].
    + rewrite bool_decide_eq_true_2 by reflexivity. cbn.
      split; [|reflexivity]. intros _ ? [= <-] Hn. by destruct Hn.
    + rewrite (bool_decide_eq_false_2 _ Hne). cbn [negb andb].
      destruct (answers !! qid) as [v|] eqn:E.
      * rewrite bool_decide_eq_false_2 by discriminate. cbn.
        split; [|reflexivity]. intros _ ? [= <-] _. rewrite E. by eexists.
      * rewrite bool_decide_eq_true_2 by reflexivity. cbn.
        split; [discriminate|]. intros H.
        destruct (H qid eq_refl Hne) as [v Hv]. rewrite E in Hv. discriminate Hv.
  - cbn. split; [|reflexivity]. intros _ ? [=].
Qed.

Lemma elem_of_catalog_ids data qid :
  qid ∈ catalog_ids data
  ↔ ∃ section q, section ∈ sections data ∧ q ∈ sec_questions section
                 ∧ q_id q = Some qid.
Proof.
  unfold catalog_ids. rewrite list_elem_of_omap. split.
  - intros (q & Hq & Hid). apply list_elem_of_join in Hq as (qs & Hq & Hqs).
    apply list_elem_of_fmap in Hqs as (section & -> & Hs).
    by exists section, q.
  - intros (section & q & Hs & Hq & Hid). exists q. split; [|exact Hid].
    apply list_elem_of_join. exists (sec_questions section). split; [exact Hq|].
    apply list_elem_of_fmap. by exists section.
Qed.

Lemma all_questions_answered_spec data answers :
  all_questions_answered data answers = true
  ↔ ∀ qid, qid ∈ catalog_ids data → qid ≠ "" → is_Some (answers !! qid).
Proof.
  unfold all_questions_answered. rewrite forallb_forall. split.
  - intros H qid Hin Hne.
    apply elem_of_catalog_ids in Hin as (section & q & Hs & Hq & Hid).
    apply list_elem_of_In in Hs. specialize (H _ Hs).
    rewrite forallb_forall in H.
    apply list_elem_of_In in Hq. specialize (H _ Hq).
    exact (proj1 (question_answered_iff _ _) H qid Hid Hne).
  - intros H section Hs. apply forallb_forall. intros q Hq.
    apply question_answered_iff. intros qid Hid Hne. apply H; [|exact Hne].
    apply elem_of_catalog_ids. exists section, q.
    by rewrite <- !list_elem_of_In in *.
Qed.

Lemma required_ids_nonempty qid : qid ∈ REQUIRED_SCORED_QIDS → qid ≠ "".
Proof.
  unfold REQUIRED_SCORED_QIDS. intros Hin ->.
  repeat (apply elem_of_cons in Hin as [Hin|Hin]; [discriminate Hin|]).
  by apply elem_of_nil in Hin.
Qed.

(** [all_questions_answered]: the two loops answer [True] exactly when
    every identifier of the catalog, the empty one apart, has an answer;
    a catalog without questions is complete, and further answers never
    make a complete set incomplete. *)
Theorem all_questions_answered_iff (data : Catalog) (answers more : gmap string string) :
  (all_questions_answered data answers = true
   ↔ ∀ qid, qid ∈ catalog_ids data → qid ≠ "" → is_Some (answers !! qid))
  ∧ all_questions_answered (mkCatalog []) answers = true
  ∧ (all_questions_answered data answers = false
     ↔ ∃ qid, qid ∈ catalog_ids data ∧ qid ≠ "" ∧ answers !! qid = None)
  ∧ (if all_questions_answered data answers
     then all_questions_answered data (more ∪ answers) = true
     else True).
Proof.
  split; [apply all_questions_answered_spec|].
  split; [reflexivity|].
  split.
  - split.
    + intros Hf.
      destruct (decide (Exists (fun qid => qid ≠ "" ∧ answers !! qid = None)
                               (catalog_ids data))) as [Hex|Hno].
      * apply Exists_exists in Hex as (qid & Hin & Hne & Hnone). by exists qid.
      * exfalso. apply not_true_iff_false in Hf. apply Hf.
        apply all_questions_answered_spec. intros qid Hin Hne.
        destruct (answers !! qid) as [v|] eqn:E; [by eexists|].
        destruct Hno. apply Exists_exists. by exists qid.
    + intros (qid & Hin & Hne & Hnone). apply not_true_iff_false. intros Ht.
      destruct (proj1 (all_questions_answered_spec _ _) Ht qid Hin Hne) as [v Hv].
      rewrite Hnone in Hv. discriminate Hv.
  - destruct (all_questions_answered data answers) eqn:E; [|exact I].
    apply all_questions_answered_spec. intros qid Hin Hne.
    destruct (proj1 (all_questions_answered_spec _ _) E qid Hin Hne) as [v Hv].
    destruct (more !! qid) as [w|] eqn:Ew.
    + exists w. by apply lookup_union_Some_l.
    + exists v. rewrite lookup_union_r by exact Ew. exact Hv.
Qed.

(** The "Generate Report" handler, reached only when
    [all_questions_answered] holds: when the catalog asks every scored
    question, scoring succeeds, the report never carries the
    missing-answers note, and the only note it can carry is the one about
    the device bucket. *)
Theorem complete_wizard_no_missing_note (data : Catalog) (answers : gmap string string) :
  all_questions_answered data answers = true →
  Forall (fun qid => qid ∈ catalog_ids data) REQUIRED_SCORED_QIDS →
  ∃ result fixes,
    generate_report answers = Some (result, fixes)
    ∧ _missing_required_scored_answers answers = []
    ∧ (notes result = [] ∨ notes result = [bucket_note_text])
    ∧ (notes result = [] ↔
       ∀ v, answers !! "A1_DEVICE_COUNT" = Some v → is_Some (DEVICE_MULTIPLIER !! v)).
Proof.
  intros Hall Hcat.
  assert (Hreq : ∀ q, q ∈ REQUIRED_SCORED_QIDS → is_Some (answers !! q)).
  { intros q Hq. apply (proj1 (all_questions_answered_spec _ _) Hall).
    - by apply (proj1 (Forall_forall _ _) Hcat).
    - by apply required_ids_nonempty. }
  clear Hall Hcat.
  unfold generate_report.
  destruct (score_assessment_total answers) as (z & _ & _ & ->).
  cbn [mbind option_bind].
  do 2 eexists. split; [reflexivity|].
  change (notes (breakdown_of answers z))
    with (missing_note answers ++ bucket_note answers).
  assert (Hm : _missing_required_scored_answers answers = []).
  { apply filter_eq_nil_iff. intros q Hq Hnone.
    destruct (Hreq q Hq) as [v Hv]. rewrite Hnone in Hv. discriminate Hv. }
  split; [exact Hm|].
  rewrite (proj2 (missing_note_nil answers) Hreq). cbn [app].
  split.
  - unfold bucket_note. case_decide; [by left|by right].
  - apply bucket_note_nil.
Qed.

Lemma complete_wizard_no_missing_note_witness :
  ∃ result fixes,
    generate_report answers_all_failing = Some (result, fixes)
    ∧ _missing_required_scored_answers answers_all_failing = []
    ∧ (notes result = [] ∨ notes result = [bucket_note_text])
    ∧ (notes result = [] ↔
       ∀ v, answers_all_failing !! "A1_DEVICE_COUNT" = Some v →
            is_Some (DEVICE_MULTIPLIER !! v)).
Proof.
  apply (complete_wizard_no_missing_note
           (catalog_of_ids ("A1_DEVICE_COUNT" :: REQUIRED_SCORED_QIDS))
           answers_all_failing).
  - vm_compute. reflexivity.
  - apply (bool_decide_unpack _). vm_compute. exact I.
Defined.

Lemma lookup_set_default key value state k :
  set_default key value state !! k
  = match state !! k with
    | Some x => Some x
    | None => if decide (k = key) then Some value else None
    end.
Proof.
  unfold set_default. destruct (state !! key) as [x|] eqn:E.
  - destruct (state !! k) as [y|] eqn:Ek; [reflexivity|].
    case_decide; [|reflexivity]. subst k. rewrite E in Ek. discriminate Ek.
  - destruct (decide (k = key)) as [->|Hne].
    + rewrite lookup_insert_eq, E. reflexivity.
    + rewrite lookup_insert_ne by (intros Heq; apply Hne; symmetry; exact Heq).
      destruct (state !! k); reflexivity.
Qed.

Lemma lookup_init_state state k :
  init_state state !! k
  = match state !! k with
    | Some x => Some x
    | None => init_state ∅ !! k
    end.
Proof.
  unfold init_state. rewrite !lookup_set_default.
  destruct (state !! k); [reflexivity|].
  rewrite lookup_empty. reflexivity.
Qed.

Ltac session_key :=
  rewrite lookup_insert_eq,
    decide_True by (apply (bool_decide_unpack _); vm_compute; exact I);
  vm_compute; reflexivity.

Lemma lookup_reset_assessment state k :
  reset_assessment state !! k
  = if decide (k ∈ SESSION_KEYS) then init_state ∅ !! k else state !! k.
Proof.
  unfold reset_assessment, SESSION_KEYS.
  destruct (decide (k = "show_demo_notice")) as [->|N8]; [session_key|].
  rewrite lookup_insert_ne by (intros Heq; apply N8; symmetry; exact Heq).
  destruct (decide (k = "demo_mode")) as [->|N7]; [session_key|].
  rewrite lookup_insert_ne by (intros Heq; apply N7; symmetry; exact Heq).
  destruct (decide (k = "report_html")) as [->|N6]; [session_key|].
  rewrite lookup_insert_ne by (intros Heq; apply N6; symmetry; exact Heq).
  destruct (decide (k = "fixes")) as [->|N5]; [session_key|].
  rewrite lookup_insert_ne by (intros Heq; apply N5; symmetry; exact Heq).
  destruct (decide (k = "result")) as [->|N4]; [session_key|].
  rewrite lookup_insert_ne by (intros Heq; apply N4; symmetry; exact Heq).
  destruct (decide (k = "submitted")) as [->|N3]; [session_key|].
  rewrite lookup_insert_ne by (intros Heq; apply N3; symmetry; exact Heq).
  destruct (decide (k = "answers")) as [->|N2]; [session_key|].
  rewrite lookup_insert_ne by (intros Heq; apply N2; symmetry; exact Heq).
  destruct (decide (k = "section_index")) as [->|N1]; [session_key|].
  rewrite lookup_insert_ne by (intros Heq; apply N1; symmetry; exact Heq).
  rewrite decide_False; [reflexivity|].
  rewrite !elem_of_cons, elem_of_nil. tauto.
Qed.

Lemma init_fresh_dom k : is_Some (init_state ∅ !! k) ↔ k ∈ SESSION_KEYS.
Proof.
  pose proof (lookup_reset_assessment ∅ k) as H.
  destruct (decide (k ∈ SESSION_KEYS)) as [Hin|Hout].
  - split; [intros _; exact Hin|intros _].
    unfold SESSION_KEYS in Hin.
    repeat (apply elem_of_cons in Hin as [->|Hin]; [by eexists|]).
    by apply elem_of_nil in Hin.
  - split; [|intros Hin; destruct (Hout Hin)].
    intros [v Hv]. exfalso. unfold init_state in Hv.
    rewrite !lookup_set_default, lookup_empty in Hv.
    unfold SESSION_KEYS in Hout.
    repeat (destruct (decide (k = _)) as [->|_] in Hv;
            [apply Hout; apply (bool_decide_unpack _); vm_compute; exact I|]).
    discriminate Hv.
Qed.

Lemma init_state_union state : init_state state = state ∪ init_state ∅.
Proof.
  apply map_eq. intros k. rewrite lookup_init_state.
  destruct (state !! k) as [v|] eqn:E.
  - symmetry. by apply lookup_union_Some_l.
  - rewrite lookup_union_r by exact E. reflexivity.
Qed.

Lemma reset_assessment_union state : reset_assessment state = init_state ∅ ∪ state.
Proof.
  apply map_eq. intros k. rewrite lookup_reset_assessment.
  case_decide as Hin.
  - apply init_fresh_dom in Hin as [v Hv]. rewrite Hv.
    symmetry. by apply lookup_union_Some_l.
  - rewrite lookup_union_r; [reflexivity|].
    destruct (init_state ∅ !! k) as [v|] eqn:E; [|reflexivity].
    destruct Hin. apply init_fresh_dom. by eexists.
Qed.

(** [init_state], [reset_assessment]: initialising keeps every key that
    is set and fills the others from the fresh session; resetting
    overrides the eight keys of the application with the values of the
    fresh session and keeps every other key.  Hence initialising is
    idempotent, a reset session needs no initialising, and a reset
    forgets whether the session had been initialised. *)
Theorem reset_restores_fresh_session (state : gmap string SessionValue) :
  init_state state = state ∪ init_state ∅
  ∧ reset_assessment state = init_state ∅ ∪ state
  ∧ dom (init_state ∅) = list_to_set SESSION_KEYS
  ∧ init_state (init_state state) = init_state state
  ∧ init_state (reset_assessment state) = reset_assessment state
  ∧ reset_assessment (init_state state) = reset_assessment state
  ∧ reset_assessment (reset_assessment state) = reset_assessment state.
Proof.
  split; [apply init_state_union|].
  split; [apply reset_assessment_union|].
  split.
  { apply set_eq. intros k. rewrite elem_of_dom, elem_of_list_to_set.
    apply init_fresh_dom. }
  set (fresh := init_state ∅).
  assert (Hi : ∀ s, init_state s = s ∪ fresh) by apply init_state_union.
  assert (Hr : ∀ s, reset_assessment s = fresh ∪ s) by apply reset_assessment_union.
  clearbody fresh. rewrite !Hi, !Hr. clear Hi Hr.
  split; [|split; [|split]];
    apply map_eq; intros k; rewrite !lookup_union;
    destruct (fresh !! k), (state !! k); reflexivity.
Qed.

End AppFacts.

(** ** Properties of the demo answers *)

Module DemoFacts.
Import Scoring PolicyIntent Contract App AppDemo AppFacts.

Section Demo.
Context {Score : Type}.
Variable label_score : string → Score.
Variable score_gt : Score → Score → bool.
Variable lowest : Score.

Lemma best_step_bound (n : nat) l st :
  (∀ il, il ∈ l → (il.1 < n)%nat) → (st.1 < n)%nat →
  ((foldl (best_step label_score score_gt) st l).1 < n)%nat.
Proof.
  revert st. induction l as [|[i label] l IH]; intros [bi bs] Hl Hst; [exact Hst|].
  cbn [foldl]. apply IH.
  - intros il Hil. apply Hl. by right.
  - unfold AppDemo.best_step. destruct (score_gt _ _); [|exact Hst].
    apply (Hl (i, label)). by left.
Qed.

Lemma best_index_bound labels :
  labels ≠ [] → ((best_index label_score score_gt lowest) labels < length labels)%nat.
Proof.
  intros Hne. unfold AppDemo.best_index. apply best_step_bound.
  - intros [i label] Hil. unfold enumerate in Hil.
    apply elem_of_zip_l in Hil. cbn in *.
    apply list_elem_of_In, in_seq in Hil. lia.
  - destruct labels; [done|]. cbn. lia.
Qed.

Lemma demo_question_spec answers q :
  ∃ answers', (demo_question label_score score_gt lowest) answers q = Some answers'
    ∧ (answers' = answers ∧ (∀ qid, q_id q = Some qid → qid ≠ "" → q_options q = [])
       ∨ ∃ qid key, offers q qid key ∧ answers' = <[qid := key]> answers).
Proof.
  unfold AppDemo.demo_question.
  destruct (q_id q) as [qid|] eqn:Eid.
  - destruct (decide (qid = "")) as [->|Hne].
    + eexists; split; [reflexivity|]. left. split; [reflexivity|].
      intros ? [= <-] Hn. by destruct Hn.
    + destruct (q_options q) as [|o options] eqn:Eo.
      * eexists; split; [reflexivity|]. left. split; [reflexivity|]. done.
      * assert (Hb := best_index_bound (snd <$> (o :: options))).
        rewrite length_fmap in Hb. specialize (Hb ltac:(done)).
        unfold selected_key. rewrite length_fmap.
        rewrite decide_True by exact Hb.
        destruct (lookup_lt_is_Some_2 (fst <$> o :: options)
                    ((best_index label_score score_gt lowest) (snd <$> o :: options))) as [key Hkey].
        { rewrite length_fmap. exact Hb. }
        rewrite Hkey. cbn [mbind option_bind].
        eexists; split; [reflexivity|]. right. exists qid, key.
        split; [|reflexivity]. split; [exact Eid|]. split; [exact Hne|].
        rewrite Eo. by apply list_elem_of_lookup_2 in Hkey.
  - eexists; split; [reflexivity|]. left. split; [reflexivity|]. done.
Qed.

Lemma demo_questions_spec qs answers :
  ∃ answers',
    foldl (fun acc q => a ← acc; (demo_question label_score score_gt lowest) a q) (Some answers) qs = Some answers'
    ∧ (∀ qid key, answers' !! qid = Some key →
         answers !! qid = Some key ∨ ∃ q, q ∈ qs ∧ offers q qid key)
    ∧ (∀ qid, is_Some (answers !! qid) → is_Some (answers' !! qid))
    ∧ (∀ q qid, q ∈ qs → q_id q = Some qid → qid ≠ "" → q_options q ≠ [] →
         is_Some (answers' !! qid)).
Proof.
  revert answers. induction qs as [|q qs IH]; intros answers.
  - exists answers. split; [reflexivity|]. split; [by left|]. split; [done|].
    intros q qid Hq. by apply elem_of_nil in Hq.
  - cbn [foldl mbind option_bind].
    destruct (demo_question_spec answers q) as (a1 & -> & Hq).
    destruct (IH a1) as (a2 & -> & Hval & Hmono & Hall).
    exists a2. split; [reflexivity|].
    destruct Hq as [[-> Hskip] | (qid0 & key0 & Hoff & ->)].
    + split; [|split; [exact Hmono|]].
      * intros qid key Hk. destruct (Hval _ _ Hk) as [?|(q' & Hin & Ho)]; [by left|].
        right. exists q'. split; [by right|exact Ho].
      * intros q' qid Hin Hid Hne Hopt.
        apply elem_of_cons in Hin as [->|Hin]; [|by eapply Hall].
        destruct Hopt. by eapply Hskip.
    + split; [|split].
      * intros qid key Hk. destruct (Hval _ _ Hk) as [Hl|(q' & Hin & Ho)].
        -- destruct (decide (qid = qid0)) as [->|Hne].
           ++ rewrite lookup_insert_eq in Hl. injection Hl as <-.
              right. exists q. split; [by left|exact Hoff].
           ++ rewrite lookup_insert_ne in Hl by (intros Heq; apply Hne; symmetry; exact Heq).
              by left.
        -- right. exists q'. split; [by right|exact Ho].
      * intros qid Hs. apply Hmono.
        destruct (decide (qid = qid0)) as [->|Hne].
        -- rewrite lookup_insert_eq. by eexists.
        -- rewrite lookup_insert_ne by (intros Heq; apply Hne; symmetry; exact Heq).
           exact Hs.
      * intros q' qid Hin Hid Hne Hopt.
        apply elem_of_cons in Hin as [->|Hin]; [|by eapply Hall].
        apply Hmono. destruct Hoff as (Hid0 & _ & _).
        rewrite Hid in Hid0. injection Hid0 as <-.
        rewrite lookup_insert_eq. by eexists.
Qed.

Lemma demo_sections_flat ss (acc : option (gmap string string)) :
  foldl (fun acc section => a ← acc; (demo_section label_score score_gt lowest) a section) acc ss
  = foldl (fun acc q => a ← acc; (demo_question label_score score_gt lowest) a q) acc
          (mjoin (sec_questions <$> ss)).
Proof.
  revert acc. induction ss as [|s ss IH]; intros acc; [reflexivity|].
  cbn [foldl fmap list_fmap mjoin list_join]. rewrite foldl_app, IH.
  f_equal. destruct acc as [a|]; [reflexivity|].
  cbn [mbind option_bind]. clear IH.
  induction (sec_questions s) as [|q qs IHq]; [reflexivity|]. exact IHq.
Qed.

(** [(set_demo_answers label_score score_gt lowest)]: it never fails with an [IndexError] (the
    fallback to [option_keys[0]] is dead code); every answer it stores is
    the key of an option of a question with that identifier, every
    question that has an identifier and options gets an answer, and the
    four session keys are set.  So the wizard counts the demo answers as
    complete exactly when every question of the catalog that has an
    identifier also has options. *)
Theorem demo_answers_are_option_keys (data : Catalog) (state : gmap string SessionValue) :
  ∃ answers,
    (demo_answers label_score score_gt lowest) data = Some answers
    ∧ (set_demo_answers label_score score_gt lowest) data state
      = Some (<["show_demo_notice" := VBool true]>
                (<["section_index" := VInt 0]>
                   (<["demo_mode" := VBool true]>
                      (<["answers" := VAnswers answers]> state))))
    ∧ answers !! "" = None
    ∧ (∀ qid key, answers !! qid = Some key →
         ∃ section q, section ∈ sections data ∧ q ∈ sec_questions section
                      ∧ q_id q = Some qid ∧ qid ≠ "" ∧ key ∈ (q_options q).*1)
    ∧ (∀ section q qid, section ∈ sections data → q ∈ sec_questions section →
         q_id q = Some qid → qid ≠ "" → q_options q ≠ [] →
         is_Some (answers !! qid))
    ∧ (all_questions_answered data answers = true ↔
         ∀ qid, qid ∈ catalog_ids data → qid ≠ "" →
           ∃ section q, section ∈ sections data ∧ q ∈ sec_questions section
                        ∧ q_id q = Some qid ∧ q_options q ≠ []).
Proof.
  unfold AppDemo.set_demo_answers, AppDemo.demo_answers.
  rewrite demo_sections_flat.
  destruct (demo_questions_spec (mjoin (sec_questions <$> sections data)) ∅)
    as (answers & -> & Hval & _ & Hall).
  exists answers. split; [reflexivity|]. split; [reflexivity|].
  assert (Hkeys : ∀ qid key, answers !! qid = Some key →
     ∃ section q, section ∈ sections data ∧ q ∈ sec_questions section
                  ∧ q_id q = Some qid ∧ qid ≠ "" ∧ key ∈ (q_options q).*1).
  { intros qid key Hk. destruct (Hval _ _ Hk) as [He|(q & Hin & Hid & Hne & Hkey)].
    - rewrite lookup_empty in He. discriminate He.
    - apply list_elem_of_join in Hin as (qs & Hq & Hqs).
      apply list_elem_of_fmap in Hqs as (section & -> & Hs).
      by exists section, q. }
  assert (Hopts : ∀ section q qid, section ∈ sections data → q ∈ sec_questions section →
     q_id q = Some qid → qid ≠ "" → q_options q ≠ [] → is_Some (answers !! qid)).
  { intros section q qid Hs Hq. apply Hall.
    apply list_elem_of_join. exists (sec_questions section). split; [exact Hq|].
    apply list_elem_of_fmap. by exists section. }
  split; [|split; [exact Hkeys|split; [exact Hopts|]]].
  - destruct (answers !! "") as [key|] eqn:Hk; [|reflexivity].
    destruct (Hkeys _ _ Hk) as (_ & _ & _ & _ & _ & Hne & _). by destruct Hne.
  - rewrite all_questions_answered_spec. split.
    + intros Hans qid Hin Hne. destruct (Hans qid Hin Hne) as [key Hk].
      destruct (Hkeys _ _ Hk) as (section & q & Hs & Hq & Hid & _ & Hkey).
      exists section, q. do 3 (split; [done|]).
      intros Hnil. rewrite Hnil in Hkey. by apply elem_of_nil in Hkey.
    + intros Hcat qid Hin Hne.
      destruct (Hcat qid Hin Hne) as (section & q & Hs & Hq & Hid & Hopt).
      by eapply Hopts.
Qed.

End Demo.

End DemoFacts.
